(** * eth-balances: the batching and decoding pipeline of [src/index.ts]

    A shallow embedding of the pure functions of the package
    ([chunk], [getNonZeroResults], [resultDataByContract],
    [buildCallsContext], [decodeMetaResults], [balancesByContract]), of
    the address resolver [getAddress] and of the functions that talk to
    the multicall contract ([aggregate], [fetchRawBalances],
    [getTokenBalances]), together with the parts of the ethers v6 library
    they call.

    Conventions.
    - Return data is the hex string that ethers hands back for an ABI
      [bytes] value: ["0x"] followed by two lower-case hex digits per byte.
    - A JavaScript object used as a dictionary is a [gmap] with string keys.
    - A function that may throw returns an [option]; [None] stands for the
      thrown exception.  [getAddress] keeps the message of the errors it
      raises itself.
    - [console.info] is modelled by the list of lines written.
    - A promise is the [option] of its value; [None] is a rejection. *)

From Stdlib Require Import ZArith Lia Strings.Byte Ascii String.
From stdpp Require Import base list strings gmap pretty.

Open Scope Z_scope.

(** ** JavaScript values that flow through the pipeline *)

(** A JavaScript number, as far as the pipeline can tell numbers apart:
    an integral value, NaN, or anything else (a fraction or an infinity). *)
Inductive JsNumber :=
| NumInt (z : Z)
| NumNaN
| NumNonInt.

Inductive JsValue :=
| VString (s : string)
| VBigInt (z : Z)
| VNumber (n : JsNumber).

#[global] Instance byte_eq_dec : EqDecision byte := Byte.byte_eq_dec.

(** ** The ethers v6 functions imported by [index.ts] *)

Module Ethers.

(** [ZeroHash]: 32 zero bytes as a hex string (66 characters). *)
Definition ZeroHash : string :=
  "0x0000000000000000000000000000000000000000000000000000000000000000".

Definition byteZ (b : byte) : Z := Z.of_N (Byte.to_N b).

(** *** Hex strings *)

Definition hexDigit (c : ascii) : option N :=
  let n := N_of_ascii c in
  if (48 <=? n)%N && (n <=? 57)%N then Some (n - 48)%N
  else if (97 <=? n)%N && (n <=? 102)%N then Some (n - 87)%N
  else if (65 <=? n)%N && (n <=? 70)%N then Some (n - 55)%N
  else None.

Fixpoint hexPairs (cs : list ascii) : option (list byte) :=
  match cs with
  | [] => Some []
  | h :: l :: rest =>
      hi ← hexDigit h; lo ← hexDigit l;
      b ← Byte.of_N (16 * hi + lo);
      bs ← hexPairs rest;
      Some (b :: bs)
  | _ => None
  end.

(** [getBytes]: a string is accepted when it matches
    [/^0x(?:[0-9a-f][0-9a-f])*$/i]. *)
Definition getBytes (value : string) : option (list byte) :=
  match value with
  | String "0" (String x digits) =>
      if bool_decide (x = "x"%char ∨ x = "X"%char)
      then hexPairs (list_ascii_of_string digits) else None
  | _ => None
  end.

Definition hexChar (n : N) : ascii :=
  ascii_of_N (if (n <? 10)%N then n + 48 else n + 87).

Definition hexByte (b : byte) : list ascii :=
  [hexChar (Byte.to_N b / 16); hexChar (Byte.to_N b mod 16)].

(** [hexlify]: the canonical lower-case hex string of a byte sequence,
    the form in which decoded [bytes] values are returned. *)
Definition hexlify (bs : list byte) : string :=
  String "0" (String "x" (string_of_list_ascii (flat_map hexByte bs))).

(** [toBigInt] on bytes: big-endian. *)
Definition toBigInt (bs : list byte) : Z :=
  fold_left (λ acc b, acc * 256 + byteZ b) bs 0.

(** *** UTF-8 *)

Definition utf8Cont (b : byte) : bool := (128 <=? byteZ b) && (byteZ b <? 192).

(** [toUtf8String] with the default error policy throws on every
    ill-formed sequence: stray or missing continuation bytes, overlong
    forms, surrogates and code points above 0x10ffff. *)
Fixpoint utf8Valid (bs : list byte) : bool :=
  match bs with
  | [] => true
  | b0 :: rest =>
      let c := byteZ b0 in
      if c <? 128 then utf8Valid rest
      else if (192 <=? c) && (c <? 224) then
        match rest with
        | b1 :: rest' =>
            let cp := (c - 192) * 64 + (byteZ b1 - 128) in
            utf8Cont b1 && (127 <? cp) && utf8Valid rest'
        | _ => false
        end
      else if (224 <=? c) && (c <? 240) then
        match rest with
        | b1 :: b2 :: rest' =>
            let cp := ((c - 224) * 64 + (byteZ b1 - 128)) * 64 + (byteZ b2 - 128) in
            utf8Cont b1 && utf8Cont b2 && (2047 <? cp)
            && negb ((55296 <=? cp) && (cp <=? 57343))
            && utf8Valid rest'
        | _ => false
        end
      else if (240 <=? c) && (c <? 248) then
        match rest with
        | b1 :: b2 :: b3 :: rest' =>
            let cp := (((c - 240) * 64 + (byteZ b1 - 128)) * 64
                       + (byteZ b2 - 128)) * 64 + (byteZ b3 - 128) in
            utf8Cont b1 && utf8Cont b2 && utf8Cont b3
            && (65535 <? cp) && (cp <=? 1114111)
            && utf8Valid rest'
        | _ => false
        end
      else false
  end.

(** The decoded text is kept as its UTF-8 bytes; for ASCII input these
    are the characters themselves. *)
Definition toUtf8String (bs : list byte) : option string :=
  if utf8Valid bs then Some (string_of_list_byte bs) else None.

(** *** ABI decoding ([AbiCoder.defaultAbiCoder().decode]) *)

Definition MAX_SAFE_INTEGER : Z := 2 ^ 53 - 1.

(** [Uint8Array.prototype.slice(offset)]. *)
Definition sliceFrom (offset : Z) (data : list byte) : list byte :=
  if Z.of_nat (length data) <=? offset then [] else drop (Z.to_nat offset) data.

(** [Reader.readValue]: one 32-byte word; BUFFER_OVERRUN when fewer
    than 32 bytes are left. *)
Definition readValue (data : list byte) : option Z :=
  if (length data <? 32)%nat then None else Some (toBigInt (take 32 data)).

(** [Reader.readIndex]: a word that must fit a JavaScript safe integer. *)
Definition readIndex (data : list byte) : option Z :=
  w ← readValue data;
  if w <=? MAX_SAFE_INTEGER then Some w else None.

(** The ABI types the package decodes. *)
Inductive AbiType := uint8 | uint256 | string_.

(** [NumberCoder.decode]: the word masked to the width of the type. *)
Definition decodeNumber (bits : Z) (data : string) : option Z :=
  bytes ← getBytes data;
  w ← readValue bytes;
  Some (Z.land w (2 ^ bits - 1)).

(** [StringCoder.decode] behind the head offset of a dynamic value:
    offset word, length word, then the text padded to whole words. *)
Definition decodeString (data : string) : option string :=
  bytes ← getBytes data;
  offset ← readIndex bytes;
  let sub := sliceFrom offset bytes in
  len ← readIndex sub;
  let aligned := (len + 31) / 32 * 32 in
  if Z.of_nat (length sub) <? 32 + aligned then None
  else toUtf8String (take (Z.to_nat len) (drop 32 sub)).

(** [coder.decode([type], data)] followed by reading element 0 of the
    result.  An [undefined] type is rejected. *)
Definition decode (type : option AbiType) (data : string) : option JsValue :=
  t ← type;
  match t with
  | uint8 => VBigInt <$> decodeNumber 8 data
  | uint256 => VBigInt <$> decodeNumber 256 data
  | string_ => VString <$> decodeString data
  end.

(** *** [decodeBytes32String] *)

(** Dropping the zero bytes at the end of a sequence. *)
Fixpoint trimNulls (bs : list byte) : list byte :=
  match bs with
  | [] => []
  | b :: rest =>
      match trimNulls rest with
      | [] => if Byte.eqb b x00 then [] else [b]
      | rest' => b :: rest'
      end
  end.

(** The data must be exactly 32 bytes and end in a zero byte; the text is
    what precedes the trailing zero bytes. *)
Definition decodeBytes32String (data : string) : option string :=
  bytes ← getBytes data;
  if negb (length bytes =? 32)%nat then None
  else if negb (from_option (Byte.eqb x00) false (bytes !! 31%nat)) then None
  else toUtf8String (trimNulls (take 31 bytes)).

(** *** [formatUnits] *)

Definition names : list string :=
  ["wei"; "kwei"; "mwei"; "gwei"; "szabo"; "finney"; "ether"].

Fixpoint indexOf (x : string) (l : list string) : option nat :=
  match l with
  | [] => None
  | y :: l' => if String.eqb x y then Some O else S <$> indexOf x l'
  end.

(** [getNumber]: an integral number or bigint within the safe range. *)
Definition getNumber (value : JsValue) : option Z :=
  match value with
  | VNumber (NumInt z) | VBigInt z =>
      if (- MAX_SAFE_INTEGER <=? z) && (z <=? MAX_SAFE_INTEGER) then Some z else None
  | _ => None
  end.

Definition isDigit (c : ascii) : bool :=
  let n := N_of_ascii c in (48 <=? n)%N && (n <=? 57)%N.

Definition digitZ (c : ascii) : Z := Z.of_N (N_of_ascii c) - 48.

Fixpoint digitsValue (acc : Z) (cs : list ascii) : option Z :=
  match cs with
  | [] => Some acc
  | c :: cs' =>
      if isDigit c then digitsValue (10 * acc + digitZ c) cs' else None
  end.

(** [getBigInt] on a string, for the decimal literals that reach it
    here (the output of [BigInt.prototype.toString]); other radixes and
    surrounding white space are not modelled. *)
Definition getBigInt (value : string) : option Z :=
  match list_ascii_of_string value with
  | [] => None
  | c :: cs =>
      if Ascii.eqb c "-" && negb (from_option (Ascii.eqb "-") false (head cs))
      then Z.opp <$> digitsValue 0 cs
      else digitsValue 0 (c :: cs)
  end.

(** One trimming loop of [FixedNumber]'s string conversion:
    [while (str[0] === "0" && str[1] !== ".") str = str.substring(1)].
    The loop for the fractional part is the same loop run from the other
    end of the string. *)
Fixpoint trimZeros (cs : list ascii) : list ascii :=
  match cs with
  | [] => []
  | c :: rest =>
      if Ascii.eqb c "0" && negb (from_option (Ascii.eqb ".") false (head rest))
      then trimZeros rest
      else cs
  end.

(** The string of a fixed-point value: pad with blocks of four zeros
    until a whole digit exists, insert the point, trim both ends leaving
    at least one digit on either side of the point. *)
Definition fixedToString (val decimals : Z) : string :=
  let negative := if val <? 0 then "-" else "" in
  let str := list_ascii_of_string (pretty (Z.abs val)) in
  if decimals =? 0 then negative +:+ string_of_list_ascii str
  else
    let len := Z.of_nat (length str) in
    let rounds := if len <=? decimals then (decimals - len) / 4 + 1 else 0 in
    let str := replicate (Z.to_nat (4 * rounds)) "0"%char ++ str in
    let index := Z.to_nat (Z.of_nat (length str) - decimals) in
    let str := take index str ++ "."%char :: drop index str in
    let str := trimZeros str in
    let str := rev (trimZeros (rev str)) in
    negative +:+ string_of_list_ascii str.

(** [formatUnits(value, unit)]: the unit is a unit name, a number of
    decimals, or absent (18); more than 80 decimals, or a value outside
    the signed 512-bit range, is rejected. *)
Definition formatUnits (value : string) (unit : option JsValue) : option string :=
  decimals ← match unit with
             | None => Some 18
             | Some (VString u) => (λ i, 3 * Z.of_nat i) <$> indexOf u names
             | Some v => getNumber v
             end;
  if 80 <? decimals then None
  else
    val ← getBigInt value;
    if (- 2 ^ 511 <=? val) && (val <? 2 ^ 511)
    then Some (fixedToString val decimals) else None.

End Ethers.

Import Ethers.

(** ** The data model of [index.ts] *)

Abbreviation Success := bool.
Abbreviation ReturnData := string.
Abbreviation ContractAddress := string.
Abbreviation CallResult := (Success * ReturnData)%type.
Abbreviation AssociatedCallResult := (ContractAddress * Success * ReturnData)%type.

Record Call := { target : string; callData : string }.
Record CallContext := { contractAddress : string; methodName : string }.
Record CallsContext := { calls : list Call; context : list CallContext }.

(** ** [chunk] *)

Section Chunk.
Context {T : Type}.

(** The body of the [forEach] callback, on the pair of mutable locals
    [(chunked, chunk)]. *)
Definition chunk_step (size : Z) (st : list (list T) * list T) (item : T)
  : list (list T) * list T :=
  let '(chunked, chunk) := st in
  if Z.of_nat (length chunk) =? size
  then (chunked ++ [chunk], [item])
  else (chunked, chunk ++ [item]).

(** [size] ranges over the integers; after the loop the current group is
    pushed when it is not empty. *)
Definition chunk (array : list T) (size : Z) : list (list T) :=
  let '(chunked, chunk) := fold_left (chunk_step size) array ([], []) in
  if Nat.eqb (length chunk) 0 then chunked else chunked ++ [chunk].
End Chunk.

(** ** [getNonZeroResults] *)

(** The filter predicate, on the return data of a tuple. *)
Definition nonZeroData (data : ReturnData) : bool :=
  let hasBalance := negb (String.eqb data ZeroHash) in
  let expectedFormat := (String.length data =? String.length ZeroHash)%nat in
  hasBalance && expectedFormat.

(** [contractAddresses[index]] is [undefined] past the end of the array:
    the first component is an [option]. *)
Definition getNonZeroResults (results : list CallResult) (contractAddresses : list string)
  : list (option ContractAddress * Success * ReturnData) :=
  List.filter (λ r, nonZeroData r.2)
    (imap (λ index result, (contractAddresses !! index, result.1, result.2)) results).

(** ** [resultDataByContract] *)

(** [reduce] with a spread of the accumulator and one computed key: an
    insertion that overwrites. *)
Definition resultDataByContract (associatedCallResults : list AssociatedCallResult)
  : gmap string ReturnData :=
  foldl (λ balances result,
      let '(contractAddress, _, data) := result in
      <[contractAddress := data]> balances)
    ∅ associatedCallResults.

(** ** [buildCallsContext] *)

Definition methodNames : list string := ["symbol"; "decimals"; "name"].

Section BuildCalls.
(** [erc20Interface.encodeFunctionData] for a method without arguments:
    the call data is opaque to the package. *)
Variable encodeFunctionData : string → string.

Definition buildCallsContext (associatedResults : list AssociatedCallResult)
  : CallsContext :=
  let contractAddresses := map (λ result, result.1.1) associatedResults in
  {| calls := flat_map (λ contractAddress,
        map (λ methodName, {| target := contractAddress;
                              callData := encodeFunctionData methodName |})
          methodNames)
        contractAddresses;
     context := flat_map (λ contractAddress,
        map (λ methodName, {| contractAddress := contractAddress;
                              methodName := methodName |})
          methodNames)
        contractAddresses |}.
End BuildCalls.

(** ** [decodeMetaResults] *)

(** Modelled from the spec: the ERC-20 ABI JSON from which [fragmentTypes]
    is computed is not under src/; section 4.5 gives the table as
    symbol -> string, decimals -> uint8, name -> string.  Any other name
    has no entry ([undefined]). *)
Definition fragmentTypes (methodName : string) : option AbiType :=
  if String.eqb methodName "symbol" then Some string_
  else if String.eqb methodName "decimals" then Some uint8
  else if String.eqb methodName "name" then Some string_
  else None.

(** The line written by [console.info] in the catch block. *)
Definition decodeNotice (methodName contractAddress : string) : string :=
  "Problem decoding " +:+ methodName +:+ " for " +:+ contractAddress
    +:+ ". The contract is likely not ERC-20 compliant.".

(** The try/catch of the reducer: ABI decoding by the table, and on
    failure a notice and the bytes32-string decoding, which may itself
    throw. *)
Definition decodeMethodValue (methodName contractAddress : string) (data : ReturnData)
  : list string * option JsValue :=
  match decode (fragmentTypes methodName) data with
  | Some methodValue => ([], Some methodValue)
  | None => ([decodeNotice methodName contractAddress],
             VString <$> decodeBytes32String data)
  end.

Section DecodeMeta.
(** [Number(s)] on a string (ECMAScript StringToNumber) is left abstract. *)
Variable StringToNumber : string → JsNumber.

(** [Number(value)].  A bigint is converted exactly as long as it is below
    2^53; the only bigints that reach this call are decoded uint8 values. *)

Definition Number (value : JsValue) : JsValue :=
  match value with
  | VString s => VNumber (StringToNumber s)
  | VBigInt z => VNumber (NumInt z)
  | VNumber n => VNumber n
  end.

(** One call of the reducer.  The accumulator carries the console and
    the object built so far, or [None] once an exception has escaped.
    [context[index]] past the end is [undefined] and destructuring it
    throws. *)
Definition decodeMetaStep (context : list CallContext)
    (acc : list string * option (gmap string (gmap string JsValue)))
    (entry : nat * CallResult)
  : list string * option (gmap string (gmap string JsValue)) :=
  let '(console, state) := acc in
  match state with
  | None => acc
  | Some meta =>
      let '(index, (_, data)) := entry in
      match context !! index with
      | None => (console, None)
      | Some ctx =>
          let '(notices, decoded) :=
            decodeMethodValue (methodName ctx) (contractAddress ctx) data in
          match decoded with
          | None => (console ++ notices, None)
          | Some methodValue =>
              let methodValue :=
                if String.eqb (methodName ctx) "decimals"
                then Number methodValue else methodValue in
              (console ++ notices,
               Some (<[contractAddress ctx :=
                        <[methodName ctx := methodValue]>
                          (default ∅ (meta !! contractAddress ctx))]> meta))
          end
      end
  end.

Definition decodeMetaResults (metaResults : list CallResult) (context : list CallContext)
  : list string * option (gmap string (gmap string JsValue)) :=
  foldl (decodeMetaStep context) ([], Some ∅) (imap pair metaResults).
End DecodeMeta.

(** ** [balancesByContract] *)

(** One call of the reducer, for one key of the metadata object.  An
    absent metadata entry, absent raw data and every failure of the two
    library calls throw.  [decoded.toString()] is the decimal string of the
    decoded integer, which [formatUnits] parses again. *)
Definition balancesStep
    (metaDataByContract : gmap string (gmap string JsValue))
    (balanceDataByContract : gmap string ReturnData)
    (formatBalance : bool)
    (acc : option (gmap string (gmap string JsValue)))
    (contractAddress : string)
  : option (gmap string (gmap string JsValue)) :=
  balances ← acc;
  info ← metaDataByContract !! contractAddress;
  let decimals := info !! "decimals" in
  balanceHexString ← balanceDataByContract !! contractAddress;
  decoded ← decodeNumber 256 balanceHexString;
  balance ← (if formatBalance then formatUnits (pretty decoded) decimals
             else Some (pretty decoded));
  Some (<[contractAddress := <["balanceOf" := VString balance]> info]> balances).

(** [Object.keys(metaDataByContract).reduce(..., {})]. *)
Definition balancesByContract
    (metaDataByContract : gmap string (gmap string JsValue))
    (balanceDataByContract : gmap string ReturnData)
    (formatBalance : bool)
  : option (gmap string (gmap string JsValue)) :=
  foldl (balancesStep metaDataByContract balanceDataByContract formatBalance)
    (Some ∅) (map_to_list metaDataByContract).*1.

(** ** [getAddress] *)

Inductive Thrown :=
| JsError (message : string)
| ProviderFailure (reason : string).

Inductive ProviderCall :=
| GetNetwork
| ResolveName (name : string).

(** What the provider answers: the chain id of [getNetwork()], and for
    [resolveName(name)] an address or [null]; either request can fail. *)
Record Provider := {
  getNetwork : string + Z;
  resolveName : string → string + option string
}.

Definition unsupportedChain (chainId : Z) : string :=
  "Chain " +:+ pretty chainId
    +:+ " does not support ENS. See https://github.com/ethers-io/ethers.js/issues/310".

Section GetAddress.
(** ethers' [isAddress] is left abstract. *)
Variable isAddress : string → bool.

(** The result comes with the provider requests made, in order. *)
Definition getAddress (addressOrName : string) (provider : Provider)
  : list ProviderCall * (Thrown + string) :=
  if isAddress addressOrName then ([], inr addressOrName)
  else
    match getNetwork provider with
    | inl reason => ([GetNetwork], inl (ProviderFailure reason))
    | inr chainId =>
        if chainId =? 1 then
          match resolveName provider addressOrName with
          | inl reason =>
              ([GetNetwork; ResolveName addressOrName], inl (ProviderFailure reason))
          | inr (Some address) =>
              if String.eqb address ""
              then ([GetNetwork; ResolveName addressOrName],
                    inl (JsError "Invalid ENS domain."))
              else ([GetNetwork; ResolveName addressOrName], inr address)
          | inr None =>
              ([GetNetwork; ResolveName addressOrName],
               inl (JsError "Invalid ENS domain."))
          end
        else ([GetNetwork], inl (JsError (unsupportedChain chainId)))
    end.
End GetAddress.

(** ** Notions used in the statements *)

(** What the balance filter keeps, stated on the bytes of the return data. *)
Definition keptBalance (bs : list byte) : Prop :=
  bs ≠ replicate 32 x00 ∧ length bs = 32%nat.

#[global] Instance keptBalance_dec bs : Decision (keptBalance bs) :=
  and_dec (not_dec (decide (bs = replicate 32 x00))) (decide (length bs = 32%nat)).

Definition addressOf (result : AssociatedCallResult) : ContractAddress := result.1.1.

Definition callsTargeting (a : string) (cs : list Call) : list Call :=
  List.filter (λ c, String.eqb (target c) a) cs.

Definition occurrences (a : string) (rs : list AssociatedCallResult) : nat :=
  length (List.filter (λ r, String.eqb (addressOf r) a) rs).

(** The reading of the builder's contract under which every distinct
    address of the input is asked exactly three times. *)
Definition threeCallsPerDistinctAddress
    (encodeFunctionData : string → string) (rs : list AssociatedCallResult) : Prop :=
  ∀ a, a ∈ addressOf <$> rs →
    length (callsTargeting a (calls (buildCallsContext encodeFunctionData rs))) = 3%nat.

(** The selectors of the three ERC-20 getters, an instance of the encoder. *)
Definition erc20Selectors (methodName : string) : string :=
  if String.eqb methodName "symbol" then "0x95d89b41"
  else if String.eqb methodName "decimals" then "0x313ce567"
  else if String.eqb methodName "name" then "0x06fdde03"
  else "0x".

(** Text of at most 31 non-null ASCII bytes, and its 32-byte null-padded
    form: what a contract returns for a [bytes32] symbol or name. *)
Definition asciiText (text : list byte) : Prop :=
  Forall (λ b, 0 < byteZ b < 128) text ∧ (length text ≤ 31)%nat.

Definition padded32 (text : list byte) : list byte :=
  text ++ replicate (32 - length text) x00.

Definition paddedAsciiData (data : ReturnData) : Prop :=
  ∃ text, asciiText text ∧ data = hexlify (padded32 text).

(** The reading of the decoder under which a "decimals" entry that falls
    back still gets a number recorded. *)
Definition decimalsFallbackRecorded (StringToNumber : string → JsNumber)
    (results : list CallResult) (context : list CallContext) : Prop :=
  ∀ (i : nat) s data a,
    results !! i = Some (s, data) →
    context !! i = Some {| contractAddress := a; methodName := "decimals" |} →
    decode (fragmentTypes "decimals") data = None →
    ∃ meta n, (decodeMetaResults StringToNumber results context).2 = Some meta
              ∧ meta !! a ≫= (.!! "decimals") = Some (VNumber n).

(** Decimal digit strings and their values. *)
Definition decStep (acc : Z) (c : ascii) : Z := 10 * acc + digitZ c.

Definition decVal (cs : list ascii) : Z := foldl decStep 0 cs.

Definition allDigits (cs : list ascii) : Prop := Forall (λ c, isDigit c = true) cs.

Fixpoint splitPoint (cs : list ascii) : list ascii * option (list ascii) :=
  match cs with
  | [] => ([], None)
  | c :: rest =>
      if Ascii.eqb c "." then ([], Some rest)
      else let '(w, f) := splitPoint rest in (c :: w, f)
  end.

(** The number written by an unsigned decimal string: [Some (m, k)] stands
    for m / 10^k, with [k] the number of digits after the point. *)
Definition readFixed (s : string) : option (Z * nat) :=
  match splitPoint (list_ascii_of_string s) with
  | (w, None) =>
      if bool_decide (w = []) then None else m ← digitsValue 0 w; Some (m, 0%nat)
  | (w, Some f) =>
      if bool_decide (w = [] ∨ f = []) then None
      else m ← digitsValue 0 (w ++ f); Some (m, length f)
  end.

(** The shortest way of writing a fixed-point number: digits, a point,
    digits, with no zero in front of the whole part unless it is the
    single digit 0, and no zero at the end of the fraction unless it is
    the single digit 0. *)
Definition canonicalFixed (s : string) : Prop :=
  ∃ w f, list_ascii_of_string s = w ++ "."%char :: f
    ∧ allDigits w ∧ allDigits f
    ∧ w ≠ [] ∧ f ≠ []
    ∧ (head w = Some "0"%char → w = ["0"%char])
    ∧ (last f = Some "0"%char → f = ["0"%char]).

(** The record built for one contract address by the reducer of
    [balancesByContract]. *)
Definition tokenInfo
    (metaDataByContract : gmap string (gmap string JsValue))
    (balanceDataByContract : gmap string ReturnData)
    (formatBalance : bool) (contractAddress : string)
  : option (gmap string JsValue) :=
  info ← metaDataByContract !! contractAddress;
  balanceHexString ← balanceDataByContract !! contractAddress;
  decoded ← decodeNumber 256 balanceHexString;
  balance ← (if formatBalance
             then formatUnits (pretty decoded) (info !! "decimals")
             else Some (pretty decoded));
  Some (<["balanceOf" := VString balance]> info).

(** Sample data: a six-decimal token and a raw balance of one million. *)
Definition usdcInfo : gmap string JsValue :=
  {[ "symbol" := VString "USDC";
     "decimals" := VNumber (NumInt 6);
     "name" := VString "USD Coin" ]}.

Definition usdcMeta : gmap string (gmap string JsValue) := {[ "0xA" := usdcInfo ]}.

Definition oneMillionRaw : gmap string ReturnData :=
  {[ "0xA" := "0x00000000000000000000000000000000000000000000000000000000000f4240" ]}.

(** ** [aggregate], [fetchRawBalances], [getTokenBalances] *)

(** The connection handed around as [provider]: the provider of
    [getAddress], and what the read-only call of the multicall contract's
    [tryBlockAndAggregate(requireSuccess, calls)] at a given contract
    address answers: block number, block hash and the per-call results, or
    a rejection ([None]).  The answer is a function of the request; which
    of several concurrent requests is answered first is not modelled. *)
Record Connection := {
  node : Provider;
  tryBlockAndAggregate :
    ContractAddress → bool → list Call → option (Z * string * list CallResult)
}.

(** [aggregate]: element 2 of the response. *)
Definition aggregate (calls : list Call) (provider : Connection)
    (multicallCustomContractAddress : ContractAddress) : option (list CallResult) :=
  response ← tryBlockAndAggregate provider multicallCustomContractAddress false calls;
  Some response.2.

(** An entry of the filter's output whose address is [undefined] cannot be
    used as a call target. *)
Definition definedResult (result : option ContractAddress * Success * ReturnData)
  : option AssociatedCallResult :=
  contractAddress ← result.1.1; Some (contractAddress, result.1.2, result.2).

(** The argument object of [getTokenBalances]; the three optional fields
    are [None] when left out. *)
Record BalanceRequest := {
  addressOrName : string;
  contractAddresses : list string;
  provider : Connection;
  chunkSize : option Z;
  formatBalance : option bool;
  multicallCustomContractAddress : option ContractAddress
}.

Section Orchestrator.
Variable isAddress : string → bool.
(** [erc20Interface.encodeFunctionData(name, args)] on arguments that it
    accepts.  An address argument is checked with the library's own
    [getAddress], the function [isAddress] is the test of: the encoding
    throws exactly when [isAddress] is false of the argument. *)
Variable encodeFunctionData : string → list string → string.
Variable StringToNumber : string → JsNumber.

(** The calls of one group.  The callback of [contractAddresses.map]
    encodes the same [balanceOf] call once per contract: with an invalid
    holder address the first evaluation throws, and for an empty group
    nothing is encoded. *)
Definition balanceCalls (address : string) (contractAddresses : list string)
  : option (list Call) :=
  mapM (λ contractAddress,
          if isAddress address
          then Some {| target := contractAddress;
                       callData := encodeFunctionData "balanceOf" [address] |}
          else None)
    contractAddresses.

Definition fetchRawBalances (address : string) (contractAddresses : list string)
    (multicallCustomContractAddress : ContractAddress) (provider : Connection)
  : option (list (option ContractAddress * Success * ReturnData)) :=
  calls ← balanceCalls address contractAddresses;
  results ← aggregate calls provider multicallCustomContractAddress;
  let nonZeroResults := getNonZeroResults results contractAddresses in
  Some nonZeroResults.

(** [getTokenBalances].  [Promise.all] over the groups succeeds with the
    results in group order when every request succeeds and is rejected
    otherwise.  A result without address makes the metadata request fail
    before it is sent (its target is not an address).  What
    [decodeMetaResults] writes on the console is not part of the result. *)
Definition getTokenBalances (request : BalanceRequest)
  : option (gmap string (gmap string JsValue)) :=
  let chunkSize := default 500 (chunkSize request) in
  let formatBalance := default true (formatBalance request) in
  let multicallCustomContractAddress :=
    default "0xcA11bde05977b3631167028862bE2a173976CA11"
      (multicallCustomContractAddress request) in
  let provider := provider request in
  match (getAddress isAddress (addressOrName request) (node provider)).2 with
  | inl _ => None
  | inr address =>
      let chunked := chunk (contractAddresses request) chunkSize in
      results ← mapM (λ chunk, fetchRawBalances address chunk
                                 multicallCustomContractAddress provider) chunked;
      let rawBalanceResults := foldl (λ acc res, acc ++ res) [] results in
      associated ← mapM definedResult rawBalanceResults;
      let rawBalances := resultDataByContract associated in
      let cc := buildCallsContext (λ methodName, encodeFunctionData methodName [])
                  associated in
      metaResults ← aggregate (calls cc) provider multicallCustomContractAddress;
      decodedMetaResults ← (decodeMetaResults StringToNumber metaResults (context cc)).2;
      balancesByContract decodedMetaResults rawBalances formatBalance
  end.
End Orchestrator.

(** ** More notions used in the statements *)

(** A connection whose multicall contract answers every batch, one result
    per call, each call on its own. *)
Definition answersEachCall (provider : Connection) (multicall : ContractAddress)
    (answer : Call → CallResult) : Prop :=
  ∀ calls, ∃ blockNumber blockHash,
    tryBlockAndAggregate provider multicall false calls
    = Some (blockNumber, blockHash, answer <$> calls).

(** The method names asked of one address among the first [n] context
    entries. *)
Definition methodsAsked (context : list CallContext) (n : nat) (a : string)
  : list string :=
  methodName <$> filter (λ c, contractAddress c = a) (take n context).

(** One 32-byte word holding a number below 256, and the ABI encoding of a
    dynamic string of fewer than 256 bytes: offset word, length word, the
    bytes, zero padding to a whole number of words. *)
Definition smallWord (n : nat) : list byte :=
  replicate 31 x00 ++ [default x00 (Byte.of_nat n)].

Definition abiString (text : list byte) : list byte :=
  smallWord 32 ++ smallWord (length text) ++ text
    ++ replicate (Z.to_nat ((- Z.of_nat (length text)) `mod` 32)) x00.

(** The tokens the filter keeps when [answer] is the result of the
    balanceOf call of each contract. *)
Definition heldTokens (answer : string → CallResult) (contractAddresses : list string)
  : list AssociatedCallResult :=
  (λ a, (a, (answer a).1, (answer a).2))
    <$> List.filter (λ a, nonZeroData (answer a).2) contractAddresses.

(** A request with another group size. *)
Definition withChunkSize (request : BalanceRequest) (size : option Z) : BalanceRequest :=
  {| addressOrName := addressOrName request;
     contractAddresses := contractAddresses request;
     provider := provider request;
     chunkSize := size;
     formatBalance := formatBalance request;
     multicallCustomContractAddress := multicallCustomContractAddress request |}.

(** The multicall address a request uses. *)
Definition multicallOf (request : BalanceRequest) : ContractAddress :=
  default "0xcA11bde05977b3631167028862bE2a173976CA11"
    (multicallCustomContractAddress request).

(** What the balanceOf call of one contract is answered with. *)
Definition balanceAnswer (encodeFunctionData : string → list string → string)
    (answer : Call → CallResult) (address contractAddress : string) : CallResult :=
  answer {| target := contractAddress;
            callData := encodeFunctionData "balanceOf" [address] |}.

(** Sample chain.  The holder and three token contracts, in the lower-case
    form of an address; an address test that accepts this form ("0x" and
    forty lower-case hex digits, which the library accepts without a
    checksum); an encoder by selector; and a multicall contract behind which
    the second token reports a balance of 5 for every holder and every
    other contract a balance of zero, while every contract answers
    symbol() with "DAI", decimals() with 18 and name() with "Dai". *)
Definition holderAddress : string := "0xd8da6bf26964af9d7eed9e03e53415d37aa96045".
Definition usdcAddress : string := "0xa0b86991c6218b36c1d19d4a2e9eb0ce3606eb48".
Definition daiAddress : string := "0x6b175474e89094c44da98b954eedeac495271d0f".
Definition usdtAddress : string := "0xdac17f958d2ee523a2206206994597c13d831ec7".

Definition sampleIsAddress (value : string) : bool :=
  match getBytes value with
  | Some bs => (length bs =? 20)%nat && String.eqb value (hexlify bs)
  | None => false
  end.

Definition sampleEncode (methodName : string) (args : list string) : string :=
  if String.eqb methodName "balanceOf" then "0x70a08231" else erc20Selectors methodName.

Definition sampleAnswer (call : Call) : CallResult :=
  if String.eqb (callData call) "0x70a08231"
  then (true, if String.eqb (target call) daiAddress
              then hexlify (smallWord 5) else ZeroHash)
  else if String.eqb (callData call) "0x95d89b41"
  then (true, hexlify (abiString [x44; x41; x49]))
  else if String.eqb (callData call) "0x313ce567"
  then (true, hexlify (smallWord 18))
  else (true, hexlify (abiString [x44; x61; x69])).

Definition sampleConnection : Connection :=
  {| node := {| getNetwork := inr 1; resolveName := λ _, inr None |};
     tryBlockAndAggregate := λ _ _ calls, Some (0, ZeroHash, sampleAnswer <$> calls) |}.

Definition sampleRequest (contractAddresses : list string) (size : option Z)
  : BalanceRequest :=
  {| addressOrName := holderAddress;
     contractAddresses := contractAddresses;
     provider := sampleConnection;
     chunkSize := size;
     formatBalance := None;
     multicallCustomContractAddress := None |}.

(** A contract that answers symbol(), decimals() and name() by the ABI:
    two dynamic strings of non-null ASCII text and one word. *)
Definition compliantToken (encodeFunctionData : string → list string → string)
    (answer : Call → CallResult) (contractAddress : string)
    (symbol : list byte) (decimals : nat) (name : list byte) : Prop :=
  (answer {| target := contractAddress; callData := encodeFunctionData "symbol" [] |}).2
    = hexlify (abiString symbol)
  ∧ (answer {| target := contractAddress; callData := encodeFunctionData "decimals" [] |}).2
    = hexlify (smallWord decimals)
  ∧ (answer {| target := contractAddress; callData := encodeFunctionData "name" [] |}).2
    = hexlify (abiString name)
  ∧ Forall (λ b, 0 < byteZ b < 128) symbol ∧ (length symbol < 256)%nat
  ∧ Forall (λ b, 0 < byteZ b < 128) name ∧ (length name < 256)%nat.

(** The record of one token in the object returned. *)
Definition tokenRecord (symbol : list byte) (decimals : nat) (name : list byte)
    (balance : string) : gmap string JsValue :=
  <["balanceOf" := VString balance]>
    (<["name" := VString (string_of_list_byte name)]>
       (<["decimals" := VNumber (NumInt (Z.of_nat decimals))]>
          {[ "symbol" := VString (string_of_list_byte symbol) ]})).

(** Sample metadata: the three answers of one compliant token at 0xD, the
    context of its three calls and the object decoded from them. *)
Definition daiResults : list CallResult :=
  [(true, hexlify (abiString [x44; x41; x49]));
   (true, hexlify (smallWord 18));
   (true, hexlify (abiString [x44; x61; x69]))].

Definition daiContext : list CallContext :=
  [{| contractAddress := "0xD"; methodName := "symbol" |};
   {| contractAddress := "0xD"; methodName := "decimals" |};
   {| contractAddress := "0xD"; methodName := "name" |}].

Definition daiMeta : gmap string (gmap string JsValue) :=
  {[ "0xD" := {[ "symbol" := VString "DAI";
                 "decimals" := VNumber (NumInt 18);
                 "name" := VString "Dai" ]} ]}.

(** * Properties *)

(** ** The library model on known values *)

Example hexlify_bytes : hexlify [xde; xad; x01] = "0xdead01".
Proof. reflexivity. Qed.

Example getBytes_mixed_case : getBytes "0xdeAD" = Some [xde; xad].
Proof. reflexivity. Qed.

Example getBytes_odd_length : getBytes "0xdea" = None.
Proof. reflexivity. Qed.

Example decode_abi_string :
  decode (Some string_)
    "0x000000000000000000000000000000000000000000000000000000000000002000000000000000000000000000000000000000000000000000000000000000034441490000000000000000000000000000000000000000000000000000000000"
  = Some (VString "DAI").
Proof. vm_compute. reflexivity. Qed.

Example decode_uint8_word :
  decode (Some uint8)
    "0x0000000000000000000000000000000000000000000000000000000000000012"
  = Some (VBigInt 18).
Proof. vm_compute. reflexivity. Qed.

Example decode_uint8_masks :
  decode (Some uint8)
    "0x00000000000000000000000000000000000000000000000000000000000f4240"
  = Some (VBigInt 64).
Proof. vm_compute. reflexivity. Qed.

Example decode_uint8_short : decode (Some uint8) "0x" = None.
Proof. reflexivity. Qed.

Example decodeBytes32String_mkr :
  decodeBytes32String
    "0x4d4b520000000000000000000000000000000000000000000000000000000000"
  = Some "MKR".
Proof. reflexivity. Qed.

Example decodeBytes32String_short : decodeBytes32String "0x" = None.
Proof. reflexivity. Qed.

Example toUtf8String_overlong : toUtf8String [xc0; x80] = None.
Proof. reflexivity. Qed.

Example formatUnits_whole : formatUnits "1000000" (Some (VNumber (NumInt 6))) = Some "1.0".
Proof. reflexivity. Qed.

Example formatUnits_fraction : formatUnits "1234500" (Some (VNumber (NumInt 6))) = Some "1.2345".
Proof. reflexivity. Qed.

Example formatUnits_small : formatUnits "1" (Some (VNumber (NumInt 6))) = Some "0.000001".
Proof. reflexivity. Qed.

Example formatUnits_no_decimals : formatUnits "1000000" (Some (VNumber (NumInt 0))) = Some "1000000".
Proof. reflexivity. Qed.

Example formatUnits_default_unit : formatUnits "1500000000000000000" None = Some "1.5".
Proof. reflexivity. Qed.

Example formatUnits_nan : formatUnits "1" (Some (VNumber NumNaN)) = None.
Proof. reflexivity. Qed.

Example chunk_exact : chunk [1; 2; 3; 4] 2 = [[1; 2]; [3; 4]].
Proof. reflexivity. Qed.


(** ** The chunker *)

Section ChunkProps.
Context {T : Type}.

Lemma chunk_loop_concat size (array : list T) chunked cur :
  let st := fold_left (chunk_step size) array (chunked, cur) in
  concat st.1 ++ st.2 = concat chunked ++ cur ++ array.
Proof.
  revert chunked cur. induction array as [|x xs IH]; intros chunked cur; simpl.
  - by rewrite app_nil_r.
  - destruct (Z.of_nat (length cur) =? size); rewrite IH.
    + rewrite concat_app. simpl. by rewrite app_nil_r, <- !app_assoc.
    + by rewrite <- !app_assoc.
Qed.

Lemma chunk_loop_full size (array : list T) chunked cur :
  0 < size →
  Forall (λ g, Z.of_nat (length g) = size) chunked →
  Z.of_nat (length cur) ≤ size →
  let st := fold_left (chunk_step size) array (chunked, cur) in
  Forall (λ g, Z.of_nat (length g) = size) st.1 ∧ Z.of_nat (length st.2) ≤ size.
Proof.
  intros Hpos. revert chunked cur.
  induction array as [|x xs IH]; intros chunked cur Hall Hcur; simpl; [done|].
  destruct (Z.eqb_spec (Z.of_nat (length cur)) size) as [E|E]; apply IH.
  - apply Forall_app; split; [done|]. by constructor.
  - simpl. lia.
  - done.
  - rewrite length_app. simpl. lia.
Qed.

Lemma chunk_unfold (array : list T) size :
  chunk array size =
    let st := fold_left (chunk_step size) array ([], []) in
    if Nat.eqb (length st.2) 0 then st.1 else st.1 ++ [st.2].
Proof. unfold chunk. by destruct (fold_left _ _ _). Qed.

Lemma chunk_concat (array : list T) size : concat (chunk array size) = array.
Proof.
  rewrite chunk_unfold. simpl.
  pose proof (chunk_loop_concat size array [] []) as H. simpl in H.
  destruct (fold_left _ _ _) as [cd ck]; simpl in *.
  destruct ck; simpl in *.
  - by rewrite app_nil_r in H.
  - rewrite concat_app. simpl. by rewrite app_nil_r.
Qed.
Lemma chunk_loop_never size (array : list T) chunked cur :
  (∀ k : nat, (length cur ≤ k)%nat → Z.of_nat k ≠ size) →
  fold_left (chunk_step size) array (chunked, cur) = (chunked, cur ++ array).
Proof.
  revert cur. induction array as [|x xs IH]; intros cur H; simpl.
  - by rewrite app_nil_r.
  - destruct (Z.eqb_spec (Z.of_nat (length cur)) size) as [E|E].
    + by destruct (H (length cur)).
    + rewrite IH, <- app_assoc; [done|].
      intros k Hk. apply H. rewrite length_app in Hk. simpl in Hk. lia.
Qed.

(** C2.  For a positive size [n], the groups of [chunk S n] concatenate
    back to [S], every group before the last has exactly [n] items, no
    group is empty or longer than [n], and the empty sequence gives no
    group at all. *)
Theorem chunk_positive_size (S : list T) (n : Z) :
  0 < n →
  concat (chunk S n) = S
  ∧ (∀ (i : nat) g, chunk S n !! i = Some g →
       (i + 1 < length (chunk S n))%nat → Z.of_nat (length g) = n)
  ∧ (∀ g, g ∈ chunk S n → 0 < Z.of_nat (length g) ≤ n)
  ∧ chunk (@nil T) n = [].
Proof.
  intros Hn. split; [apply chunk_concat|]. split; [|split; [|done]].
  - intros i g Hi Hlt. rewrite chunk_unfold in Hi, Hlt. simpl in *.
    destruct (chunk_loop_full n S [] [] Hn) as [Hall _]; [done|simpl; lia|].
    destruct (fold_left _ _ _) as [cd ck]; simpl in *.
    destruct (Nat.eqb (length ck) 0).
    + eapply (Forall_lookup_1 _ _ _ _ Hall Hi).
    + rewrite length_app in Hlt. simpl in Hlt.
      rewrite lookup_app_l in Hi by lia.
      eapply (Forall_lookup_1 _ _ _ _ Hall Hi).
  - intros g Hg. rewrite chunk_unfold in Hg. simpl in *.
    destruct (chunk_loop_full n S [] [] Hn) as [Hall Hle]; [done|simpl; lia|].
    destruct (fold_left _ _ _) as [cd ck]; simpl in *.
    assert (Hcd : ∀ g', g' ∈ cd → 0 < Z.of_nat (length g') ≤ n).
    { intros g' Hg'. rewrite Forall_forall in Hall. specialize (Hall _ Hg'). lia. }
    destruct (Nat.eqb_spec (length ck) 0) as [E|E]; [by apply Hcd|].
    apply elem_of_app in Hg as [Hg|Hg]; [by apply Hcd|].
    apply list_elem_of_singleton in Hg as ->. lia.
Qed.

(** C8.  [chunk] is defined for every integer size and its groups always
    concatenate back to the input.  With a negative size a non-empty input
    comes back as one group; with size 0 it comes back as an empty group
    followed by one group of all items. *)
Theorem chunk_any_size (S : list T) (size : Z) :
  concat (chunk S size) = S
  ∧ (size < 0 → S ≠ [] → chunk S size = [S])
  ∧ (size = 0 → S ≠ [] → chunk S size = [[]; S]).
Proof.
  split; [apply chunk_concat|]. split.
  - intros Hneg HS. unfold chunk.
    rewrite chunk_loop_never by (intros; lia). simpl.
    by destruct S.
  - intros -> HS. destruct S as [|x xs]; [done|].
    unfold chunk. simpl.
    rewrite chunk_loop_never by (simpl; intros; lia). done.
Qed.
End ChunkProps.

(** ** Hex strings *)

Lemma hexPairs_hexByte b rest :
  hexPairs (hexByte b ++ rest) = (b ::.) <$> hexPairs rest.
Proof. destruct b; simpl; by destruct (hexPairs rest). Qed.

Lemma hexPairs_flat_map bs : hexPairs (flat_map hexByte bs) = Some bs.
Proof.
  induction bs as [|b bs IH]; [done|].
  change (flat_map hexByte (b :: bs)) with (hexByte b ++ flat_map hexByte bs).
  by rewrite hexPairs_hexByte, IH.
Qed.

Lemma getBytes_hexlify bs : getBytes (hexlify bs) = Some bs.
Proof.
  unfold getBytes, hexlify. simpl.
  rewrite list_ascii_of_string_of_list_ascii. apply hexPairs_flat_map.
Qed.

Lemma hexlify_inj bs1 bs2 : hexlify bs1 = hexlify bs2 → bs1 = bs2.
Proof.
  intros H. apply (f_equal getBytes) in H.
  rewrite !getBytes_hexlify in H. congruence.
Qed.

Lemma length_string_of_list_ascii cs :
  String.length (string_of_list_ascii cs) = length cs.
Proof. induction cs; simpl; congruence. Qed.

Lemma length_hexlify bs : String.length (hexlify bs) = (2 + 2 * length bs)%nat.
Proof.
  unfold hexlify. simpl. rewrite length_string_of_list_ascii.
  induction bs as [|b bs IH]; simpl; lia.
Qed.

Lemma hexlify_zero32 : hexlify (replicate 32 x00) = ZeroHash.
Proof. reflexivity. Qed.

(** ** The balance filter *)

Lemma nonZeroData_hexlify bs :
  nonZeroData (hexlify bs) = true ↔ bs ≠ replicate 32 x00 ∧ length bs = 32%nat.
Proof.
  unfold nonZeroData. rewrite andb_true_iff, negb_true_iff, Nat.eqb_eq, length_hexlify.
  rewrite String.eqb_neq. change (String.length ZeroHash) with 66%nat.
  split; intros [H1 H2]; (split; [|lia]); intros E; apply H1.
  - subst bs. apply hexlify_zero32.
  - apply hexlify_inj. by rewrite hexlify_zero32.
Qed.

Lemma getNonZeroResults_zip (results : list CallResult) (contractAddresses : list string) :
  length results = length contractAddresses →
  getNonZeroResults results contractAddresses
  = List.filter (λ r, nonZeroData r.2)
      (zip_with (λ a r, (Some a, r.1, r.2)) contractAddresses results).
Proof.
  intros Hlen. unfold getNonZeroResults. f_equal.
  revert contractAddresses Hlen.
  induction results as [|r rs IH]; intros [|a addrs] Hlen; try done.
  rewrite imap_cons. simpl. f_equal. rewrite <- IH by (simpl in Hlen; lia).
  by apply imap_ext.
Qed.

(** C1.  On results whose return data are the hex strings of byte
    sequences, with as many contract addresses as results,
    [getNonZeroResults] keeps exactly the entries whose data is 32 bytes
    long and not all zero, in input order, each with the address at its
    index. *)
Theorem getNonZeroResults_keeps_nonzero_words
    (results : list (Success * list byte)) (contractAddresses : list string) :
  length results = length contractAddresses →
  getNonZeroResults (prod_map id hexlify <$> results) contractAddresses
  = (λ e, (Some e.1, e.2.1, hexlify e.2.2))
      <$> filter (λ e, keptBalance e.2.2) (zip contractAddresses results).
Proof.
  intros Hlen. rewrite getNonZeroResults_zip by by rewrite length_fmap.
  revert contractAddresses Hlen.
  induction results as [|[s bs] rs IH]; intros [|a addrs] Hlen; try done.
  simpl in Hlen. specialize (IH addrs ltac:(lia)).
  rewrite fmap_cons. cbn [zip_with List.filter prod_map snd fst id].
  rewrite IH, filter_cons. cbn [snd].
  destruct (decide (keptBalance bs)) as [Hk|Hk].
  - apply nonZeroData_hexlify in Hk. by rewrite Hk.
  - destruct (nonZeroData (hexlify bs)) eqn:E; [|done].
    by apply nonZeroData_hexlify in E.
Qed.

(** ** The raw-balance dictionary *)

Lemma resultDataByContract_snoc rs a s d :
  resultDataByContract (rs ++ [(a, s, d)]) = <[a := d]> (resultDataByContract rs).
Proof. unfold resultDataByContract. by rewrite foldl_app. Qed.

Lemma resultDataByContract_dom rs :
  dom (resultDataByContract rs) = list_to_set (addressOf <$> rs).
Proof.
  induction rs as [|[[a s] d] rs IH] using rev_ind; [set_solver|].
  rewrite resultDataByContract_snoc, dom_insert_L, IH, fmap_app, list_to_set_app_L.
  simpl. rewrite (right_id_L ∅ (∪)). apply (comm_L (∪)).
Qed.

Lemma resultDataByContract_lookup_app rs1 rs2 a :
  a ∉ addressOf <$> rs2 →
  resultDataByContract (rs1 ++ rs2) !! a = resultDataByContract rs1 !! a.
Proof.
  induction rs2 as [|[[a' s] d] rs2 IH] using rev_ind; intros Hnot.
  - by rewrite app_nil_r.
  - rewrite fmap_app in Hnot. apply not_elem_of_app in Hnot as [H1 H2].
    rewrite app_assoc, resultDataByContract_snoc.
    rewrite lookup_insert_ne; [by apply IH|].
    intros ->. apply H2. simpl. apply list_elem_of_singleton. done.
Qed.

(** C9.  The dictionary has exactly the distinct contract addresses of the
    input as its keys, one key per distinct address, and each key holds
    the return data of the last entry with that address. *)
Theorem resultDataByContract_last_wins (rs : list AssociatedCallResult) :
  dom (resultDataByContract rs) = list_to_set (addressOf <$> rs)
  ∧ size (resultDataByContract rs) = length (remove_dups (addressOf <$> rs))
  ∧ ∀ (i : nat) a s d,
      rs !! i = Some (a, s, d) →
      (∀ (j : nat) r, rs !! j = Some r → (i < j)%nat → addressOf r ≠ a) →
      resultDataByContract rs !! a = Some d.
Proof.
  split; [apply resultDataByContract_dom|]. split.
  - rewrite <- size_dom, resultDataByContract_dom.
    rewrite <- (size_list_to_set (C:=gset string) (remove_dups _))
      by apply NoDup_remove_dups.
    f_equal. apply set_eq. intros x.
    by rewrite !elem_of_list_to_set, elem_of_remove_dups.
  - intros i a s d Hi Hlast.
    rewrite <- (take_drop_middle rs i (a, s, d) Hi).
    rewrite cons_middle, (assoc_L (++)), resultDataByContract_lookup_app.
    + by rewrite resultDataByContract_snoc, lookup_insert_eq.
    + intros Hin. apply list_elem_of_fmap in Hin as (r & Ha & Hr).
      apply list_elem_of_lookup in Hr as [k Hk].
      rewrite lookup_drop in Hk.
      by apply (Hlast _ _ Hk); [lia|].
Qed.

(** ** The metadata call builder *)

Section BuildCallsProps.
Variable encode : string → string.

Lemma buildCallsContext_cons r rs :
  buildCallsContext encode (r :: rs)
  = {| calls := [ {| target := addressOf r; callData := encode "symbol" |};
                  {| target := addressOf r; callData := encode "decimals" |};
                  {| target := addressOf r; callData := encode "name" |} ]
                ++ calls (buildCallsContext encode rs);
       context := [ {| contractAddress := addressOf r; methodName := "symbol" |};
                    {| contractAddress := addressOf r; methodName := "decimals" |};
                    {| contractAddress := addressOf r; methodName := "name" |} ]
                  ++ context (buildCallsContext encode rs) |}.
Proof. reflexivity. Qed.

Lemma buildCallsContext_lengths rs :
  length (calls (buildCallsContext encode rs)) = (3 * length rs)%nat
  ∧ length (context (buildCallsContext encode rs)) = (3 * length rs)%nat.
Proof.
  induction rs as [|r rs [IH1 IH2]]; [done|].
  rewrite buildCallsContext_cons. cbn [calls context].
  rewrite !length_app, IH1, IH2. simpl. lia.
Qed.

Lemma buildCallsContext_lookup rs (k j : nat) r m :
  rs !! k = Some r → methodNames !! j = Some m →
  calls (buildCallsContext encode rs) !! (3 * k + j)%nat
    = Some {| target := addressOf r; callData := encode m |}
  ∧ context (buildCallsContext encode rs) !! (3 * k + j)%nat
    = Some {| contractAddress := addressOf r; methodName := m |}.
Proof.
  revert k. induction rs as [|r0 rs IH]; intros k Hk Hj; [done|].
  rewrite buildCallsContext_cons. cbn [calls context].
  destruct k as [|k].
  - simpl in Hk. injection Hk as ->.
    unfold methodNames in Hj.
    destruct j as [|[|[|j]]]; cbn in Hj; try discriminate Hj;
      injection Hj as <-; split; reflexivity.
  - simpl in Hk. destruct (IH k Hk Hj) as [Hc Hx].
    replace (3 * S k + j)%nat with (3 + (3 * k + j))%nat by lia.
    split; (rewrite lookup_app_r; [|simpl; lia]).
    + rewrite <- Hc. f_equal. simpl. lia.
    + rewrite <- Hx. f_equal. simpl. lia.
Qed.

Lemma callsTargeting_count rs a :
  length (callsTargeting a (calls (buildCallsContext encode rs)))
  = (3 * occurrences a rs)%nat.
Proof.
  unfold occurrences. induction rs as [|r rs IH]; [done|].
  rewrite buildCallsContext_cons. cbn [calls].
  unfold callsTargeting in *. rewrite List.filter_app, length_app, IH.
  cbn [List.filter target]. destruct (String.eqb (addressOf r) a); simpl; lia.
Qed.

Lemma occurrences_absent rs a :
  a ∉ addressOf <$> rs → occurrences a rs = 0%nat.
Proof.
  unfold occurrences. induction rs as [|r rs IH]; intros Hx; [done|].
  rewrite fmap_cons in Hx. apply not_elem_of_cons in Hx as [Hx1 Hx2].
  cbn [List.filter]. destruct (String.eqb_spec (addressOf r) a); [congruence|by apply IH].
Qed.

Lemma occurrences_NoDup rs a :
  NoDup (addressOf <$> rs) → a ∈ addressOf <$> rs → occurrences a rs = 1%nat.
Proof.
  induction rs as [|r rs IH]; intros Hnd Hin.
  - by apply elem_of_nil in Hin.
  - rewrite fmap_cons in Hnd, Hin. apply NoDup_cons in Hnd as [Hr Hnd].
    unfold occurrences in *. cbn [List.filter].
    destruct (String.eqb_spec (addressOf r) a) as [E|Hne].
    + rewrite E in Hr. apply occurrences_absent in Hr.
      unfold occurrences in Hr. simpl. by rewrite Hr.
    + apply elem_of_cons in Hin as [->|Hin]; [done|]. by apply IH.
Qed.

(** C3, as amended.  The builder emits three calls and three parallel
    context entries for every entry of its input, in input order: for
    entry [k] the calls at positions 3k, 3k+1 and 3k+2 encode symbol,
    decimals and name, in this order, and the context entries at the same
    positions name the same address and method; call and context at the
    same position always agree on the address and the method.  An address
    that occurs [k] times is therefore asked [3 * k] times: three times
    exactly when the addresses are pairwise distinct.  Two entries give
    six calls and six context entries. *)
Theorem buildCallsContext_three_per_entry (rs : list AssociatedCallResult) :
  let cc := buildCallsContext encode rs in
  length (calls cc) = (3 * length rs)%nat
  ∧ length (context cc) = (3 * length rs)%nat
  ∧ (∀ (k : nat) r, rs !! k = Some r →
       calls cc !! (3 * k)%nat
         = Some {| target := addressOf r; callData := encode "symbol" |}
       ∧ calls cc !! (3 * k + 1)%nat
         = Some {| target := addressOf r; callData := encode "decimals" |}
       ∧ calls cc !! (3 * k + 2)%nat
         = Some {| target := addressOf r; callData := encode "name" |}
       ∧ context cc !! (3 * k)%nat
         = Some {| contractAddress := addressOf r; methodName := "symbol" |}
       ∧ context cc !! (3 * k + 1)%nat
         = Some {| contractAddress := addressOf r; methodName := "decimals" |}
       ∧ context cc !! (3 * k + 2)%nat
         = Some {| contractAddress := addressOf r; methodName := "name" |})
  ∧ calls cc
    = (λ c, {| target := contractAddress c; callData := encode (methodName c) |})
        <$> context cc
  ∧ (∀ a, length (callsTargeting a (calls cc)) = (3 * occurrences a rs)%nat)
  ∧ (NoDup (addressOf <$> rs) → threeCallsPerDistinctAddress encode rs)
  ∧ (length rs = 2%nat → length (calls cc) = 6%nat ∧ length (context cc) = 6%nat).
Proof.
  intros cc. destruct (buildCallsContext_lengths rs) as [Hc Hx].
  split; [done|]. split; [done|]. split.
  { intros k r Hk.
    destruct (buildCallsContext_lookup rs k 0 r "symbol" Hk eq_refl) as [Hc0 Hx0].
    destruct (buildCallsContext_lookup rs k 1 r "decimals" Hk eq_refl) as [Hc1 Hx1].
    destruct (buildCallsContext_lookup rs k 2 r "name" Hk eq_refl) as [Hc2 Hx2].
    rewrite Nat.add_0_r in Hc0, Hx0. by repeat split. }
  split.
  { subst cc. induction rs as [|r rs' IH]; [done|].
    rewrite buildCallsContext_cons. cbn [calls context].
    rewrite fmap_app. f_equal.
    destruct (buildCallsContext_lengths rs') as [Hc' Hx']. by apply IH. }
  split; [apply callsTargeting_count|]. split.
  - intros Hnd a Ha. by rewrite callsTargeting_count, occurrences_NoDup.
  - intros Htwo. subst cc. rewrite Hc, Hx. lia.
Qed.
End BuildCallsProps.

(** C3, as stated, fails when an address is repeated: two entries for the
    same contract produce six calls to it, not three. *)
Lemma buildCallsContext_repeated_address :
  ¬ threeCallsPerDistinctAddress erc20Selectors
      [("0xA", true, "0x01"); ("0xA", true, "0x01")].
Proof.
  intros H. specialize (H "0xA"). discriminate H.
  apply list_elem_of_here.
Qed.

(** ** The address resolver *)

Lemma list_ascii_of_string_app (a t : string) :
  list_ascii_of_string (a +:+ t) = list_ascii_of_string a ++ list_ascii_of_string t.
Proof. induction a as [|c a IH]; [done|]. simpl. by f_equal. Qed.

Lemma string_app_inv_tail (a b t : string) : a +:+ t = b +:+ t → a = b.
Proof.
  intros H. apply (f_equal list_ascii_of_string) in H.
  rewrite !list_ascii_of_string_app in H. apply app_inv_tail in H.
  apply (f_equal string_of_list_ascii) in H.
  by rewrite !string_of_list_ascii_of_string in H.
Qed.

Lemma unsupportedChain_inj (chainId chainId' : Z) :
  unsupportedChain chainId = unsupportedChain chainId' → chainId = chainId'.
Proof.
  unfold unsupportedChain. intros H. apply (inj pretty).
  apply (string_app_inv_tail _ _
           " does not support ENS. See https://github.com/ethers-io/ethers.js/issues/310").
  apply (inj (String.app "Chain ")). exact H.
Qed.

Section GetAddressProps.
Variable isAddress : string → bool.

(** C5.  A well-formed address is returned unchanged without any provider
    request.  Otherwise the network is queried: a chain id other than 1
    raises the error whose message is "Chain ", the decimal digits of the
    chain id and " does not support ENS. ..." (so the message tells the
    chain ids apart); on chain 1 the name is resolved, a [null] (or
    empty) answer raises "Invalid ENS domain." and an address is
    returned.  Every error raised by [getAddress] itself is one of these
    two. *)
Theorem getAddress_outcomes (input : string) (provider : Provider) :
  (isAddress input = true →
     getAddress isAddress input provider = ([], inr input))
  ∧ (isAddress input = false →
     ∀ chainId, getNetwork provider = inr chainId → chainId ≠ 1 →
     getAddress isAddress input provider
     = ([GetNetwork],
        inl (JsError
               ("Chain " +:+ pretty chainId +:+
                " does not support ENS. See https://github.com/ethers-io/ethers.js/issues/310"))))
  ∧ (isAddress input = false → getNetwork provider = inr 1 →
     (resolveName provider input = inr None
      ∨ resolveName provider input = inr (Some "")) →
     getAddress isAddress input provider
     = ([GetNetwork; ResolveName input], inl (JsError "Invalid ENS domain.")))
  ∧ (isAddress input = false → getNetwork provider = inr 1 →
     ∀ address, resolveName provider input = inr (Some address) → address ≠ "" →
     getAddress isAddress input provider
     = ([GetNetwork; ResolveName input], inr address))
  ∧ (∀ requests message,
     getAddress isAddress input provider = (requests, inl (JsError message)) →
     isAddress input = false
     ∧ ((∃ chainId, getNetwork provider = inr chainId ∧ chainId ≠ 1
           ∧ message
             = "Chain " +:+ pretty chainId +:+
               " does not support ENS. See https://github.com/ethers-io/ethers.js/issues/310")
        ∨ (getNetwork provider = inr 1 ∧ message = "Invalid ENS domain."
           ∧ (resolveName provider input = inr None
              ∨ resolveName provider input = inr (Some "")))))
  ∧ (∀ chainId chainId' : Z,
     unsupportedChain chainId = unsupportedChain chainId' → chainId = chainId').
Proof.
  unfold getAddress. split; [|split; [|split; [|split; [|split]]]].
  - by intros ->.
  - intros -> chainId -> Hne. by rewrite (proj2 (Z.eqb_neq _ _) Hne).
  - intros -> -> [-> | ->]; done.
  - intros -> -> address -> Hne. simpl.
    by rewrite (proj2 (String.eqb_neq _ _) Hne).
  - intros requests message H.
    destruct (isAddress input); [done|]. split; [done|].
    destruct (getNetwork provider) as [reason|chainId]; [done|].
    destruct (Z.eqb_spec chainId 1) as [E|Hne].
    + subst chainId. right. destruct (resolveName provider input) as [reason|[address|]]; [done| |].
      * destruct (String.eqb_spec address "") as [E|E]; [|done].
        subst address. injection H as _ <-. auto.
      * injection H as _ <-. auto.
    + left. injection H as _ <-. eauto.
  - apply unsupportedChain_inj.
Qed.
End GetAddressProps.

(** ** Words and null-padded text *)

Lemma byteZ_range b : 0 ≤ byteZ b < 256.
Proof. unfold byteZ. pose proof (Byte.to_N_bounded b). lia. Qed.

Lemma toBigInt_fold bs acc :
  fold_left (λ acc b, acc * 256 + byteZ b) bs acc
  = acc * 256 ^ Z.of_nat (length bs) + toBigInt bs.
Proof.
  unfold toBigInt. revert acc. induction bs as [|b bs IH]; intros acc.
  - simpl. lia.
  - cbn [fold_left length]. rewrite IH, (IH (0 * 256 + byteZ b)).
    rewrite Nat2Z.inj_succ, Z.pow_succ_r by lia. lia.
Qed.

Lemma toBigInt_cons b bs :
  toBigInt (b :: bs) = byteZ b * 256 ^ Z.of_nat (length bs) + toBigInt bs.
Proof. unfold toBigInt at 1. cbn [fold_left]. rewrite toBigInt_fold. lia. Qed.

Lemma toBigInt_range bs : 0 ≤ toBigInt bs < 256 ^ Z.of_nat (length bs).
Proof.
  induction bs as [|b bs IH]; [done|].
  rewrite toBigInt_cons. cbn [length]. rewrite Nat2Z.inj_succ, Z.pow_succ_r by lia.
  pose proof (byteZ_range b). nia.
Qed.

Lemma length_padded32 text : (length text ≤ 32)%nat → length (padded32 text) = 32%nat.
Proof. intros H. unfold padded32. rewrite length_app, length_replicate. lia. Qed.

Lemma trimNulls_zeros k : trimNulls (replicate k x00) = [].
Proof. induction k as [|k IH]; [done|]. simpl. by rewrite IH. Qed.

Lemma trimNulls_text text k :
  Forall (λ b, 0 < byteZ b < 128) text → trimNulls (text ++ replicate k x00) = text.
Proof.
  induction 1 as [|b text Hb _ IH]; simpl.
  - apply trimNulls_zeros.
  - rewrite IH. destruct text; [|done].
    destruct (Byte.eqb b x00) eqn:E; [|done].
    apply Byte.byte_dec_bl in E. subst b. unfold byteZ in Hb. simpl in Hb. lia.
Qed.

Lemma utf8Valid_ascii text :
  Forall (λ b, 0 < byteZ b < 128) text → utf8Valid text = true.
Proof.
  induction 1 as [|b text Hb _ IH]; [done|].
  cbn [utf8Valid]. by rewrite (proj2 (Z.ltb_lt _ _) (proj2 Hb)).
Qed.

Lemma decodeBytes32String_padded text :
  asciiText text →
  decodeBytes32String (hexlify (padded32 text)) = Some (string_of_list_byte text).
Proof.
  intros [Hascii Hlen]. unfold decodeBytes32String.
  rewrite getBytes_hexlify. cbn [mbind option_bind].
  rewrite length_padded32 by lia. cbn [Nat.eqb negb].
  unfold padded32. rewrite lookup_app_r by lia.
  rewrite lookup_replicate_2 by lia. cbn [from_option negb].
  rewrite take_app.
  rewrite (take_ge text) by lia. rewrite take_replicate.
  rewrite trimNulls_text by done.
  unfold toUtf8String. by rewrite utf8Valid_ascii.
Qed.

Lemma readValue_word bs : length bs = 32%nat → readValue bs = Some (toBigInt bs).
Proof.
  intros H. unfold readValue. rewrite H. cbn. by rewrite take_ge by lia.
Qed.

Lemma decodeString_padded_fails text :
  asciiText text → text ≠ [] → decodeString (hexlify (padded32 text)) = None.
Proof.
  intros [Hascii Hlen] Hne. unfold decodeString.
  rewrite getBytes_hexlify. cbn [mbind option_bind]. unfold readIndex.
  destruct text as [|b text]; [done|].
  apply Forall_cons in Hascii as [Hb _].
  assert (∃ rest, padded32 (b :: text) = b :: rest ∧ length rest = 31%nat)
    as (rest & -> & Hrest).
  { eexists. split; [reflexivity|].
    rewrite length_app, length_replicate. simpl in *. lia. }
  rewrite readValue_word by (simpl; lia). cbn [mbind option_bind].
  rewrite toBigInt_cons, Hrest.
  pose proof (toBigInt_range rest) as [H0 _].
  destruct (Z.leb_spec (byteZ b * 256 ^ Z.of_nat 31 + toBigInt rest) MAX_SAFE_INTEGER)
    as [Hle|]; [|done].
  exfalso. unfold MAX_SAFE_INTEGER in Hle.
  assert (256 ^ Z.of_nat 31 > 2 ^ 53) by (vm_compute; done). nia.
Qed.

(** The try/catch never lets an exception out on null-padded text. *)
Lemma decodeMethodValue_padded methodName addr text :
  asciiText text →
  let data := hexlify (padded32 text) in
  (∃ v, decode (fragmentTypes methodName) data = Some v
        ∧ decodeMethodValue methodName addr data = ([], Some v))
  ∨ (decode (fragmentTypes methodName) data = None
     ∧ decodeMethodValue methodName addr data
       = ([decodeNotice methodName addr], Some (VString (string_of_list_byte text)))).
Proof.
  intros Htext data. unfold decodeMethodValue.
  destruct (decode (fragmentTypes methodName) data) as [v|] eqn:E.
  - left. by exists v.
  - right. split; [done|]. subst data. by rewrite decodeBytes32String_padded.
Qed.

Lemma decodeMethodValue_padded_string methodName addr text :
  asciiText text → text ≠ [] → fragmentTypes methodName = Some string_ →
  decodeMethodValue methodName addr (hexlify (padded32 text))
  = ([decodeNotice methodName addr], Some (VString (string_of_list_byte text))).
Proof.
  intros Htext Hne Hty.
  destruct (decodeMethodValue_padded methodName addr text Htext) as [(v & Hv & _)|[_ H]]; [|done].
  rewrite Hty in Hv. cbn [decode mbind option_bind] in Hv.
  by rewrite decodeString_padded_fails in Hv.
Qed.

(** ** The metadata decoder *)

Section DecodeMetaProps.
Variable StringToNumber : string → JsNumber.

Lemma decodeMetaResults_app rs r rest context :
  decodeMetaResults StringToNumber (rs ++ r :: rest) context
  = foldl (decodeMetaStep StringToNumber context)
      (decodeMetaStep StringToNumber context
         (decodeMetaResults StringToNumber rs context) (length rs, r))
      (imap (λ n, pair (length rs + S n)%nat) rest).
Proof.
  unfold decodeMetaResults. rewrite imap_app, foldl_app, imap_cons.
  cbn [foldl]. rewrite Nat.add_0_r. done.
Qed.

Lemma decodeMetaResults_snoc rs r context :
  decodeMetaResults StringToNumber (rs ++ [r]) context
  = decodeMetaStep StringToNumber context
      (decodeMetaResults StringToNumber rs context) (length rs, r).
Proof. by rewrite decodeMetaResults_app. Qed.

Lemma decodeMetaStep_thrown context console entries :
  (foldl (decodeMetaStep StringToNumber context) (console, None) entries).2 = None.
Proof. induction entries as [|e es IH]; [done|]. apply IH. Qed.

Lemma decode_uint8_fails_bytes32 data :
  decode (Some uint8) data = None → decodeBytes32String data = None.
Proof.
  unfold decode, decodeNumber, decodeBytes32String, readValue.
  cbn [mbind option_bind]. destruct (getBytes data) as [bytes|]; [|done].
  cbn [mbind option_bind fmap option_fmap option_map].
  destruct (Nat.ltb_spec (length bytes) 32) as [Hlt|]; [|done].
  intros _. destruct (Nat.eqb_spec (length bytes) 32); [lia|done].
Qed.

Lemma decodeMethodValue_decimals_fallback a data :
  decode (fragmentTypes "decimals") data = None →
  decodeMethodValue "decimals" a data = ([decodeNotice "decimals" a], None).
Proof.
  intros H. unfold decodeMethodValue. rewrite H.
  by rewrite (decode_uint8_fails_bytes32 data H).
Qed.

Lemma decodeMethodValue_decimals_value a data notices v :
  decodeMethodValue "decimals" a data = (notices, Some v) →
  notices = [] ∧ ∃ z, 0 ≤ z < 256 ∧ v = VBigInt z
                      ∧ Number StringToNumber v = VNumber (NumInt z).
Proof.
  unfold decodeMethodValue.
  destruct (decode (fragmentTypes "decimals") data) as [v'|] eqn:E.
  - intros [= <- <-]. split; [done|].
    change (fragmentTypes "decimals") with (Some uint8) in E.
    cbn [decode mbind option_bind] in E.
    destruct (decodeNumber 8 data) as [z|] eqn:Ez; [|done].
    injection E as <-. exists z. split; [|done].
    unfold decodeNumber in Ez.
    destruct (getBytes data) as [bytes|]; [|done]. cbn [mbind option_bind] in Ez.
    destruct (readValue bytes) as [w|]; [|done]. injection Ez as <-.
    change (2 ^ 8 - 1) with (Z.ones 8). rewrite Z.land_ones by lia.
    apply Z.mod_pos_bound. lia.
  - rewrite (decode_uint8_fails_bytes32 data E). done.
Qed.

(** C10, as amended.  For a "decimals" entry the fallback is entered only
    when the return data holds fewer than 32 bytes (or is no byte string),
    and then the bytes32-string decoding throws as well: the notice is
    written, [decodeMetaResults] fails and nothing is recorded.  A decimals
    value that is recorded is the number of an ABI-decoded uint8, an
    integer from 0 to 255, never NaN. *)
Theorem decodeMetaResults_decimals_fallback_throws
    (results : list CallResult) (context : list CallContext)
    (i : nat) s data a :
  results !! i = Some (s, data) →
  context !! i = Some {| contractAddress := a; methodName := "decimals" |} →
  decode (fragmentTypes "decimals") data = None →
  decodeMethodValue "decimals" a data = ([decodeNotice "decimals" a], None)
  ∧ (decodeMetaResults StringToNumber results context).2 = None
  ∧ (∀ data' notices v,
       decodeMethodValue "decimals" a data' = (notices, Some v) →
       notices = [] ∧ ∃ z, 0 ≤ z < 256 ∧ v = VBigInt z
                           ∧ Number StringToNumber v = VNumber (NumInt z)).
Proof.
  intros Hr Hc Hfail. split; [by apply decodeMethodValue_decimals_fallback|].
  split; [|apply decodeMethodValue_decimals_value].
  rewrite <- (take_drop_middle results i (s, data) Hr).
  rewrite decodeMetaResults_app.
  assert (Hlen : length (take i results) = i).
  { apply length_take_le. apply lookup_lt_Some in Hr. lia. }
  rewrite Hlen.
  destruct (decodeMetaResults StringToNumber (take i results) context)
    as [console [meta|]]; [|apply decodeMetaStep_thrown].
  unfold decodeMetaStep at 2. rewrite Hc. cbn [methodName contractAddress].
  rewrite (decodeMethodValue_decimals_fallback a data Hfail).
  apply decodeMetaStep_thrown.
Qed.
End DecodeMetaProps.

(** C10, as stated, fails: an empty return for decimals() enters the
    fallback, and the decoder throws instead of recording a number. *)
Lemma decodeMetaResults_empty_decimals :
  ¬ decimalsFallbackRecorded (λ _, NumNaN) [(false, "0x")]
      [{| contractAddress := "0xA"; methodName := "decimals" |}].
Proof.
  intros H. destruct (H 0%nat false "0x" "0xA") as (meta & n & Hm & _); try done.
Qed.

Section DecodeFallbackProps.
Variable StringToNumber : string → JsNumber.

Lemma decodeMetaStep_Some context console st (i : nat) s data console' meta' :
  decodeMetaStep StringToNumber context (console, st) (i, (s, data))
    = (console', Some meta') →
  ∃ meta c notices v,
    st = Some meta ∧ context !! i = Some c
    ∧ decodeMethodValue (methodName c) (contractAddress c) data = (notices, Some v)
    ∧ console' = console ++ notices
    ∧ meta' = <[contractAddress c :=
                 <[methodName c :=
                     if String.eqb (methodName c) "decimals"
                     then Number StringToNumber v else v]>
                   (default ∅ (meta !! contractAddress c))]> meta.
Proof.
  unfold decodeMetaStep. destruct st as [meta|]; [|done].
  destruct (context !! i) as [c|]; [|done].
  destruct (decodeMethodValue (methodName c) (contractAddress c) data)
    as [notices [v|]] eqn:Hval; [|done].
  intros [= <- <-]. by exists meta, c, notices, v.
Qed.

Lemma decodeMetaResults_snoc_Some rs s data context console' meta' :
  decodeMetaResults StringToNumber (rs ++ [(s, data)]) context = (console', Some meta') →
  ∃ console meta c notices v,
    decodeMetaResults StringToNumber rs context = (console, Some meta)
    ∧ context !! length rs = Some c
    ∧ decodeMethodValue (methodName c) (contractAddress c) data = (notices, Some v)
    ∧ console' = console ++ notices
    ∧ meta' = <[contractAddress c :=
                 <[methodName c :=
                     if String.eqb (methodName c) "decimals"
                     then Number StringToNumber v else v]>
                   (default ∅ (meta !! contractAddress c))]> meta.
Proof.
  rewrite decodeMetaResults_snoc.
  destruct (decodeMetaResults StringToNumber rs context) as [console st].
  intros H. apply decodeMetaStep_Some in H as (meta & c & notices & v & -> & ?).
  by exists console, meta, c, notices, v.
Qed.

Lemma lookup_field_insert (meta : gmap string (gmap string JsValue)) a m v a' m' :
  <[a := <[m := v]> (default ∅ (meta !! a))]> meta !! a' ≫= (.!! m')
  = if decide (a = a' ∧ m = m') then Some v else meta !! a' ≫= (.!! m').
Proof.
  destruct (decide (a = a')) as [<-|Ha].
  - rewrite lookup_insert_eq. cbn [mbind option_bind].
    destruct (decide (m = m')) as [<-|Hm].
    + rewrite lookup_insert_eq. by rewrite decide_True.
    + rewrite lookup_insert_ne by done. rewrite decide_False by (intros [_ ?]; done).
      by destruct (meta !! a).
  - rewrite lookup_insert_ne by done. by rewrite decide_False by (intros [? _]; done).
Qed.

(** After a successful run the field of an address and method holds the
    value of the last entry that names them. *)
Lemma decodeMetaResults_field (results : list CallResult) (context : list CallContext)
    console meta (i : nat) r c :
  decodeMetaResults StringToNumber results context = (console, Some meta) →
  results !! i = Some r → context !! i = Some c →
  (∀ (j : nat) c', (i < j < length results)%nat → context !! j = Some c' → c' ≠ c) →
  ∃ notices v,
    decodeMethodValue (methodName c) (contractAddress c) r.2 = (notices, Some v)
    ∧ meta !! contractAddress c ≫= (.!! methodName c)
      = Some (if String.eqb (methodName c) "decimals"
              then Number StringToNumber v else v).
Proof.
  revert console meta. induction results as [|[s' data'] rs IH] using rev_ind;
    intros console meta Hrun Hr Hc Hlast; [done|].
  apply decodeMetaResults_snoc_Some in Hrun
    as (console0 & meta0 & c' & notices & v & Hrun0 & Hc' & Hval & _ & ->).
  rewrite lookup_field_insert.
  destruct (decide (i < length rs)%nat) as [Hi|Hi].
  - rewrite lookup_app_l in Hr by done.
    assert (c' ≠ c) as Hne.
    { apply (Hlast (length rs)); [|done]. rewrite length_app. simpl. lia. }
    rewrite decide_False.
    2:{ intros [Ha Hm]. apply Hne. destruct c', c. simpl in *. congruence. }
    eapply IH; [done..|]. intros j c'' Hj. apply Hlast.
    rewrite length_app. simpl. lia.
  - assert (i = length rs) as ->.
    { apply lookup_lt_Some in Hr. rewrite length_app in Hr. simpl in Hr. lia. }
    rewrite list_lookup_middle in Hr by done. injection Hr as <-.
    rewrite Hc in Hc'. injection Hc' as <-.
    exists notices, v. split; [done|]. by rewrite decide_True.
Qed.

Lemma decodeMetaStep_decoded context console meta (i : nat) (r : CallResult) ctx :
  context !! i = Some ctx →
  paddedAsciiData r.2 ∨ is_Some (decode (fragmentTypes (methodName ctx)) r.2) →
  ∃ notices v,
    decodeMethodValue (methodName ctx) (contractAddress ctx) r.2 = (notices, Some v)
    ∧ decodeMetaStep StringToNumber context (console, Some meta) (i, r)
      = (console ++ notices,
         Some (<[contractAddress ctx :=
                  <[methodName ctx :=
                      if String.eqb (methodName ctx) "decimals"
                      then Number StringToNumber v else v]>
                    (default ∅ (meta !! contractAddress ctx))]> meta)).
Proof.
  intros Hctx Hdata. destruct r as [s data]. cbn [snd] in *.
  unfold decodeMetaStep. rewrite Hctx.
  destruct Hdata as [(text & Htext & ->)|[v Hv]].
  - destruct (decodeMethodValue_padded (methodName ctx) (contractAddress ctx) text Htext)
      as [(v & _ & ->)|[_ ->]]; eauto.
  - unfold decodeMethodValue. rewrite Hv. eauto.
Qed.

(** C6.  On return data that is 32 bytes of null-padded ASCII the
    try/catch of the decoder yields a value whatever the method: the
    ABI-decoded one, or, when ABI decoding by the table fails, the padded
    text together with one notice; for symbol and name and a non-empty
    text the fallback is the path taken.  A whole batch in which every
    entry is such data or decodes by the ABI (the decimals word of the
    same token, say) is decoded to the end: no exception, one key per
    context address, a notice on the console for every entry that fell
    back, the padded text stored as the symbol or name it was returned
    for, and the ABI-decoded value stored for every other entry (a field
    holds the value of the last entry that names it). *)
Theorem decodeMetaResults_padded_ascii
    (results : list CallResult) (context : list CallContext) :
  (length results ≤ length context)%nat →
  (∀ (i : nat) r ctx, results !! i = Some r → context !! i = Some ctx →
     paddedAsciiData r.2 ∨ is_Some (decode (fragmentTypes (methodName ctx)) r.2)) →
  (∀ m a text, asciiText text →
     let data := hexlify (padded32 text) in
     (∃ v, decode (fragmentTypes m) data = Some v
           ∧ decodeMethodValue m a data = ([], Some v))
     ∨ (decode (fragmentTypes m) data = None
        ∧ decodeMethodValue m a data
          = ([decodeNotice m a], Some (VString (string_of_list_byte text)))))
  ∧ (∀ m a text, asciiText text → text ≠ [] → m = "symbol" ∨ m = "name" →
     decodeMethodValue m a (hexlify (padded32 text))
     = ([decodeNotice m a], Some (VString (string_of_list_byte text))))
  ∧ ∃ console meta,
      decodeMetaResults StringToNumber results context = (console, Some meta)
      ∧ dom meta = list_to_set (contractAddress <$> take (length results) context)
      ∧ (∀ (i : nat) r ctx,
           results !! i = Some r → context !! i = Some ctx →
           decode (fragmentTypes (methodName ctx)) r.2 = None →
           decodeNotice (methodName ctx) (contractAddress ctx) ∈ console)
      ∧ (∀ (i : nat) r ctx text,
           results !! i = Some r → context !! i = Some ctx →
           methodName ctx = "symbol" ∨ methodName ctx = "name" →
           asciiText text → text ≠ [] → r.2 = hexlify (padded32 text) →
           (∀ (j : nat) ctx', (i < j < length results)%nat →
              context !! j = Some ctx' → ctx' ≠ ctx) →
           meta !! contractAddress ctx ≫= (.!! methodName ctx)
           = Some (VString (string_of_list_byte text)))
      ∧ (∀ (i : nat) r ctx v,
           results !! i = Some r → context !! i = Some ctx →
           decode (fragmentTypes (methodName ctx)) r.2 = Some v →
           (∀ (j : nat) ctx', (i < j < length results)%nat →
              context !! j = Some ctx' → ctx' ≠ ctx) →
           meta !! contractAddress ctx ≫= (.!! methodName ctx)
           = Some (if String.eqb (methodName ctx) "decimals"
                   then Number StringToNumber v else v)).
Proof.
  intros Hlen Hall.
  split; [apply decodeMethodValue_padded|].
  assert (∀ m a text, asciiText text → text ≠ [] → m = "symbol" ∨ m = "name" →
            decodeMethodValue m a (hexlify (padded32 text))
            = ([decodeNotice m a], Some (VString (string_of_list_byte text)))) as Hfallback.
  { intros m a text Htext Hne Hm. apply decodeMethodValue_padded_string; [done..|].
    by destruct Hm as [-> | ->]. }
  split; [exact Hfallback|].
  assert (∃ console meta,
            decodeMetaResults StringToNumber results context = (console, Some meta)
            ∧ dom meta = list_to_set (contractAddress <$> take (length results) context)
            ∧ ∀ (i : nat) r ctx,
                results !! i = Some r → context !! i = Some ctx →
                decode (fragmentTypes (methodName ctx)) r.2 = None →
                decodeNotice (methodName ctx) (contractAddress ctx) ∈ console)
    as (console & meta & Hrun & Hdom & Hnotes).
  { clear Hfallback. induction results as [|r rs IH] using rev_ind.
    - exists [], ∅. split; [done|]. split; [by rewrite dom_empty_L|].
      intros i r ctx Hr. done.
    - rewrite length_app in Hlen. cbn [length] in Hlen.
      destruct IH as (console & meta & Hrun & Hdom & Hnotes); [lia| |].
      { intros i r' ctx Hr Hc. apply (Hall i); [|done]. by apply lookup_app_l_Some. }
      destruct (lookup_lt_is_Some_2 context (length rs)) as [ctx Hctx]; [lia|].
      destruct (decodeMetaStep_decoded context console meta (length rs) r ctx Hctx)
        as (notices & v & Hval & Hstep).
      { apply (Hall (length rs)); [|done]. by rewrite list_lookup_middle. }
      rewrite decodeMetaResults_snoc, Hrun, Hstep.
      eexists _, _. split; [reflexivity|]. split.
      + rewrite dom_insert_L, Hdom, length_app. cbn [length].
        rewrite Nat.add_1_r, (take_S_r _ _ _ Hctx), fmap_app, list_to_set_app_L.
        simpl. rewrite (right_id_L ∅ (∪)). apply (comm_L (∪)).
      + intros i r' ctx' Hr Hc Hfail.
        apply elem_of_app.
        destruct (decide (i < length rs)%nat) as [Hi|Hi].
        * left. rewrite lookup_app_l in Hr by done. by eapply Hnotes.
        * right. assert (i = length rs) as ->.
          { apply lookup_lt_Some in Hr. rewrite length_app in Hr. simpl in Hr. lia. }
          rewrite list_lookup_middle in Hr by done. injection Hr as <-.
          rewrite Hctx in Hc. injection Hc as <-.
          unfold decodeMethodValue in Hval. rewrite Hfail in Hval.
          injection Hval as <- _. apply list_elem_of_here. }
  exists console, meta. split; [done|]. split; [done|]. split; [done|]. split.
  - intros i r ctx text Hr Hc Hm Htext Hne Hdata Hlast.
    destruct (decodeMetaResults_field results context console meta i r ctx
                Hrun Hr Hc Hlast) as (notices & v & Hval & Hfield).
    rewrite Hdata, (Hfallback _ _ _ Htext Hne Hm) in Hval. injection Hval as _ <-.
    rewrite Hfield. by destruct Hm as [-> | ->].
  - intros i r ctx v Hr Hc Hv Hlast.
    destruct (decodeMetaResults_field results context console meta i r ctx
                Hrun Hr Hc Hlast) as (notices & v' & Hval & Hfield).
    unfold decodeMethodValue in Hval. rewrite Hv in Hval. by injection Hval as _ <-.
Qed.
End DecodeFallbackProps.

(** ** Decimal strings *)

Lemma digitsValue_digits cs acc :
  allDigits cs → digitsValue acc cs = Some (foldl decStep acc cs).
Proof.
  intros H. revert acc. induction H as [|c cs Hc _ IH]; intros acc; [done|].
  cbn [digitsValue foldl]. rewrite Hc. apply IH.
Qed.

Lemma decStep_zeros k acc : foldl decStep acc (replicate k "0"%char) = acc * 10 ^ Z.of_nat k.
Proof.
  revert acc. induction k as [|k IH]; intros acc.
  - simpl. lia.
  - cbn [replicate foldl]. rewrite IH, Nat2Z.inj_succ, Z.pow_succ_r by lia.
    unfold decStep, digitZ. simpl. lia.
Qed.

Lemma decVal_zeros_l k cs : decVal (replicate k "0"%char ++ cs) = decVal cs.
Proof. unfold decVal. by rewrite foldl_app, decStep_zeros. Qed.

Lemma decVal_zeros_r k cs : decVal (cs ++ replicate k "0"%char) = decVal cs * 10 ^ Z.of_nat k.
Proof. unfold decVal. by rewrite foldl_app, decStep_zeros. Qed.

Lemma allDigits_zeros k : allDigits (replicate k "0"%char).
Proof. apply Forall_replicate. done. Qed.

Lemma pretty_N_char_digit n :
  (n < 10)%N → isDigit (pretty_N_char n) = true ∧ digitZ (pretty_N_char n) = Z.of_N n.
Proof.
  intros H.
  assert (n = 0 ∨ n = 1 ∨ n = 2 ∨ n = 3 ∨ n = 4 ∨ n = 5 ∨ n = 6 ∨ n = 7 ∨ n = 8 ∨ n = 9)%N
    as Hn by lia.
  repeat (destruct Hn as [->|Hn]; [done|]). by subst.
Qed.

Lemma pretty_N_go_digits x s :
  ∃ ds, list_ascii_of_string (pretty_N_go x s) = ds ++ list_ascii_of_string s
        ∧ allDigits ds
        ∧ (∀ acc, foldl decStep acc ds = acc * 10 ^ Z.of_nat (length ds) + Z.of_N x)
        ∧ ((0 < x)%N → ds ≠ []).
Proof.
  revert s. induction (N.lt_wf_0 x) as [x _ IH]; intros s.
  destruct (decide (x = 0)%N) as [->|Hx].
  - exists []. rewrite pretty_N_go_0. repeat split; [constructor| |lia].
    intros acc. simpl. lia.
  - rewrite pretty_N_go_step by lia.
    destruct (IH (x `div` 10)%N) with (s := String (pretty_N_char (x `mod` 10)) s)
      as (ds & Heq & Hall & Hval & _).
    { apply N.div_lt; lia. }
    destruct (pretty_N_char_digit (x `mod` 10)%N) as [Hd Hz].
    { apply N.mod_lt. lia. }
    exists (ds ++ [pretty_N_char (x `mod` 10)]). split; [|split; [|split]].
    + rewrite Heq. simpl. by rewrite <- app_assoc.
    + apply Forall_app. split; [done|]. by constructor.
    + intros acc. rewrite foldl_app, Hval. cbn [foldl]. unfold decStep at 1.
      rewrite Hz, length_app. cbn [length].
      rewrite Nat2Z.inj_add, Z.pow_add_r by lia.
      rewrite (N.div_mod x 10) at 3 by lia. rewrite N2Z.inj_add, N2Z.inj_mul.
      change (Z.of_N 10) with 10. change (10 ^ Z.of_nat 1) with 10. lia.
    + intros _. by destruct ds.
Qed.

(** The digits of a natural number, as [BigInt.prototype.toString] writes
    them. *)
Lemma pretty_digits (v : Z) :
  0 ≤ v →
  let ds := list_ascii_of_string (pretty v) in
  allDigits ds ∧ decVal ds = v ∧ ds ≠ [].
Proof.
  intros Hv. destruct v as [|p|p]; [| |lia].
  - repeat split; [|done]. by repeat constructor.
  - change (pretty (Z.pos p)) with (pretty_N_go (N.pos p) "").
    destruct (pretty_N_go_digits (N.pos p) "") as (ds & Heq & Hall & Hval & Hne).
    cbn zeta. rewrite Heq. cbn [list_ascii_of_string]. rewrite app_nil_r.
    split; [done|]. split; [|apply Hne; lia].
    unfold decVal. rewrite Hval. simpl. lia.
Qed.

Lemma getBigInt_pretty (v : Z) : 0 ≤ v → getBigInt (pretty v) = Some v.
Proof.
  intros Hv. destruct (pretty_digits v Hv) as (Hall & Hval & Hne).
  unfold getBigInt. destruct (list_ascii_of_string (pretty v)) as [|c cs]; [done|].
  assert (Hc : Ascii.eqb c "-" = false).
  { apply Forall_cons in Hall as [Hc _]. apply Ascii.eqb_neq. by intros ->. }
  rewrite Hc. cbn [andb]. rewrite digitsValue_digits by done.
  by rewrite <- Hval.
Qed.

Lemma digit_not_point c : isDigit c = true → Ascii.eqb "." c = false.
Proof.
  intros H. apply Ascii.eqb_neq. intros <-. done.
Qed.

Lemma trimZeros_whole W rest :
  allDigits W → W ≠ [] →
  ∃ (j : nat) W1, W = replicate j "0"%char ++ W1 ∧ W1 ≠ []
    ∧ trimZeros (W ++ "."%char :: rest) = W1 ++ "."%char :: rest.
Proof.
  induction 1 as [|c W Hc Hall IH]; intros Hne; [done|].
  cbn [app trimZeros].
  destruct (Ascii.eqb_spec c "0") as [->|Hc0].
  - destruct W as [|d W'].
    + exists 0%nat, ["0"%char]. by repeat split.
    + apply Forall_cons in Hall as Hd. destruct Hd as [Hd _].
      cbn [app head from_option]. rewrite (digit_not_point d Hd). cbn [negb andb].
      destruct IH as (j & W1 & HW & HW1 & Htrim); [done|].
      exists (S j), W1. split; [|split; [done|]].
      * cbn [replicate app]. by rewrite <- HW.
      * exact Htrim.
  - exists 0%nat, (c :: W). by repeat split.
Qed.

Lemma splitPoint_digits W rest :
  allDigits W → splitPoint (W ++ "."%char :: rest) = (W, Some rest).
Proof.
  induction 1 as [|c W Hc _ IH]; [done|].
  cbn [app splitPoint]. rewrite IH.
  destruct (Ascii.eqb_spec c ".") as [->|]; done.
Qed.

Lemma splitPoint_no_point W : allDigits W → splitPoint W = (W, None).
Proof.
  induction 1 as [|c W Hc _ IH]; [done|].
  cbn [splitPoint]. rewrite IH.
  destruct (Ascii.eqb_spec c ".") as [->|]; done.
Qed.

Lemma rev_replicate {A} (x : A) k : rev (replicate k x) = replicate k x.
Proof.
  induction k as [|k IH]; [done|].
  cbn [replicate rev]. rewrite IH. symmetry. apply replicate_cons_app.
Qed.

(** The string written for a natural number [v] with [d] decimals denotes
    exactly v / 10^d: nothing is rounded, and with [d > 0] at least one
    fractional digit is kept. *)
Lemma fixedToString_value v d :
  0 ≤ v → 0 ≤ d →
  ∃ m (k : nat),
    readFixed (fixedToString v d) = Some (m, k)
    ∧ Z.of_nat k ≤ d ∧ m * 10 ^ (d - Z.of_nat k) = v ∧ (0 < d → (1 ≤ k)%nat).
Proof.
  intros Hv Hd. unfold fixedToString. rewrite Z.abs_eq by done.
  destruct (Z.ltb_spec v 0) as [|_]; [lia|].
  destruct (pretty_digits v Hv) as (Hall & Hval & Hne).
  set (ds := list_ascii_of_string (pretty v)) in *.
  destruct (Z.eqb_spec d 0) as [->|Hd0].
  - exists v, 0%nat.
    replace ("" +:+ string_of_list_ascii ds) with (string_of_list_ascii ds) by reflexivity.
    unfold readFixed.
    rewrite list_ascii_of_string_of_list_ascii, splitPoint_no_point by done.
    rewrite bool_decide_eq_false_2 by done.
    rewrite digitsValue_digits by done. fold (decVal ds). rewrite Hval.
    cbn. repeat split; lia.
  - set (rounds := if Z.of_nat (length ds) <=? d
                   then (d - Z.of_nat (length ds)) / 4 + 1 else 0).
    set (padded := replicate (Z.to_nat (4 * rounds)) "0"%char ++ ds).
    assert (Hpall : allDigits padded).
    { apply Forall_app. split; [apply allDigits_zeros|done]. }
    assert (Hpval : decVal padded = v) by (unfold padded; by rewrite decVal_zeros_l).
    assert (Hplen : d < Z.of_nat (length padded)).
    { unfold padded, rounds. rewrite length_app, length_replicate.
      destruct (Z.leb_spec (Z.of_nat (length ds)) d) as [Hle|Hgt]; [|lia].
      pose proof (Z.mod_pos_bound (d - Z.of_nat (length ds)) 4 ltac:(lia)).
      pose proof (Z.div_mod (d - Z.of_nat (length ds)) 4 ltac:(lia)).
      lia. }
    set (index := Z.to_nat (Z.of_nat (length padded) - d)).
    set (W0 := take index padded). set (F0 := drop index padded).
    assert (Hsplit : padded = W0 ++ F0) by (symmetry; apply take_drop).
    assert (HW0 : allDigits W0) by (by apply Forall_take).
    assert (HF0 : allDigits F0) by (by apply Forall_drop).
    assert (HlenF : Z.of_nat (length F0) = d).
    { unfold F0. rewrite length_drop. unfold index. lia. }
    assert (HW0ne : W0 ≠ []).
    { intros E. apply (f_equal length) in E. unfold W0 in E.
      rewrite length_take in E. simpl in E. unfold index in E. lia. }
    destruct (trimZeros_whole W0 F0 HW0 HW0ne) as (j & W1 & HW01 & HW1ne & Htrim1).
    rewrite Htrim1.
    assert (HW1 : allDigits W1).
    { rewrite HW01 in HW0. by apply Forall_app in HW0 as [_ ?]. }
    rewrite rev_app_distr. cbn [rev]. rewrite <- app_assoc. cbn [app].
    assert (HrF0 : allDigits (rev F0)) by (by apply Forall_rev).
    assert (HrF0ne : rev F0 ≠ []).
    { intros E. apply (f_equal length) in E. rewrite length_rev in E. simpl in E. lia. }
    destruct (trimZeros_whole (rev F0) (rev W1) HrF0 HrF0ne)
      as (j' & F1r & HF01 & HF1ne & Htrim2).
    rewrite Htrim2.
    rewrite rev_app_distr. cbn [rev]. rewrite rev_involutive, <- app_assoc. cbn [app].
    assert (HF0eq : F0 = rev F1r ++ replicate j' "0"%char).
    { rewrite <- (rev_involutive F0), HF01, rev_app_distr. by rewrite rev_replicate. }
    assert (HF : allDigits (rev F1r)).
    { rewrite HF0eq in HF0. by apply Forall_app in HF0 as [? _]. }
    assert (HFne : rev F1r ≠ []).
    { intros E. apply HF1ne. rewrite <- (rev_involutive F1r), E. done. }
    exists (decVal (W1 ++ rev F1r)), (length (rev F1r)).
    match goal with |- context [ "" +:+ ?s ] =>
      replace ("" +:+ s) with s by reflexivity end.
    unfold readFixed.
    rewrite list_ascii_of_string_of_list_ascii, splitPoint_digits by done.
    rewrite bool_decide_eq_false_2 by (intros [?|?]; done).
    rewrite digitsValue_digits by (by apply Forall_app).
    assert (Hk : Z.of_nat (length (rev F1r)) + Z.of_nat j' = d).
    { rewrite <- HlenF, HF0eq, length_app, length_replicate. lia. }
    split; [done|]. split; [lia|]. split.
    + replace (d - Z.of_nat (length (rev F1r))) with (Z.of_nat j') by lia.
      rewrite <- decVal_zeros_r, <- app_assoc, <- HF0eq.
      rewrite <- (decVal_zeros_l j), app_assoc, <- HW01, <- Hsplit. done.
    + intros _. destruct (rev F1r); [done|]. simpl. lia.
Qed.

Lemma trimZeros_canonical W rest :
  allDigits W → W ≠ [] →
  ∃ (j : nat) W1, W = replicate j "0"%char ++ W1 ∧ W1 ≠ []
    ∧ (head W1 = Some "0"%char → W1 = ["0"%char])
    ∧ trimZeros (W ++ "."%char :: rest) = W1 ++ "."%char :: rest.
Proof.
  induction 1 as [|c W Hc Hall IH]; intros Hne; [done|].
  cbn [app trimZeros].
  destruct (Ascii.eqb_spec c "0") as [->|Hc0].
  - destruct W as [|d W'].
    + exists 0%nat, ["0"%char]. split; [done|]. split; [done|]. by split.
    + apply Forall_cons in Hall as Hd. destruct Hd as [Hd _].
      cbn [app head from_option]. rewrite (digit_not_point d Hd). cbn [negb andb].
      destruct IH as (j & W1 & HW & HW1 & Hcan & Htrim); [done|].
      exists (S j), W1. split; [|split; [done|split; [done|]]].
      * cbn [replicate app]. by rewrite <- HW.
      * exact Htrim.
  - exists 0%nat, (c :: W). split; [done|]. split; [done|]. split; [|done].
    intros [= ->]. done.
Qed.

Lemma last_rev_head {A} (l : list A) : last (rev l) = head l.
Proof. destruct l as [|x l]; [done|]. cbn [rev head]. apply last_snoc. Qed.

(** With [d > 0] decimals the string written for a natural number is in
    the shortest form: the loops trim every zero they may. *)
Lemma fixedToString_canonical v d :
  0 ≤ v → 0 < d → canonicalFixed (fixedToString v d).
Proof.
  intros Hv Hd. unfold fixedToString. rewrite Z.abs_eq by done.
  destruct (Z.ltb_spec v 0) as [|_]; [lia|].
  destruct (pretty_digits v Hv) as (Hall & Hval & Hne).
  set (ds := list_ascii_of_string (pretty v)) in *.
  destruct (Z.eqb_spec d 0) as [->|Hd0]; [lia|].
  set (rounds := if Z.of_nat (length ds) <=? d
                 then (d - Z.of_nat (length ds)) / 4 + 1 else 0).
  set (padded := replicate (Z.to_nat (4 * rounds)) "0"%char ++ ds).
  assert (Hpall : allDigits padded).
  { apply Forall_app. split; [apply allDigits_zeros|done]. }
  assert (Hplen : d < Z.of_nat (length padded)).
  { unfold padded, rounds. rewrite length_app, length_replicate.
    destruct (Z.leb_spec (Z.of_nat (length ds)) d) as [Hle|Hgt]; [|lia].
    pose proof (Z.mod_pos_bound (d - Z.of_nat (length ds)) 4 ltac:(lia)).
    pose proof (Z.div_mod (d - Z.of_nat (length ds)) 4 ltac:(lia)).
    lia. }
  set (index := Z.to_nat (Z.of_nat (length padded) - d)).
  set (W0 := take index padded). set (F0 := drop index padded).
  assert (HW0 : allDigits W0) by (by apply Forall_take).
  assert (HF0 : allDigits F0) by (by apply Forall_drop).
  assert (HlenF : Z.of_nat (length F0) = d).
  { unfold F0. rewrite length_drop. unfold index. lia. }
  assert (HW0ne : W0 ≠ []).
  { intros E. apply (f_equal length) in E. unfold W0 in E.
    rewrite length_take in E. simpl in E. unfold index in E. lia. }
  destruct (trimZeros_canonical W0 F0 HW0 HW0ne)
    as (j & W1 & HW01 & HW1ne & HW1can & Htrim1).
  rewrite Htrim1.
  assert (HW1 : allDigits W1).
  { rewrite HW01 in HW0. by apply Forall_app in HW0 as [_ ?]. }
  rewrite rev_app_distr. cbn [rev]. rewrite <- app_assoc. cbn [app].
  assert (HrF0 : allDigits (rev F0)) by (by apply Forall_rev).
  assert (HrF0ne : rev F0 ≠ []).
  { intros E. apply (f_equal length) in E. rewrite length_rev in E. simpl in E. lia. }
  destruct (trimZeros_canonical (rev F0) (rev W1) HrF0 HrF0ne)
    as (j' & F1r & HF01 & HF1ne & HF1can & Htrim2).
  rewrite Htrim2.
  rewrite rev_app_distr. cbn [rev]. rewrite rev_involutive, <- app_assoc. cbn [app].
  assert (HF0eq : F0 = rev F1r ++ replicate j' "0"%char).
  { rewrite <- (rev_involutive F0), HF01, rev_app_distr. by rewrite rev_replicate. }
  assert (HF : allDigits (rev F1r)).
  { rewrite HF0eq in HF0. by apply Forall_app in HF0 as [? _]. }
  assert (HFne : rev F1r ≠ []).
  { intros E. apply HF1ne. rewrite <- (rev_involutive F1r), E. done. }
  match goal with |- context [ "" +:+ ?s ] =>
    replace ("" +:+ s) with s by reflexivity end.
  exists W1, (rev F1r). rewrite list_ascii_of_string_of_list_ascii.
  split; [done|]. split; [done|]. split; [done|]. split; [done|]. split; [done|].
  split; [done|]. rewrite last_rev_head. intros Hzero. by rewrite (HF1can Hzero).
Qed.

Lemma fixedToString_whole v : 0 ≤ v → fixedToString v 0 = pretty v.
Proof.
  intros Hv. unfold fixedToString. destruct (Z.ltb_spec v 0) as [|_]; [lia|].
  rewrite Z.abs_eq by done. cbn [Z.eqb].
  replace ("" +:+ string_of_list_ascii (list_ascii_of_string (pretty v)))
    with (string_of_list_ascii (list_ascii_of_string (pretty v))) by reflexivity.
  apply string_of_list_ascii_of_string.
Qed.

(** ** The normalizer *)

Lemma balancesStep_tokenInfo meta raw fmt acc a :
  balancesStep meta raw fmt acc a
  = balances ← acc; ti ← tokenInfo meta raw fmt a; Some (<[a := ti]> balances).
Proof.
  unfold balancesStep, tokenInfo. destruct acc as [balances|]; [|done].
  cbn [mbind option_bind]. destruct (meta !! a) as [info|]; [|done].
  cbn [mbind option_bind]. destruct (raw !! a) as [hex|]; [|done].
  cbn [mbind option_bind]. destruct (decodeNumber 256 hex) as [decoded|]; [|done].
  cbn [mbind option_bind].
  by destruct (if fmt then formatUnits (pretty decoded) (info !! "decimals")
               else Some (pretty decoded)).
Qed.

Lemma balancesStep_thrown meta raw fmt keys :
  foldl (balancesStep meta raw fmt) None keys = None.
Proof. induction keys as [|k ks IH]; [done|]. apply IH. Qed.

Lemma balances_fold meta raw fmt keys acc res :
  foldl (balancesStep meta raw fmt) (Some acc) keys = Some res →
  (∀ k, k ∈ keys → ∃ ti, tokenInfo meta raw fmt k = Some ti ∧ res !! k = Some ti)
  ∧ (∀ k, k ∉ keys → res !! k = acc !! k).
Proof.
  revert acc. induction keys as [|k0 ks IH]; intros acc Hrun.
  - injection Hrun as <-. split; [|done]. intros k Hk. by apply elem_of_nil in Hk.
  - cbn [foldl] in Hrun. rewrite balancesStep_tokenInfo in Hrun.
    cbn [mbind option_bind] in Hrun.
    destruct (tokenInfo meta raw fmt k0) as [ti0|] eqn:Hti; cbn [mbind option_bind] in Hrun;
      [|by rewrite balancesStep_thrown in Hrun].
    destruct (IH _ Hrun) as [Hin Hout]. split.
    + intros k Hk. destruct (decide (k ∈ ks)) as [Hks|Hks]; [by apply Hin|].
      apply elem_of_cons in Hk as [->|Hk]; [|done].
      exists ti0. split; [done|]. by rewrite (Hout _ Hks), lookup_insert_eq.
    + intros k Hk. apply not_elem_of_cons in Hk as [Hne Hks].
      by rewrite (Hout _ Hks), lookup_insert_ne.
Qed.

Lemma balances_fold_Some meta raw fmt keys acc :
  (∀ k, k ∈ keys → is_Some (tokenInfo meta raw fmt k)) →
  is_Some (foldl (balancesStep meta raw fmt) (Some acc) keys).
Proof.
  revert acc. induction keys as [|k0 ks IH]; intros acc Hall; [by eexists|].
  cbn [foldl]. rewrite balancesStep_tokenInfo. cbn [mbind option_bind].
  destruct (Hall k0) as [ti0 ->]; [apply list_elem_of_here|].
  cbn [mbind option_bind]. apply IH. intros k Hk. apply Hall. by apply list_elem_of_further.
Qed.

Lemma elem_of_keys (meta : gmap string (gmap string JsValue)) k :
  k ∈ (map_to_list meta).*1 ↔ k ∈ dom meta.
Proof.
  rewrite elem_of_dom, list_elem_of_fmap. split.
  - intros ([k' info] & -> & Hin). apply elem_of_map_to_list in Hin. by eexists.
  - intros [info Hinfo]. exists (k, info). split; [done|]. by apply elem_of_map_to_list.
Qed.

Lemma balancesByContract_lookup meta raw fmt res :
  balancesByContract meta raw fmt = Some res →
  (∀ k, k ∈ dom meta → ∃ ti, tokenInfo meta raw fmt k = Some ti ∧ res !! k = Some ti)
  ∧ (∀ k, k ∉ dom meta → res !! k = None).
Proof.
  intros Hrun. apply balances_fold in Hrun as [Hin Hout]. split.
  - intros k Hk. apply Hin. by apply elem_of_keys.
  - intros k Hk. rewrite Hout; [done|]. by rewrite elem_of_keys.
Qed.

Lemma balancesByContract_dom meta raw fmt res :
  balancesByContract meta raw fmt = Some res → dom res = dom meta.
Proof.
  intros Hrun. apply balancesByContract_lookup in Hrun as [Hin Hout].
  apply set_eq. intros k. split; intros Hk.
  - destruct (decide (k ∈ dom meta)) as [|Hno]; [done|].
    apply elem_of_dom in Hk as [ti Hti]. by rewrite (Hout _ Hno) in Hti.
  - destruct (Hin _ Hk) as (ti & _ & Hti). apply elem_of_dom. by eexists.
Qed.

Lemma decodeNumber_256_word data bs :
  getBytes data = Some bs → length bs = 32%nat →
  decodeNumber 256 data = Some (toBigInt bs).
Proof.
  intros Hb Hlen. unfold decodeNumber. rewrite Hb. cbn [mbind option_bind].
  rewrite readValue_word by done. cbn [mbind option_bind]. f_equal.
  change (2 ^ 256 - 1) with (Z.ones 256). rewrite Z.land_ones by lia.
  apply Z.mod_small. pose proof (toBigInt_range bs) as H. rewrite Hlen in H.
  change (256 ^ Z.of_nat 32) with (2 ^ 256) in H. done.
Qed.

Lemma decodeNumber_range bits data w :
  0 ≤ bits → decodeNumber bits data = Some w → 0 ≤ w < 2 ^ bits.
Proof.
  intros Hbits. unfold decodeNumber.
  destruct (getBytes data) as [bs|]; [|done]. cbn [mbind option_bind].
  destruct (readValue bs) as [v|]; [|done]. cbn [mbind option_bind].
  intros [= <-]. replace (2 ^ bits - 1) with (Z.ones bits).
  - rewrite Z.land_ones by done. apply Z.mod_pos_bound. lia.
  - rewrite Z.ones_equiv. lia.
Qed.

Lemma formatUnits_decimals v d s :
  0 ≤ v →
  formatUnits (pretty v) (Some (VNumber (NumInt d))) = Some s →
  s = fixedToString v d ∧ d ≤ 80.
Proof.
  intros Hv. unfold formatUnits, getNumber.
  destruct ((- MAX_SAFE_INTEGER <=? d) && (d <=? MAX_SAFE_INTEGER)); [|done].
  cbn [mbind option_bind]. destruct (Z.ltb_spec 80 d); [done|].
  rewrite getBigInt_pretty by done. cbn [mbind option_bind].
  destruct ((- 2 ^ 511 <=? v) && (v <? 2 ^ 511)); [|done]. by intros [= <-].
Qed.

Lemma formatUnits_decimals_Some v d :
  0 ≤ v < 2 ^ 511 → 0 ≤ d ≤ 80 →
  formatUnits (pretty v) (Some (VNumber (NumInt d))) = Some (fixedToString v d).
Proof.
  intros Hv Hd. unfold formatUnits, getNumber.
  assert ((- MAX_SAFE_INTEGER <=? d) && (d <=? MAX_SAFE_INTEGER) = true) as ->.
  { unfold MAX_SAFE_INTEGER. apply andb_true_iff. split; apply Z.leb_le; lia. }
  cbn [mbind option_bind]. destruct (Z.ltb_spec 80 d); [lia|].
  rewrite getBigInt_pretty by lia. cbn [mbind option_bind].
  assert ((- 2 ^ 511 <=? v) && (v <? 2 ^ 511) = true) as ->; [|done].
  apply andb_true_iff. split; [apply Z.leb_le|apply Z.ltb_lt]; lia.
Qed.

(** C7.  With raw data for every metadata key, whatever
    [balancesByContract] returns has exactly the keys of the metadata
    object: raw balances without metadata are left out.  It does return
    when each of these raw values holds at least one 32-byte word and, for
    formatted balances, each decimals field is an integer from 0 to 80. *)
Theorem balancesByContract_keys
    (meta : gmap string (gmap string JsValue)) (raw : gmap string ReturnData)
    (formatBalance : bool) :
  dom meta ⊆ dom raw →
  (∀ res, balancesByContract meta raw formatBalance = Some res →
     dom res = dom meta
     ∧ ∀ k, k ∈ dom raw → k ∉ dom meta → k ∉ dom res)
  ∧ ((∀ k data, k ∈ dom meta → raw !! k = Some data →
        ∃ bs, getBytes data = Some bs ∧ (32 ≤ length bs)%nat) →
     (formatBalance = true → ∀ k info, meta !! k = Some info →
        ∃ d, info !! "decimals" = Some (VNumber (NumInt d)) ∧ 0 ≤ d ≤ 80) →
     ∃ res, balancesByContract meta raw formatBalance = Some res
            ∧ dom res = dom meta).
Proof.
  intros Hsub. split.
  - intros res Hrun. pose proof (balancesByContract_dom _ _ _ _ Hrun) as Hdom.
    split; [done|]. intros k _ Hk. by rewrite Hdom.
  - intros Hraw Hdec.
    destruct (balances_fold_Some meta raw formatBalance (map_to_list meta).*1 ∅)
      as [res Hres].
    + intros k Hk. apply elem_of_keys in Hk.
      pose proof Hk as Hm. apply elem_of_dom in Hm as [info Hinfo].
      apply Hsub, elem_of_dom in Hk as [data Hdata].
      destruct (Hraw k data) as (bs & Hbs & Hlen); [by apply elem_of_dom; eexists|done|].
      unfold tokenInfo. rewrite Hinfo, Hdata. cbn [mbind option_bind].
      destruct (decodeNumber 256 data) as [v|] eqn:Hv.
      2:{ unfold decodeNumber, readValue in Hv. rewrite Hbs in Hv.
          cbn [mbind option_bind] in Hv.
          destruct (Nat.ltb_spec (length bs) 32); [lia|done]. }
      cbn [mbind option_bind]. apply decodeNumber_range in Hv; [|lia].
      destruct formatBalance; [|by eexists].
      destruct (Hdec eq_refl k info Hinfo) as (d & -> & Hd).
      rewrite formatUnits_decimals_Some; [by eexists| |done].
      split; [lia|]. eapply Z.lt_trans; [apply Hv|]. by vm_compute.
    + exists res. split; [done|]. by eapply balancesByContract_dom.
Qed.

(** C4, as amended.  For a contract whose metadata has [decimals = d] and
    whose raw balance is the 32-byte word of [v], the record returned for
    it carries, without formatting, the decimal digits of [v], and with
    formatting a string that denotes exactly v / 10^d.  With d > 0 the
    string is in the shortest form: digits, a point, digits, no zero in
    front of the whole part and no zero at the end of the fraction, except
    that one digit always stays on either side of the point; with d = 0
    it is the decimal digits of [v].  One million with six decimals is
    "1.0" formatted and "1000000" unformatted. *)
Theorem balancesByContract_balance_string
    (meta : gmap string (gmap string JsValue)) (raw : gmap string ReturnData)
    (formatBalance : bool) res a info d data bs :
  balancesByContract meta raw formatBalance = Some res →
  meta !! a = Some info →
  info !! "decimals" = Some (VNumber (NumInt d)) → 0 ≤ d →
  raw !! a = Some data → getBytes data = Some bs → length bs = 32%nat →
  let v := toBigInt bs in
  ∃ s, res !! a = Some (<["balanceOf" := VString s]> info)
       ∧ (formatBalance = false → s = pretty v ∧ getBigInt s = Some v)
       ∧ (formatBalance = true →
          ∃ m (k : nat), readFixed s = Some (m, k) ∧ Z.of_nat k ≤ d
                         ∧ m * 10 ^ (d - Z.of_nat k) = v
                         ∧ (0 < d → (1 ≤ k)%nat ∧ canonicalFixed s)
                         ∧ (d = 0 → s = pretty v))
       ∧ (v = 1000000 → d = 6 →
          s = if formatBalance then "1.0" else "1000000").
Proof.
  intros Hrun Hinfo Hdec Hd Hdata Hbs Hlen v.
  apply balancesByContract_lookup in Hrun as [Hin _].
  destruct (Hin a) as (ti & Hti & Hres); [apply elem_of_dom; by eexists|].
  unfold tokenInfo in Hti. rewrite Hinfo, Hdata in Hti. cbn [mbind option_bind] in Hti.
  rewrite (decodeNumber_256_word data bs Hbs Hlen) in Hti.
  cbn [mbind option_bind] in Hti. fold v in Hti.
  assert (Hv : 0 ≤ v) by apply toBigInt_range.
  destruct formatBalance.
  - rewrite Hdec in Hti.
    destruct (formatUnits (pretty v) (Some (VNumber (NumInt d)))) as [s|] eqn:Hs; [|done].
    cbn [mbind option_bind] in Hti. injection Hti as <-.
    apply formatUnits_decimals in Hs as [-> _]; [|done].
    exists (fixedToString v d). split; [done|]. split; [done|]. split.
    + intros _.
      destruct (fixedToString_value v d Hv Hd) as (m & k & Hread & Hk & Hval & Hone).
      exists m, k. split; [done|]. split; [done|]. split; [done|]. split.
      * intros Hpos. split; [by apply Hone|by apply fixedToString_canonical].
      * intros ->. by apply fixedToString_whole.
    + intros -> ->. reflexivity.
  - cbn [mbind option_bind] in Hti. injection Hti as <-.
    exists (pretty v). split; [done|]. split; [|split; [done|]].
    + intros _. split; [done|]. by apply getBigInt_pretty.
    + intros -> _. reflexivity.
Qed.

(** C4, as stated, fails: one million units of a six-decimal token are
    formatted as "1.0", not "1". *)
Lemma balancesByContract_one_million_formatted :
  (balancesByContract usdcMeta oneMillionRaw true ≫= (.!! "0xA")) ≫= (.!! "balanceOf")
    = Some (VString "1.0")
  ∧ (balancesByContract usdcMeta oneMillionRaw true ≫= (.!! "0xA")) ≫= (.!! "balanceOf")
    ≠ Some (VString "1").
Proof.
  assert (H : (balancesByContract usdcMeta oneMillionRaw true ≫= (.!! "0xA"))
                ≫= (.!! "balanceOf") = Some (VString "1.0")) by (vm_compute; reflexivity).
  split; [done|]. rewrite H. discriminate.
Qed.

Lemma usdc_normalized :
  ∃ res, balancesByContract usdcMeta oneMillionRaw true = Some res.
Proof. vm_compute. by eexists. Qed.

(** * The statements at concrete inputs *)

(** C1 on the three results of the filter example: a zero word, the word
    1 and two bytes, for the addresses A, B, C. *)
Lemma getNonZeroResults_example :
  getNonZeroResults
    [(true, ZeroHash);
     (true, "0x0000000000000000000000000000000000000000000000000000000000000001");
     (true, "0xdead")]
    ["0xA"; "0xB"; "0xC"]
  = [(Some "0xB", true,
      "0x0000000000000000000000000000000000000000000000000000000000000001")].
Proof.
  exact (getNonZeroResults_keeps_nonzero_words
           [(true, replicate 32 x00); (true, replicate 31 x00 ++ [x01]); (true, [xde; xad])]
           ["0xA"; "0xB"; "0xC"] eq_refl).
Defined.

(** C2 on five items in groups of two. *)
Lemma chunk_five_by_two :
  concat (chunk [1; 2; 3; 4; 5] 2) = [1; 2; 3; 4; 5]
  ∧ chunk [1; 2; 3; 4; 5] 2 = [[1; 2]; [3; 4]; [5]].
Proof.
  split; [|reflexivity].
  exact (proj1 (chunk_positive_size [1; 2; 3; 4; 5] 2 eq_refl)).
Defined.

(** C8 on three items with size 0 and size -2. *)
Lemma chunk_three_by_zero :
  chunk [1; 2; 3] 0 = [[]; [1; 2; 3]] ∧ chunk [1; 2; 3] (-2) = [[1; 2; 3]].
Proof.
  split.
  - apply (proj2 (proj2 (chunk_any_size [1; 2; 3] 0))); [reflexivity|discriminate].
  - apply (proj1 (proj2 (chunk_any_size [1; 2; 3] (-2)))); [reflexivity|discriminate].
Defined.

(** C9 on three results, two of them for the same contract. *)
Lemma resultDataByContract_example :
  resultDataByContract
    [("0xA", true, "0x01"); ("0xB", true, "0x02"); ("0xA", true, "0x03")] !! "0xA"
  = Some "0x03".
Proof.
  apply (proj2 (proj2 (resultDataByContract_last_wins
           [("0xA", true, "0x01"); ("0xB", true, "0x02"); ("0xA", true, "0x03")]))
           2%nat "0xA" true "0x03" eq_refl).
  intros j r Hj Hlt. destruct j as [|[|[|j]]]; [lia|lia|lia|discriminate Hj].
Defined.

(** C3 on two distinct contracts: six calls, six context entries, three
    calls per address, and the decimals call of the second contract at
    position 4. *)
Lemma buildCallsContext_two_contracts :
  let rs := [("0xA", true, "0x01"); ("0xB", true, "0x02")] in
  length (calls (buildCallsContext erc20Selectors rs)) = 6%nat
  ∧ length (context (buildCallsContext erc20Selectors rs)) = 6%nat
  ∧ threeCallsPerDistinctAddress erc20Selectors rs
  ∧ calls (buildCallsContext erc20Selectors rs) !! 4%nat
    = Some {| target := "0xB"; callData := "0x313ce567" |}
  ∧ context (buildCallsContext erc20Selectors rs) !! 4%nat
    = Some {| contractAddress := "0xB"; methodName := "decimals" |}.
Proof.
  intros rs.
  destruct (buildCallsContext_three_per_entry erc20Selectors rs)
    as (_ & _ & Hentry & _ & _ & Hdistinct & Htwo).
  destruct (Htwo eq_refl) as [Hc Hx]. split; [exact Hc|]. split; [exact Hx|].
  destruct (Hentry 1%nat ("0xB", true, "0x02") eq_refl)
    as (_ & Hcall & _ & _ & Hctx & _).
  split; [|split; [exact Hcall|exact Hctx]].
  apply Hdistinct. apply NoDup_cons. split; [|apply NoDup_singleton].
  intros Hin. apply list_elem_of_singleton in Hin. discriminate Hin.
Defined.

(** C5 on a name, on a chain other than mainnet. *)
Lemma getAddress_on_chain_5 :
  getAddress (λ _, false) "vitalik.eth"
    {| getNetwork := inr 5; resolveName := λ _, inr None |}
  = ([GetNetwork],
     inl (JsError "Chain 5 does not support ENS. See https://github.com/ethers-io/ethers.js/issues/310")).
Proof.
  apply (proj1 (proj2 (getAddress_outcomes (λ _, false) "vitalik.eth"
           {| getNetwork := inr 5; resolveName := λ _, inr None |}))
           eq_refl 5 eq_refl).
  discriminate.
Defined.

(** C10 on an empty return for decimals(). *)
Lemma decodeMetaResults_empty_decimals_throws :
  (decodeMetaResults (λ _, NumNaN) [(false, "0x")]
     [{| contractAddress := "0xA"; methodName := "decimals" |}]).2 = None.
Proof.
  exact (proj1 (proj2 (decodeMetaResults_decimals_fallback_throws (λ _, NumNaN)
           [(false, "0x")] [{| contractAddress := "0xA"; methodName := "decimals" |}]
           0%nat false "0x" "0xA" eq_refl eq_refl eq_refl))).
Defined.

(** C6 on the answers of a bytes32 token: symbol() answered with the
    bytes32 "MKR", decimals() with the word 18. *)
Lemma decodeMetaResults_mkr :
  ∃ console meta,
    decodeMetaResults (λ _, NumNaN)
      [(true, "0x4d4b520000000000000000000000000000000000000000000000000000000000");
       (true, "0x0000000000000000000000000000000000000000000000000000000000000012")]
      [{| contractAddress := "0xM"; methodName := "symbol" |};
       {| contractAddress := "0xM"; methodName := "decimals" |}]
    = (console, Some meta)
    ∧ decodeNotice "symbol" "0xM" ∈ console
    ∧ meta !! "0xM" ≫= (.!! "symbol") = Some (VString "MKR")
    ∧ meta !! "0xM" ≫= (.!! "decimals") = Some (VNumber (NumInt 18)).
Proof.
  assert (Htext : asciiText [x4d; x4b; x52]).
  { split; [|simpl; lia]. repeat constructor. }
  destruct (decodeMetaResults_padded_ascii (λ _, NumNaN)
      [(true, "0x4d4b520000000000000000000000000000000000000000000000000000000000");
       (true, "0x0000000000000000000000000000000000000000000000000000000000000012")]
      [{| contractAddress := "0xM"; methodName := "symbol" |};
       {| contractAddress := "0xM"; methodName := "decimals" |}])
    as (_ & _ & console & meta & Hrun & _ & Hnotes & Htexts & Hvalues).
  - simpl. lia.
  - intros i r ctx Hr Hc. destruct i as [|[|i]]; [| |discriminate Hr].
    + injection Hr as <-. left. exists [x4d; x4b; x52]. split; [exact Htext|reflexivity].
    + injection Hr as <-. injection Hc as <-. right. eexists. reflexivity.
  - exists console, meta. split; [exact Hrun|]. split; [|split].
    + apply (Hnotes 0%nat _ _ eq_refl eq_refl). reflexivity.
    + apply (Htexts 0%nat _ {| contractAddress := "0xM"; methodName := "symbol" |}
               [x4d; x4b; x52] eq_refl eq_refl); [by left|exact Htext|discriminate|reflexivity|].
      intros j ctx' Hj Hctx'. simpl in Hj. destruct j as [|[|j]]; [lia| |lia].
      injection Hctx' as <-. discriminate.
    + apply (Hvalues 1%nat _ {| contractAddress := "0xM"; methodName := "decimals" |}
               (VBigInt 18) eq_refl eq_refl); [reflexivity|].
      intros j ctx' Hj. simpl in Hj. lia.
Defined.

(** C7 on the sample token. *)
Lemma balancesByContract_keys_example :
  ∃ res, balancesByContract usdcMeta oneMillionRaw true = Some res
         ∧ dom res = dom usdcMeta.
Proof.
  destruct (balancesByContract_keys usdcMeta oneMillionRaw true) as [_ Hruns].
  - unfold usdcMeta, oneMillionRaw. by rewrite !dom_singleton_L.
  - apply Hruns.
    + intros k data Hk Hdata.
      unfold usdcMeta in Hk. rewrite dom_singleton_L in Hk.
      apply elem_of_singleton in Hk. subst k.
      unfold oneMillionRaw in Hdata. rewrite lookup_singleton_eq in Hdata.
      injection Hdata as <-. eexists. split; [reflexivity|]. simpl. lia.
    + intros _ k info Hinfo.
      unfold usdcMeta in Hinfo. apply lookup_singleton_Some in Hinfo as [_ <-].
      exists 6. split; [reflexivity|lia].
Defined.

(** C4 on the sample token: one million with six decimals. *)
Lemma balancesByContract_one_million :
  ∃ res s,
    balancesByContract usdcMeta oneMillionRaw true = Some res
    ∧ res !! "0xA" = Some (<["balanceOf" := VString s]> usdcInfo)
    ∧ s = "1.0".
Proof.
  destruct usdc_normalized as [res Hrun].
  destruct (balancesByContract_balance_string usdcMeta oneMillionRaw true res
              "0xA" usdcInfo 6
              "0x00000000000000000000000000000000000000000000000000000000000f4240"
              (replicate 29 x00 ++ [x0f; x42; x40])
              Hrun eq_refl eq_refl ltac:(lia) eq_refl eq_refl eq_refl)
    as (s & Hres & _ & _ & Hs).
  exists res, s. split; [exact Hrun|]. split; [exact Hres|].
  apply Hs; reflexivity.
Defined.

(** * Further properties *)

(** ** The chunker: number and position of the groups *)

Section ChunkGroups.
Context {T : Type}.

Lemma chunk_loop_current size (array : list T) chunked cur :
  (cur ≠ [] ∨ array ≠ []) →
  (fold_left (chunk_step size) array (chunked, cur)).2 ≠ [].
Proof.
  revert chunked cur. induction array as [|x xs IH]; intros chunked cur H; simpl.
  - by destruct H.
  - destruct (Z.of_nat (length cur) =? size); apply IH; left; [done|].
    by destruct cur.
Qed.

(** The shape of the result for a positive size: full groups, then the
    current group when it is not empty. *)
Lemma chunk_shape (S : list T) (n : Z) :
  0 < n →
  ∃ full last,
    chunk S n = full ++ (if Nat.eqb (length last) 0 then [] else [last])
    ∧ concat full ++ last = S
    ∧ Forall (λ g, length g = Z.to_nat n) full
    ∧ (length last ≤ Z.to_nat n)%nat
    ∧ (S ≠ [] → last ≠ []).
Proof.
  intros Hn. rewrite chunk_unfold. cbn zeta.
  pose proof (chunk_loop_concat n S [] []) as Hcat.
  destruct (chunk_loop_full n S [] [] Hn) as [Hfull Hlast]; [done|simpl; lia|].
  pose proof (chunk_loop_current n S [] []) as Hcur.
  destruct (fold_left (chunk_step n) S ([], [])) as [full last]. simpl in *.
  exists full, last. split; [by destruct (Nat.eqb (length last) 0); rewrite ?app_nil_r|].
  split; [done|]. split; [|split; [lia|]].
  - eapply Forall_impl; [exact Hfull|]. intros g Hg. simpl in Hg. lia.
  - intros HS. apply Hcur. by right.
Qed.

Lemma length_concat_full (full : list (list T)) (k : nat) :
  Forall (λ g, length g = k) full → length (concat full) = (length full * k)%nat.
Proof.
  induction 1 as [|g full Hg _ IH]; [done|].
  simpl. rewrite length_app, IH, Hg. lia.
Qed.

Lemma full_group_lookup (full : list (list T)) (k i : nat) g rest :
  Forall (λ g, length g = k) full → full !! i = Some g →
  g = take k (drop (i * k) (concat full ++ rest)).
Proof.
  intros Hfull. revert i. induction Hfull as [|g0 full Hg0 _ IH]; intros i Hi; [done|].
  destruct i as [|i]; simpl in Hi.
  - injection Hi as ->. simpl. rewrite <- app_assoc, drop_0.
    by rewrite take_app_length' by done.
  - simpl. rewrite <- app_assoc.
    rewrite drop_app_ge by lia.
    replace (k + i * k - length g0)%nat with (i * k)%nat by lia.
    by apply IH.
Qed.

(** X1.  For a positive size [n] the number of groups is the number of items
    divided by [n], rounded up. *)
Theorem chunk_group_count (S : list T) (n : Z) :
  0 < n →
  Z.of_nat (length (chunk S n)) = (Z.of_nat (length S) + n - 1) / n.
Proof.
  intros Hn. destruct (chunk_shape S n Hn) as (full & last & -> & Hcat & Hfull & Hlen & Hne).
  apply length_concat_full in Hfull as Hcount.
  assert (HS : length S = (length full * Z.to_nat n + length last)%nat).
  { by rewrite <- Hcat, length_app, Hcount. }
  rewrite length_app, HS.
  assert (Hk : n = Z.of_nat (Z.to_nat n)) by lia.
  set (k := Z.to_nat n) in *. clearbody k. subst n.
  destruct last as [|x last]; simpl in *.
  - assert (length S = 0)%nat as HS0 by (destruct S; [done|exfalso; by apply Hne]).
    assert (length full = 0)%nat as Hf by nia. rewrite Hf.
    simpl. symmetry. apply Z.div_small. lia.
  - apply Z.div_unique with (r := Z.of_nat (length last)); [lia|nia].
Qed.

(** X2.  For a positive size [n], group number [i] holds the items at positions
    [i * n] to [i * n + n - 1] of the input, as many as there are. *)
Theorem chunk_group_items (S : list T) (n : Z) (i : nat) g :
  0 < n → chunk S n !! i = Some g →
  g = take (Z.to_nat n) (drop (i * Z.to_nat n) S).
Proof.
  intros Hn Hi.
  destruct (chunk_shape S n Hn) as (full & last & Hchunk & Hcat & Hfull & Hlen & Hne).
  rewrite Hchunk in Hi. rewrite <- Hcat.
  destruct (decide (i < length full)%nat) as [Hlt|Hge].
  - rewrite lookup_app_l in Hi by done. by apply full_group_lookup.
  - rewrite lookup_app_r in Hi by lia.
    destruct last as [|x last]; simpl in Hi; [by destruct (i - length full)%nat|].
    destruct (i - length full)%nat as [|j] eqn:Hj; [|by destruct j].
    injection Hi as <-. assert (i = length full) as -> by lia.
    rewrite drop_app_length'; [|symmetry; by apply length_concat_full].
    by rewrite take_ge.
Qed.
End ChunkGroups.

(** Seven items in groups of three. *)
Lemma chunk_group_count_example :
  length (chunk [1; 2; 3; 4; 5; 6; 7] 3) = 3%nat
  ∧ chunk [1; 2; 3; 4; 5; 6; 7] 3 !! 2%nat = Some [7].
Proof.
  split.
  - apply Nat2Z.inj. exact (chunk_group_count [1; 2; 3; 4; 5; 6; 7] 3 eq_refl).
  - reflexivity.
Defined.

Lemma chunk_group_items_example :
  [4; 5; 6] = take 3 (drop 3 [1; 2; 3; 4; 5; 6; 7]).
Proof.
  exact (chunk_group_items [1; 2; 3; 4; 5; 6; 7] 3 1 [4; 5; 6] eq_refl eq_refl).
Defined.

(** ** The balance filter: what it looks at and what it returns *)

Lemma kept_projection (g : nat → option string) (rs : list CallResult) :
  (λ r : option string * bool * string, (r.1.1, r.2))
    <$> List.filter (λ r, nonZeroData r.2) (imap (λ i r, (g i, r.1, r.2)) rs)
  = List.filter (λ r, nonZeroData r.2) (imap (λ i d, (g i, d)) rs.*2).
Proof.
  revert g. induction rs as [|[s d] rs IH]; intros g; [done|].
  rewrite fmap_cons, !imap_cons. cbn [List.filter snd fst].
  specialize (IH (g ∘ S)).
  destruct (nonZeroData d); [rewrite fmap_cons; cbn [snd fst]; f_equal|]; exact IH.
Qed.

(** X3.  The filter never consults the success flag: two result lists with the
    same return data keep the same positions, addresses and data. *)
Theorem getNonZeroResults_ignores_success
    (results results' : list CallResult) (contractAddresses : list string) :
  results.*2 = results'.*2 →
  (λ r : option string * bool * string, (r.1.1, r.2))
    <$> getNonZeroResults results contractAddresses
  = (λ r : option string * bool * string, (r.1.1, r.2))
    <$> getNonZeroResults results' contractAddresses.
Proof.
  intros Hdata. unfold getNonZeroResults.
  rewrite (kept_projection (λ i, contractAddresses !! i) results).
  rewrite (kept_projection (λ i, contractAddresses !! i) results').
  by rewrite Hdata.
Qed.

(** A failed call that returned a non-zero word is reported like a
    successful one. *)
Lemma getNonZeroResults_ignores_success_example :
  (λ r : option string * bool * string, (r.1.1, r.2))
    <$> getNonZeroResults
          [(false, "0x0000000000000000000000000000000000000000000000000000000000000001")]
          ["0xA"]
  = [(Some "0xA", "0x0000000000000000000000000000000000000000000000000000000000000001")].
Proof.
  exact (getNonZeroResults_ignores_success
    [(false, "0x0000000000000000000000000000000000000000000000000000000000000001")]
    [(true, "0x0000000000000000000000000000000000000000000000000000000000000001")]
    ["0xA"] eq_refl).
Defined.

Lemma getNonZeroResults_kept
    (results : list CallResult) (contractAddresses : list string)
    (r : option ContractAddress * Success * ReturnData) :
  r ∈ getNonZeroResults results contractAddresses →
  ∃ (i : nat) s data,
    results !! i = Some (s, data) ∧ nonZeroData data = true
    ∧ r = (contractAddresses !! i, s, data).
Proof.
  unfold getNonZeroResults. rewrite list_elem_of_In, filter_In, <- list_elem_of_In.
  rewrite list_elem_of_lookup.
  intros [[i Hi] Hkeep]. rewrite list_lookup_imap in Hi.
  destruct (results !! i) as [[s data]|] eqn:Hr; [|done].
  injection Hi as <-. by exists i, s, data.
Qed.

(** X4.  What the filter returns on hex return data, whatever the two
    lengths are: an entry is in the output exactly when it is a result
    of exactly 32 bytes that are not all zero, with its own flag and data
    and with the address found at its index.  Past the end of the address
    list that address is [undefined]; an address past the end of the
    results is never used. *)
Theorem getNonZeroResults_entries
    (results : list (Success * list byte)) (contractAddresses : list string)
    (r : option ContractAddress * Success * ReturnData) :
  r ∈ getNonZeroResults (prod_map id hexlify <$> results) contractAddresses
  ↔ ∃ (i : nat) s bs,
      results !! i = Some (s, bs)
      ∧ length bs = 32%nat ∧ bs ≠ replicate 32 x00
      ∧ r = (contractAddresses !! i, s, hexlify bs).
Proof.
  split.
  - intros Hr. apply getNonZeroResults_kept in Hr as (i & s & data & Hi & Hkeep & ->).
    rewrite list_lookup_fmap in Hi.
    destruct (results !! i) as [[s' bs]|] eqn:Hresult; [|done].
    injection Hi as <- <-. apply nonZeroData_hexlify in Hkeep as [Hnz Hlen].
    by exists i, s', bs.
  - intros (i & s & bs & Hi & Hlen & Hnz & ->).
    unfold getNonZeroResults. rewrite list_elem_of_In, filter_In, <- list_elem_of_In.
    rewrite list_elem_of_lookup. split.
    + exists i. by rewrite list_lookup_imap, list_lookup_fmap, Hi.
    + cbn [snd]. by apply nonZeroData_hexlify.
Qed.

(** Two results for one address: the zero word is dropped and the second
    result is kept without address. *)
Lemma getNonZeroResults_entries_example :
  (None, true, hexlify (replicate 31 x00 ++ [x02]))
  ∈ getNonZeroResults
      [(true, hexlify (replicate 32 x00));
       (true, hexlify (replicate 31 x00 ++ [x02]))]
      ["0xA"].
Proof.
  apply (proj2 (getNonZeroResults_entries
                  [(true, replicate 32 x00); (true, replicate 31 x00 ++ [x02])]
                  ["0xA"] _)).
  exists 1%nat, true, (replicate 31 x00 ++ [x02]).
  split; [reflexivity|]. split; [reflexivity|]. split; [discriminate|reflexivity].
Defined.

Lemma byteZ_zero b : byteZ b = 0 → b = x00.
Proof. destruct b; first [done | intros H; by vm_compute in H]. Qed.

Lemma toBigInt_zero bs : toBigInt bs = 0 → bs = replicate (length bs) x00.
Proof.
  induction bs as [|b bs IH]; [done|].
  rewrite toBigInt_cons. intros H.
  pose proof (byteZ_range b). pose proof (toBigInt_range bs) as [? _].
  assert (0 < 256 ^ Z.of_nat (length bs)) by (apply Z.pow_pos_nonneg; lia).
  assert (byteZ b = 0) as Hb by nia.
  assert (toBigInt bs = 0) as Hbs by nia.
  cbn [length replicate]. by rewrite (byteZ_zero b Hb), <- (IH Hbs).
Qed.

(** X5.  Every balance the filter keeps is a positive integer: on return data
    in hex form, each kept entry decodes as a uint256 greater than zero, so
    the decoding in [balancesByContract] never throws on the filter's
    output. *)
Theorem getNonZeroResults_positive
    (results : list (Success * list byte)) (contractAddresses : list string)
    (r : option ContractAddress * Success * ReturnData) :
  r ∈ getNonZeroResults (prod_map id hexlify <$> results) contractAddresses →
  ∃ v, decodeNumber 256 r.2 = Some v ∧ 0 < v < 2 ^ 256.
Proof.
  intros Hr. apply getNonZeroResults_kept in Hr as (i & s & data & Hi & Hkeep & ->).
  rewrite list_lookup_fmap in Hi.
  destruct (results !! i) as [[s' bs]|]; [|done].
  injection Hi as _ <-. apply nonZeroData_hexlify in Hkeep as [Hnz Hlen].
  exists (toBigInt bs). cbn [snd].
  rewrite (decodeNumber_256_word _ bs (getBytes_hexlify bs) Hlen). split; [done|].
  pose proof (toBigInt_range bs) as Hrange. rewrite Hlen in Hrange.
  change (256 ^ Z.of_nat 32) with (2 ^ 256) in Hrange.
  split; [|lia]. destruct (decide (toBigInt bs = 0)) as [H0|]; [|lia].
  apply toBigInt_zero in H0. rewrite Hlen in H0. done.
Qed.

Lemma getNonZeroResults_positive_example :
  ∃ v, decodeNumber 256
         "0x0000000000000000000000000000000000000000000000000000000000000002"
       = Some v ∧ 0 < v < 2 ^ 256.
Proof.
  apply (getNonZeroResults_positive
    [(true, replicate 31 x00 ++ [x02])] ["0xA"]
    (Some "0xA", true,
     "0x0000000000000000000000000000000000000000000000000000000000000002")).
  apply list_elem_of_here.
Defined.

(** ** The metadata decoder: what a successful run has built *)

Section DecodeMetaInvariants.
Variable StringToNumber : string → JsNumber.

(** X6.  With fewer context entries than results the decoder throws. *)
Theorem decodeMetaResults_short_context
    (results : list CallResult) (context : list CallContext) :
  (length context < length results)%nat →
  (decodeMetaResults StringToNumber results context).2 = None.
Proof.
  intros Hlen.
  destruct (lookup_lt_is_Some_2 results (length context) Hlen) as [r Hr].
  rewrite <- (take_drop_middle results (length context) r Hr).
  rewrite decodeMetaResults_app.
  rewrite length_take_le by lia.
  destruct (decodeMetaResults StringToNumber (take (length context) results) context)
    as [console [meta|]]; [|apply decodeMetaStep_thrown].
  unfold decodeMetaStep at 2. destruct r as [s data].
  rewrite (lookup_ge_None_2 context (length context)) by lia.
  apply decodeMetaStep_thrown.
Qed.

Lemma decodeMetaResults_built
    (results : list CallResult) (context : list CallContext) console meta :
  decodeMetaResults StringToNumber results context = (console, Some meta) →
  (length results ≤ length context)%nat
  ∧ dom meta = list_to_set (contractAddress <$> take (length results) context)
  ∧ ∀ a m, is_Some (meta !! a ≫= (.!! m))
           ↔ {| contractAddress := a; methodName := m |}
               ∈ take (length results) context.
Proof.
  revert console meta. induction results as [|[s data] rs IH] using rev_ind;
    intros console meta Hrun.
  - injection Hrun as <- <-. split; [simpl; lia|]. split; [by rewrite dom_empty_L|].
    intros a m. rewrite lookup_empty. simpl. split; [by intros [? ?]|].
    intros H. by apply elem_of_nil in H.
  - apply decodeMetaResults_snoc_Some in Hrun
      as (console0 & meta0 & c & notices & v & Hrun0 & Hc & _ & _ & ->).
    destruct (IH _ _ Hrun0) as (Hlen & Hdom & Hfields).
    apply lookup_lt_Some in Hc as Hlt.
    rewrite length_app. cbn [length]. rewrite Nat.add_1_r.
    rewrite (take_S_r _ _ _ Hc). split; [lia|]. split.
    + rewrite dom_insert_L, Hdom, fmap_app, list_to_set_app_L. simpl.
      rewrite (right_id_L ∅ (∪)). apply (comm_L (∪)).
    + intros a m. rewrite lookup_field_insert, elem_of_app, <- Hfields.
      rewrite list_elem_of_singleton. destruct c as [ca cm]. cbn [contractAddress methodName].
      destruct (decide (ca = a ∧ cm = m)) as [[-> ->]|Hne].
      * split; [by right|]. by eexists.
      * split; [by left|]. intros [H|[= -> ->]]; [done|]. by destruct Hne.
Qed.

(** X7.  The keys of a successful run: there are at least as many context
    entries as results, the object has one record per contract address
    among the context entries used (one per result), and the fields of a
    record are exactly the methods asked of its address. *)
Theorem decodeMetaResults_records
    (results : list CallResult) (context : list CallContext) console meta :
  decodeMetaResults StringToNumber results context = (console, Some meta) →
  (length results ≤ length context)%nat
  ∧ dom meta = list_to_set (contractAddress <$> take (length results) context)
  ∧ ∀ a fields, meta !! a = Some fields →
      dom fields = list_to_set (methodsAsked context (length results) a).
Proof.
  intros Hrun. destruct (decodeMetaResults_built _ _ _ _ Hrun) as (Hlen & Hdom & Hfields).
  split; [done|]. split; [done|]. intros a fields Ha.
  apply set_eq. intros m. specialize (Hfields a m). rewrite Ha in Hfields.
  cbn [mbind option_bind] in Hfields.
  rewrite elem_of_dom, Hfields, elem_of_list_to_set.
  unfold methodsAsked. rewrite list_elem_of_fmap. split.
  - intros Hin. exists {| contractAddress := a; methodName := m |}.
    split; [done|]. by apply list_elem_of_filter.
  - intros ([ca cm] & -> & Hin). apply list_elem_of_filter in Hin as [Hca Hin].
    simpl in Hca. by subst ca.
Qed.

(** X8.  The value of a field after a successful run is the one decoded from
    the last result whose context entry names that address and method:
    later entries overwrite, entries for other fields leave it alone. *)
Theorem decodeMetaResults_last_value
    (results : list CallResult) (context : list CallContext) console meta
    (i : nat) s data c :
  decodeMetaResults StringToNumber results context = (console, Some meta) →
  results !! i = Some (s, data) → context !! i = Some c →
  (∀ (j : nat) c', (i < j < length results)%nat → context !! j = Some c' → c' ≠ c) →
  ∃ notices v,
    decodeMethodValue (methodName c) (contractAddress c) data = (notices, Some v)
    ∧ meta !! contractAddress c ≫= (.!! methodName c)
      = Some (if String.eqb (methodName c) "decimals"
              then Number StringToNumber v else v).
Proof.
  revert console meta. induction results as [|[s' data'] rs IH] using rev_ind;
    intros console meta Hrun Hr Hc Hlast; [done|].
  apply decodeMetaResults_snoc_Some in Hrun
    as (console0 & meta0 & c' & notices & v & Hrun0 & Hc' & Hval & _ & ->).
  rewrite lookup_field_insert.
  destruct (decide (i < length rs)%nat) as [Hi|Hi].
  - rewrite lookup_app_l in Hr by done.
    assert (c' ≠ c) as Hne.
    { apply (Hlast (length rs)); [|done]. rewrite length_app. simpl. lia. }
    rewrite decide_False.
    2:{ intros [Ha Hm]. apply Hne. destruct c', c. simpl in *. congruence. }
    eapply IH; [done..|]. intros j c'' Hj. apply Hlast.
    rewrite length_app. simpl. lia.
  - assert (i = length rs) as ->.
    { apply lookup_lt_Some in Hr. rewrite length_app in Hr. simpl in Hr. lia. }
    rewrite list_lookup_middle in Hr by done. injection Hr as -> ->.
    rewrite Hc in Hc'. injection Hc' as <-.
    exists notices, v. split; [done|]. by rewrite decide_True.
Qed.

(** X9.  The kinds of values a successful run stores: decimals is always an
    integer from 0 to 255, symbol and name are always strings. *)
Theorem decodeMetaResults_field_types
    (results : list CallResult) (context : list CallContext) console meta :
  decodeMetaResults StringToNumber results context = (console, Some meta) →
  ∀ a value,
    (meta !! a ≫= (.!! "decimals") = Some value →
       ∃ z, 0 ≤ z < 256 ∧ value = VNumber (NumInt z))
    ∧ (∀ m, m = "symbol" ∨ m = "name" →
       meta !! a ≫= (.!! m) = Some value → ∃ text, value = VString text).
Proof.
  revert console meta. induction results as [|[s data] rs IH] using rev_ind;
    intros console meta Hrun a value.
  - injection Hrun as <- <-. rewrite lookup_empty. by split; [|intros m _].
  - apply decodeMetaResults_snoc_Some in Hrun
      as (console0 & meta0 & c & notices & v & Hrun0 & _ & Hval & _ & ->).
    destruct (IH _ _ Hrun0 a value) as [IHd IHs]. split.
    + rewrite lookup_field_insert.
      destruct (decide (contractAddress c = a ∧ methodName c = "decimals"))
        as [[_ Hm]|_]; [|done].
      rewrite Hm in *. cbn. intros [= <-].
      apply (decodeMethodValue_decimals_value StringToNumber) in Hval
        as (_ & z & Hz & -> & _). by exists z.
    + intros m Hm. rewrite lookup_field_insert.
      destruct (decide (contractAddress c = a ∧ methodName c = m))
        as [[_ Hcm]|_]; [|by apply IHs].
      rewrite Hcm in *.
      assert (String.eqb m "decimals" = false) as -> by (by destruct Hm as [-> | ->]).
      intros [= <-]. unfold decodeMethodValue in Hval.
      assert (fragmentTypes m = Some string_) as Hty by (by destruct Hm as [-> | ->]).
      rewrite Hty in Hval. cbn [decode mbind option_bind] in Hval.
      destruct (decodeString data) as [text|]; cbn in Hval.
      * injection Hval as _ <-. by eexists.
      * destruct (decodeBytes32String data) as [text|]; cbn in Hval; [|done].
        injection Hval as _ <-. by eexists.
Qed.

End DecodeMetaInvariants.

(** ** The normalizer: errors and what it leaves untouched *)

(** X11.  A metadata key without raw balance, or with raw data shorter than one
    word, makes [balancesByContract] throw, whatever the other entries
    are. *)
Theorem balancesByContract_missing_balance
    (meta : gmap string (gmap string JsValue)) (raw : gmap string ReturnData)
    (formatBalance : bool) k :
  k ∈ dom meta →
  (raw !! k = None
   ∨ ∃ data bs, raw !! k = Some data ∧ getBytes data = Some bs
                ∧ (length bs < 32)%nat) →
  balancesByContract meta raw formatBalance = None.
Proof.
  intros Hk Hbad.
  destruct (balancesByContract meta raw formatBalance) as [res|] eqn:Hrun; [|done].
  apply balancesByContract_lookup in Hrun as [Hin _].
  destruct (Hin k Hk) as (ti & Hti & _). exfalso.
  unfold tokenInfo in Hti. apply elem_of_dom in Hk as [info Hinfo].
  rewrite Hinfo in Hti. cbn [mbind option_bind] in Hti.
  destruct Hbad as [Hnone|(data & bs & Hdata & Hbs & Hlen)].
  - by rewrite Hnone in Hti.
  - rewrite Hdata in Hti. cbn [mbind option_bind] in Hti.
    unfold decodeNumber, readValue in Hti. rewrite Hbs in Hti.
    cbn [mbind option_bind] in Hti.
    by destruct (Nat.ltb_spec (length bs) 32); [|lia].
Qed.

(** X12.  The records returned are the metadata records with one field added:
    [balanceOf] is a string (an earlier [balanceOf] field is replaced) and
    every other field is the one of the metadata. *)
Theorem balancesByContract_keeps_metadata
    (meta : gmap string (gmap string JsValue)) (raw : gmap string ReturnData)
    (formatBalance : bool) res k info :
  balancesByContract meta raw formatBalance = Some res →
  meta !! k = Some info →
  ∃ record balance,
    res !! k = Some record
    ∧ record !! "balanceOf" = Some (VString balance)
    ∧ ∀ field, field ≠ "balanceOf" → record !! field = info !! field.
Proof.
  intros Hrun Hinfo. apply balancesByContract_lookup in Hrun as [Hin _].
  destruct (Hin k) as (ti & Hti & Hres); [apply elem_of_dom; by eexists|].
  unfold tokenInfo in Hti. rewrite Hinfo in Hti. cbn [mbind option_bind] in Hti.
  destruct (raw !! k) as [data|]; [|done]. cbn [mbind option_bind] in Hti.
  destruct (decodeNumber 256 data) as [v|]; [|done]. cbn [mbind option_bind] in Hti.
  destruct (if formatBalance then formatUnits (pretty v) (info !! "decimals")
            else Some (pretty v)) as [balance|]; [|done].
  cbn [mbind option_bind] in Hti. injection Hti as <-.
  exists (<["balanceOf" := VString balance]> info), balance.
  split; [done|]. split; [apply lookup_insert_eq|].
  intros field Hne. by rewrite lookup_insert_ne.
Qed.

(** X13.  A metadata record without decimals field is formatted with 18
    decimals, the default unit of [formatUnits]: the string denotes
    exactly v / 10^18. *)
Theorem balancesByContract_default_decimals
    (meta : gmap string (gmap string JsValue)) (raw : gmap string ReturnData)
    res k info data bs :
  balancesByContract meta raw true = Some res →
  meta !! k = Some info → info !! "decimals" = None →
  raw !! k = Some data → getBytes data = Some bs → length bs = 32%nat →
  ∃ balance m (digits : nat),
    res !! k = Some (<["balanceOf" := VString balance]> info)
    ∧ balance = fixedToString (toBigInt bs) 18
    ∧ readFixed balance = Some (m, digits)
    ∧ m * 10 ^ (18 - Z.of_nat digits) = toBigInt bs.
Proof.
  intros Hrun Hinfo Hdec Hdata Hbs Hlen.
  apply balancesByContract_lookup in Hrun as [Hin _].
  destruct (Hin k) as (ti & Hti & Hres); [apply elem_of_dom; by eexists|].
  unfold tokenInfo in Hti. rewrite Hinfo, Hdata in Hti. cbn [mbind option_bind] in Hti.
  rewrite (decodeNumber_256_word data bs Hbs Hlen), Hdec in Hti.
  cbn [mbind option_bind] in Hti.
  pose proof (toBigInt_range bs) as [Hv0 Hv1]. rewrite Hlen in Hv1.
  unfold formatUnits in Hti. cbn [mbind option_bind] in Hti.
  change (80 <? 18) with false in Hti. cbv iota in Hti.
  rewrite getBigInt_pretty in Hti by done. cbn [mbind option_bind] in Hti.
  destruct ((- 2 ^ 511 <=? toBigInt bs) && (toBigInt bs <? 2 ^ 511)); [|done].
  cbn [mbind option_bind] in Hti. injection Hti as <-.
  destruct (fixedToString_value (toBigInt bs) 18 Hv0 ltac:(lia)) as (m & digits & Hread & _ & Hval & _).
  by exists (fixedToString (toBigInt bs) 18), m, digits.
Qed.

(** ** The address resolver: requests and provider failures *)

Section GetAddressRequests.
Variable isAddress : string → bool.

(** X14.  What [getAddress] asks of the provider: at most the network and then
    the name, in this order; the name is resolved only on chain 1, and never
    after the network request has failed.  A failure of either request is
    passed on unchanged: of the network request, and on chain 1 of the
    name resolution; these are the only provider failures it reports. *)
Theorem getAddress_requests (input : string) (provider : Provider) :
  let outcome := getAddress isAddress input provider in
  (outcome.1 = [] ∨ outcome.1 = [GetNetwork]
   ∨ outcome.1 = [GetNetwork; ResolveName input])
  ∧ (ResolveName input ∈ outcome.1 →
       isAddress input = false ∧ getNetwork provider = inr 1)
  ∧ (∀ reason, outcome.2 = inl (ProviderFailure reason) →
       getNetwork provider = inl reason
       ∨ (getNetwork provider = inr 1 ∧ resolveName provider input = inl reason))
  ∧ (∀ reason, isAddress input = false → getNetwork provider = inl reason →
       outcome = ([GetNetwork], inl (ProviderFailure reason)))
  ∧ (∀ reason, isAddress input = false → getNetwork provider = inr 1 →
       resolveName provider input = inl reason →
       outcome = ([GetNetwork; ResolveName input], inl (ProviderFailure reason))).
Proof.
  unfold getAddress. cbn zeta.
  destruct (isAddress input).
  { split; [by left|]. split; [intros H; by apply elem_of_nil in H|].
    split; [done|]. by split. }
  destruct (getNetwork provider) as [reason|chainId].
  { split; [by right; left|]. split.
    - intros H. apply list_elem_of_singleton in H. done.
    - split; [intros r [= ->]; by left|]. split; [by intros r _ [= ->]|done]. }
  destruct (Z.eqb_spec chainId 1) as [E|Hne].
  - subst chainId.
    destruct (resolveName provider input) as [reason|[address|]].
    + split; [by right; right|]. split; [done|]. split; [|split; [done|]].
      * intros r [= ->]. by right.
      * by intros r _ _ [= ->].
    + destruct (String.eqb address "");
        (split; [by right; right|]; split; [done|]; split; [done|]; by split).
    + split; [by right; right|]. split; [done|]. split; [done|]. by split.
  - split; [by right; left|]. split.
    + intros H. apply list_elem_of_singleton in H. done.
    + split; [done|]. split; [done|]. intros r _ [= E]. by destruct Hne.
Qed.
End GetAddressRequests.

(** ** Compliant return data: the path without fallback *)

Lemma toBigInt_zeros k : toBigInt (replicate k x00) = 0.
Proof. induction k as [|k IH]; [done|]. cbn [replicate]. by rewrite toBigInt_cons, IH. Qed.

Lemma toBigInt_app bs1 bs2 :
  toBigInt (bs1 ++ bs2) = toBigInt bs1 * 256 ^ Z.of_nat (length bs2) + toBigInt bs2.
Proof.
  unfold toBigInt at 1. rewrite fold_left_app, toBigInt_fold. done.
Qed.

Lemma byteZ_of_nat (n : nat) : (n < 256)%nat → byteZ (default x00 (Byte.of_nat n)) = Z.of_nat n.
Proof.
  intros Hn. destruct (Byte.of_nat n) as [b|] eqn:Hb.
  - apply Byte.to_of_nat in Hb. unfold byteZ. simpl.
    rewrite Byte.to_N_via_nat. rewrite Hb. lia.
  - apply Byte.of_nat_None_iff in Hb. lia.
Qed.

Lemma length_smallWord n : length (smallWord n) = 32%nat.
Proof. reflexivity. Qed.

Lemma toBigInt_smallWord (n : nat) : (n < 256)%nat → toBigInt (smallWord n) = Z.of_nat n.
Proof.
  intros Hn. unfold smallWord. rewrite toBigInt_app, toBigInt_zeros.
  unfold toBigInt. cbn [fold_left length]. rewrite byteZ_of_nat by done. lia.
Qed.

Lemma decodeNumber_smallWord bits (n : nat) :
  (n < 256)%nat → 8 ≤ bits →
  decodeNumber bits (hexlify (smallWord n)) = Some (Z.of_nat n).
Proof.
  intros Hn Hbits. unfold decodeNumber. rewrite getBytes_hexlify. cbn [mbind option_bind].
  rewrite readValue_word by done. cbn [mbind option_bind].
  rewrite toBigInt_smallWord by done. f_equal.
  replace (2 ^ bits - 1) with (Z.ones bits) by (rewrite Z.ones_equiv; lia).
  rewrite Z.land_ones by lia. apply Z.mod_small. split; [lia|].
  apply Z.lt_le_trans with (2 ^ 8); [lia|]. apply Z.pow_le_mono_r; lia.
Qed.

Lemma readIndex_smallWord (n : nat) rest :
  (n < 256)%nat → readIndex (smallWord n ++ rest) = Some (Z.of_nat n).
Proof.
  intros Hn. unfold readIndex, readValue. rewrite length_app, length_smallWord.
  destruct (Nat.ltb_spec (32 + length rest) 32) as [|_]; [lia|].
  rewrite take_app_length' by done. cbn [mbind option_bind].
  rewrite toBigInt_smallWord by done.
  destruct (Z.leb_spec (Z.of_nat n) MAX_SAFE_INTEGER) as [_|Hbig]; [done|].
  unfold MAX_SAFE_INTEGER in Hbig. lia.
Qed.

Lemma sliceFrom_smallWord n rest : sliceFrom 32 (smallWord n ++ rest) = rest.
Proof.
  unfold sliceFrom. rewrite length_app, length_smallWord.
  destruct (Z.leb_spec (Z.of_nat (32 + length rest)) 32) as [Hle|_].
  - destruct rest; [done|]. simpl in Hle. lia.
  - change (Z.to_nat 32) with 32%nat. by rewrite drop_app_length'.
Qed.

Lemma abi_aligned (len : nat) :
  (Z.of_nat len + 31) `div` 32 * 32
  = Z.of_nat len + Z.of_nat (Z.to_nat ((- Z.of_nat len) `mod` 32)).
Proof.
  pose proof (Z.mod_pos_bound (- Z.of_nat len) 32 ltac:(lia)) as Hr.
  pose proof (Z.div_mod (- Z.of_nat len) 32 ltac:(lia)) as Hdm.
  set (r := (- Z.of_nat len) `mod` 32) in *.
  set (q := (- Z.of_nat len) `div` 32) in *.
  rewrite Z2Nat.id by lia.
  rewrite <- (Z.div_unique (Z.of_nat len + 31) 32 (- q) (31 - r)); lia.
Qed.

Lemma decodeString_abiString text :
  Forall (λ b, 0 < byteZ b < 128) text → (length text < 256)%nat →
  decodeString (hexlify (abiString text)) = Some (string_of_list_byte text).
Proof.
  intros Hascii Hlen. unfold decodeString. rewrite getBytes_hexlify.
  cbn [mbind option_bind]. unfold abiString.
  set (pad := Z.to_nat ((- Z.of_nat (length text)) `mod` 32)).
  rewrite readIndex_smallWord by lia. cbn [mbind option_bind].
  change (Z.of_nat 32) with 32. rewrite sliceFrom_smallWord.
  rewrite readIndex_smallWord by done. cbn [mbind option_bind].
  rewrite abi_aligned. fold pad.
  rewrite !length_app, length_smallWord, length_replicate.
  destruct (Z.ltb_spec (Z.of_nat (32 + (length text + pad)))
              (32 + (Z.of_nat (length text) + Z.of_nat pad))) as [|_]; [lia|].
  rewrite drop_app_length' by done. rewrite Nat2Z.id, take_app_length.
  unfold toUtf8String. by rewrite utf8Valid_ascii.
Qed.

Section CompliantToken.
Variable encode : string → string.
Variable StringToNumber : string → JsNumber.

(** X15.  A token that answers symbol(), decimals() and name() by the ABI (two
    dynamic strings of ASCII text and one uint8 word) is decoded without any
    notice into a record with exactly these three values. *)
Theorem decodeMetaResults_compliant
    (a : string) (s : Success) (balance : ReturnData) (s1 s2 s3 : Success)
    (symbol name : list byte) (decimals : nat) :
  Forall (λ b, 0 < byteZ b < 128) symbol → (length symbol < 256)%nat →
  Forall (λ b, 0 < byteZ b < 128) name → (length name < 256)%nat →
  (decimals < 256)%nat →
  decodeMetaResults StringToNumber
    [(s1, hexlify (abiString symbol));
     (s2, hexlify (smallWord decimals));
     (s3, hexlify (abiString name))]
    (context (buildCallsContext encode [(a, s, balance)]))
  = ([],
     Some {[ a := <["name" := VString (string_of_list_byte name)]>
                    (<["decimals" := VNumber (NumInt (Z.of_nat decimals))]>
                       {[ "symbol" := VString (string_of_list_byte symbol) ]}) ]}).
Proof.
  intros Hsym Hsymlen Hname Hnamelen Hdec.
  unfold decodeMetaResults. cbn [imap foldl buildCallsContext context map flat_map
    methodNames app fst snd compose].
  unfold decodeMetaStep, decodeMethodValue.
  cbn [lookup list_lookup methodName contractAddress].
  change (fragmentTypes "symbol") with (Some string_).
  change (fragmentTypes "decimals") with (Some uint8).
  change (fragmentTypes "name") with (Some string_).
  cbn [decode mbind option_bind].
  rewrite !decodeString_abiString by done.
  rewrite decodeNumber_smallWord by (done || lia).
  cbn [fmap option_fmap option_map String.eqb Ascii.eqb Bool.eqb Number app].
  rewrite lookup_empty. cbn [default from_option].
  rewrite !lookup_insert_eq. cbn [default from_option].
  rewrite !insert_insert_eq, insert_empty. done.
Qed.
End CompliantToken.

(** A token with symbol "DAI", 18 decimals and name "Dai". *)
Lemma decodeMetaResults_compliant_example :
  decodeMetaResults (λ _, NumNaN)
    [(true, hexlify (abiString [x44; x41; x49]));
     (true, hexlify (smallWord 18));
     (true, hexlify (abiString [x44; x61; x69]))]
    (context (buildCallsContext erc20Selectors [("0xD", true, "0x01")]))
  = ([], Some {[ "0xD" := <["name" := VString "Dai"]>
                           (<["decimals" := VNumber (NumInt 18)]>
                              {[ "symbol" := VString "DAI" ]}) ]}).
Proof.
  apply (decodeMetaResults_compliant erc20Selectors (λ _, NumNaN)
           "0xD" true "0x01" true true true [x44; x41; x49] [x44; x61; x69] 18).
  - repeat constructor.
  - simpl. lia.
  - repeat constructor.
  - simpl. lia.
  - lia.
Defined.

(** ** The pipeline of [getTokenBalances] *)

Lemma filter_fmap {A B} (f : A → B) (P : B → bool) (l : list A) :
  List.filter P (f <$> l) = f <$> List.filter (λ a, P (f a)) l.
Proof.
  induction l as [|a l IH]; [done|]. cbn. destruct (P (f a)); cbn; by rewrite IH.
Qed.

Lemma foldl_app_concat {A} (ls : list (list A)) (acc : list A) :
  foldl (λ acc res, acc ++ res) acc ls = acc ++ concat ls.
Proof.
  revert acc. induction ls as [|l ls IH]; intros acc; cbn.
  - by rewrite app_nil_r.
  - by rewrite IH, app_assoc.
Qed.

Lemma concat_kept {A B} (f : A → B) (P : A → bool) (groups : list (list A)) :
  concat ((λ group, f <$> List.filter P group) <$> groups)
  = f <$> List.filter P (concat groups).
Proof.
  induction groups as [|g gs IH]; [done|]. cbn.
  by rewrite IH, List.filter_app, fmap_app.
Qed.

Lemma mapM_total {A B} (f : A → option B) (g : A → B) (l : list A) :
  (∀ x, f x = Some (g x)) → mapM f l = Some (g <$> l).
Proof.
  intros Hf. induction l as [|x l IH]; [done|]. cbn. by rewrite Hf, IH.
Qed.

Lemma mapM_definedResult (rs : list AssociatedCallResult) :
  mapM definedResult ((λ r, (Some r.1.1, r.1.2, r.2)) <$> rs) = Some rs.
Proof.
  induction rs as [|[[a s] d] rs IH]; [done|]. cbn. cbn in IH. by rewrite IH.
Qed.

Lemma getNonZeroResults_answers (h : string → CallResult) (addrs : list string) :
  getNonZeroResults (h <$> addrs) addrs
  = (λ r, (Some r.1.1, r.1.2, r.2)) <$> heldTokens h addrs.
Proof.
  rewrite getNonZeroResults_zip by (by rewrite length_fmap).
  rewrite zip_with_fmap_r, zip_with_diag, filter_fmap.
  unfold heldTokens. by rewrite <- list_fmap_compose.
Qed.

Lemma elem_of_heldTokens (h : string → CallResult) (addrs : list string) a :
  a ∈ addressOf <$> heldTokens h addrs
  ↔ a ∈ addrs ∧ nonZeroData (h a).2 = true.
Proof.
  unfold heldTokens. rewrite <- list_fmap_compose.
  rewrite list_elem_of_fmap. split.
  - intros (x & -> & Hx). apply list_elem_of_In, List.filter_In in Hx as [Hin Hnz].
    split; [by apply list_elem_of_In|done].
  - intros [Hin Hnz]. exists a. split; [done|].
    apply list_elem_of_In, List.filter_In. split; [by apply list_elem_of_In|done].
Qed.

(** The context built for a list of results names each of its addresses
    with each of the three methods, and nothing else. *)
Lemma elem_of_built_context encode (rs : list AssociatedCallResult) a m :
  {| contractAddress := a; methodName := m |} ∈ context (buildCallsContext encode rs)
  ↔ a ∈ addressOf <$> rs ∧ m ∈ methodNames.
Proof.
  induction rs as [|r rs IH].
  - cbn. split; [intros H; by apply elem_of_nil in H|].
    intros [H _]. by apply elem_of_nil in H.
  - rewrite buildCallsContext_cons. cbn [context]. rewrite elem_of_app, IH.
    rewrite fmap_cons, elem_of_cons. unfold methodNames.
    rewrite !elem_of_cons, !elem_of_nil. split.
    + intros [[H|[H|[H|H]]]|[Ha Hm]].
      * injection H as -> ->. split; [by left|]. by left.
      * injection H as -> ->. split; [by left|]. right; by left.
      * injection H as -> ->. split; [by left|]. right; right; by left.
      * done.
      * split; [by right|done].
    + intros [[->|Ha] Hm].
      * left. destruct Hm as [->|[->|[->|[]]]].
        -- by left.
        -- right; by left.
        -- right; right; by left.
      * right. by split.
Qed.

Lemma built_context_addresses encode (rs : list AssociatedCallResult) :
  list_to_set (C := gset string)
    (contractAddress <$> context (buildCallsContext encode rs))
  = list_to_set (addressOf <$> rs).
Proof.
  induction rs as [|r rs IH]; [done|].
  rewrite buildCallsContext_cons. cbn [context]. rewrite fmap_app, list_to_set_app_L, IH.
  cbn [fmap list_fmap contractAddress list_to_set].
  rewrite !(right_id_L ∅ (∪)), !(idemp_L (∪)). done.
Qed.

Lemma built_meta_keys StringToNumber encode (rs : list AssociatedCallResult)
    (results : list CallResult) console meta :
  length results = (3 * length rs)%nat →
  decodeMetaResults StringToNumber results (context (buildCallsContext encode rs))
    = (console, Some meta) →
  dom meta = list_to_set (addressOf <$> rs)
  ∧ ∀ a fields, meta !! a = Some fields → dom fields = list_to_set methodNames.
Proof.
  intros Hlen Hrun.
  destruct (decodeMetaResults_built _ _ _ _ _ Hrun) as (_ & Hdom & Hfields).
  destruct (buildCallsContext_lengths encode rs) as [_ Hctx].
  rewrite take_ge in Hdom, Hfields by lia.
  rewrite built_context_addresses in Hdom. split; [done|].
  intros a fields Ha. apply set_eq. intros m.
  specialize (Hfields a m). rewrite Ha in Hfields. cbn [mbind option_bind] in Hfields.
  rewrite elem_of_dom, Hfields, elem_of_built_context, elem_of_list_to_set.
  split; [by intros [_ ?]|]. intros Hm. split; [|done].
  rewrite <- (elem_of_list_to_set (C := gset string)), <- Hdom.
  apply elem_of_dom. by eexists.
Qed.

(** X16.  The decoder after the call builder: run on the context built for a
    list of results, a successful decode gives records only for contracts
    that have a raw balance; with one metadata result per call it gives a
    record for each of them, with exactly the fields symbol, decimals and
    name. *)
Theorem decodeMetaResults_after_build StringToNumber encode
    (rs : list AssociatedCallResult) (results : list CallResult) console meta :
  decodeMetaResults StringToNumber results (context (buildCallsContext encode rs))
    = (console, Some meta) →
  dom meta ⊆ dom (resultDataByContract rs)
  ∧ (length results = (3 * length rs)%nat →
     dom meta = dom (resultDataByContract rs)
     ∧ ∀ a fields, meta !! a = Some fields →
         dom fields = list_to_set ["symbol"; "decimals"; "name"]).
Proof.
  intros Hrun. split.
  - destruct (decodeMetaResults_built _ _ _ _ _ Hrun) as (_ & Hdom & _).
    rewrite Hdom, resultDataByContract_dom, <- (built_context_addresses encode).
    intros a. rewrite !elem_of_list_to_set, !list_elem_of_fmap.
    intros (c & -> & Hc). exists c. split; [done|].
    by apply (subseteq_take (length results)).
  - intros Hlen. rewrite resultDataByContract_dom.
    by apply (built_meta_keys StringToNumber encode rs results console).
Qed.

Section Pipeline.
Variable isAddress : string → bool.
Variable encodeFunctionData : string → list string → string.
Variable StringToNumber : string → JsNumber.

Lemma aggregate_answers provider multicall answer calls :
  answersEachCall provider multicall answer →
  aggregate calls provider multicall = Some (answer <$> calls).
Proof.
  intros Hanswers. unfold aggregate.
  destruct (Hanswers calls) as (blockNumber & blockHash & ->). done.
Qed.

Lemma balanceCalls_valid address (group : list string) :
  isAddress address = true →
  balanceCalls isAddress encodeFunctionData address group
  = Some ((λ contractAddress,
             {| target := contractAddress;
                callData := encodeFunctionData "balanceOf" [address] |}) <$> group).
Proof.
  intros Hvalid. unfold balanceCalls. apply mapM_total. intros a. by rewrite Hvalid.
Qed.

Lemma balanceCalls_invalid address (group : list string) :
  isAddress address = false → group ≠ [] →
  balanceCalls isAddress encodeFunctionData address group = None.
Proof.
  intros Hinvalid Hgroup. destruct group as [|a group]; [done|].
  unfold balanceCalls. cbn. by rewrite Hinvalid.
Qed.

Lemma fetchRawBalances_valid provider multicall answer address group :
  answersEachCall provider multicall answer →
  isAddress address = true ∨ group = [] →
  fetchRawBalances isAddress encodeFunctionData address group multicall provider
  = Some ((λ r, (Some r.1.1, r.1.2, r.2))
            <$> heldTokens (balanceAnswer encodeFunctionData answer address) group).
Proof.
  intros Hanswers [Hvalid| ->]; unfold fetchRawBalances.
  - rewrite (balanceCalls_valid _ _ Hvalid). cbn [mbind option_bind].
    rewrite (aggregate_answers _ _ _ _ Hanswers). cbn [mbind option_bind].
    rewrite <- list_fmap_compose.
    exact (f_equal Some (getNonZeroResults_answers
             (balanceAnswer encodeFunctionData answer address) group)).
  - cbn [balanceCalls mapM mret option_ret mbind option_bind].
    by rewrite (aggregate_answers _ _ _ _ Hanswers).
Qed.

Lemma fetchRawBalances_invalid provider multicall address group :
  isAddress address = false → group ≠ [] →
  fetchRawBalances isAddress encodeFunctionData address group multicall provider = None.
Proof.
  intros Hinvalid Hgroup. unfold fetchRawBalances.
  by rewrite (balanceCalls_invalid _ _ Hinvalid Hgroup).
Qed.

(** X17.  With a valid holder address (or an empty group), behind a
    multicall contract that answers one result per call,
    [fetchRawBalances] returns, in the order of the group, the contracts
    whose balanceOf answer is a non-zero word of the expected length, each
    with its own address and its own answer.  With an invalid holder
    address and a group that is not empty it throws, whatever the
    provider is: the call data cannot be encoded. *)
Theorem fetchRawBalances_kept provider multicall answer address group :
  (answersEachCall provider multicall answer →
   isAddress address = true ∨ group = [] →
   fetchRawBalances isAddress encodeFunctionData address group multicall provider
   = Some ((λ r, (Some r.1.1, r.1.2, r.2))
             <$> heldTokens (balanceAnswer encodeFunctionData answer address) group))
  ∧ (isAddress address = false → group ≠ [] →
     fetchRawBalances isAddress encodeFunctionData address group multicall provider
     = None).
Proof.
  split.
  - apply fetchRawBalances_valid.
  - apply fetchRawBalances_invalid.
Qed.

Lemma concat_nonempty {A} (groups : list (list A)) :
  concat groups ≠ [] → ∃ group, group ∈ groups ∧ group ≠ [].
Proof.
  induction groups as [|g gs IH]; [done|]. cbn [concat]. intros Hne.
  destruct g as [|x g].
  - destruct (IH Hne) as (group & Hin & Hgroup). exists group.
    split; [by apply list_elem_of_further|done].
  - exists (x :: g). split; [apply list_elem_of_here|done].
Qed.

(** With a holder that is not a valid address and a list of contracts
    that is not empty, the call is rejected for every group size. *)
Lemma getTokenBalances_invalid_holder request address :
  (getAddress isAddress (addressOrName request) (node (provider request))).2
    = inr address →
  isAddress address = false → contractAddresses request ≠ [] →
  getTokenBalances isAddress encodeFunctionData StringToNumber request = None.
Proof.
  intros Haddress Hinvalid Hlist. unfold getTokenBalances. rewrite Haddress.
  fold (multicallOf request).
  destruct (concat_nonempty
              (chunk (contractAddresses request) (default 500 (chunkSize request))))
    as (group & Hin & Hgroup); [by rewrite chunk_concat|].
  assert (mapM (λ chunk, fetchRawBalances isAddress encodeFunctionData address chunk
                           (multicallOf request) (provider request))
            (chunk (contractAddresses request) (default 500 (chunkSize request)))
          = None) as ->; [|done].
  apply mapM_None. apply Exists_exists. exists group. split; [done|].
  by apply fetchRawBalances_invalid.
Qed.

(** Behind such a contract, and with a valid holder address (or no
    contract at all), [getTokenBalances] is the metadata decoder and the
    normalizer run on the held tokens of the whole list. *)
Lemma getTokenBalances_answers request answer address :
  answersEachCall (provider request) (multicallOf request) answer →
  (getAddress isAddress (addressOrName request) (node (provider request))).2
    = inr address →
  isAddress address = true ∨ contractAddresses request = [] →
  getTokenBalances isAddress encodeFunctionData StringToNumber request
  = (let held := heldTokens (balanceAnswer encodeFunctionData answer address)
                   (contractAddresses request) in
     let cc := buildCallsContext (λ methodName, encodeFunctionData methodName []) held in
     decoded ← (decodeMetaResults StringToNumber (answer <$> calls cc) (context cc)).2;
     balancesByContract decoded (resultDataByContract held)
       (default true (formatBalance request))).
Proof.
  intros Hanswers Haddress Hvalid. unfold getTokenBalances. rewrite Haddress.
  fold (multicallOf request).
  assert (mapM (λ chunk, fetchRawBalances isAddress encodeFunctionData address chunk
                           (multicallOf request) (provider request))
            (chunk (contractAddresses request) (default 500 (chunkSize request)))
          = Some ((λ group, (λ r, (Some r.1.1, r.1.2, r.2))
                     <$> heldTokens (balanceAnswer encodeFunctionData answer address)
                           group)
                    <$> chunk (contractAddresses request)
                          (default 500 (chunkSize request)))) as ->.
  { destruct Hvalid as [Hvalid|Hnone].
    - apply mapM_total. intros group. apply fetchRawBalances_valid; [done|by left].
    - by rewrite Hnone. }
  cbn [mbind option_bind]. rewrite foldl_app_concat. cbn [app].
  unfold heldTokens at 1.
  rewrite (list_fmap_ext _
             (λ group, ((λ r : AssociatedCallResult, (Some r.1.1, r.1.2, r.2))
                        ∘ (λ a, (a, (balanceAnswer encodeFunctionData answer address a).1,
                                 (balanceAnswer encodeFunctionData answer address a).2)))
                       <$> List.filter
                             (λ a, nonZeroData
                                     (balanceAnswer encodeFunctionData answer address a).2)
                             group)
             (chunk (contractAddresses request) (default 500 (chunkSize request))))
    by (intros i group _; by rewrite <- list_fmap_compose).
  rewrite concat_kept, chunk_concat, list_fmap_compose.
  change ((λ a, (a, (balanceAnswer encodeFunctionData answer address a).1,
                 (balanceAnswer encodeFunctionData answer address a).2))
            <$> List.filter
                  (λ a, nonZeroData (balanceAnswer encodeFunctionData answer address a).2)
                  (contractAddresses request))
    with (heldTokens (balanceAnswer encodeFunctionData answer address)
            (contractAddresses request)).
  rewrite mapM_definedResult. cbn [mbind option_bind].
  by rewrite (aggregate_answers _ _ _ _ Hanswers).
Qed.

(** X18.  The group size does not change the result: behind a multicall contract
    that answers one result per call, any [chunkSize] (also none, zero or
    a negative one) gives what the request gives. *)
Theorem getTokenBalances_chunk_size request answer size :
  answersEachCall (provider request) (multicallOf request) answer →
  getTokenBalances isAddress encodeFunctionData StringToNumber
    (withChunkSize request size)
  = getTokenBalances isAddress encodeFunctionData StringToNumber request.
Proof.
  intros Hanswers.
  destruct (getAddress isAddress (addressOrName request) (node (provider request))).2
    as [thrown|address] eqn:Haddress.
  - unfold getTokenBalances. cbn [withChunkSize addressOrName provider].
    by rewrite Haddress.
  - destruct (isAddress address) eqn:Hvalid.
    + rewrite (getTokenBalances_answers (withChunkSize request size) answer address);
        [|done|done|by left].
      by rewrite (getTokenBalances_answers request answer address); [|done|done|left].
    + destruct (contractAddresses request) as [|a rest] eqn:Hlist.
      * rewrite (getTokenBalances_answers (withChunkSize request size) answer address);
          [|done|done|by right].
        by rewrite (getTokenBalances_answers request answer address); [|done|done|right].
      * rewrite (getTokenBalances_invalid_holder (withChunkSize request size) address);
          [|done|done|cbn [withChunkSize contractAddresses]; by rewrite Hlist].
        symmetry. apply (getTokenBalances_invalid_holder request address); [done|done|].
        by rewrite Hlist.
Qed.

(** X19.  The keys of the result: a contract is in the object returned exactly
    if it is in the list and its balanceOf answer is a non-zero word of
    the expected length, and every record has exactly the fields symbol,
    decimals, name and balanceOf. *)
Theorem getTokenBalances_keys request answer res :
  answersEachCall (provider request) (multicallOf request) answer →
  getTokenBalances isAddress encodeFunctionData StringToNumber request = Some res →
  ∃ address,
    (getAddress isAddress (addressOrName request) (node (provider request))).2
      = inr address
    ∧ (∀ a, a ∈ dom res
            ↔ a ∈ contractAddresses request
              ∧ nonZeroData (balanceAnswer encodeFunctionData answer address a).2 = true)
    ∧ ∀ a record, res !! a = Some record →
        dom record = list_to_set ["symbol"; "decimals"; "name"; "balanceOf"].
Proof.
  intros Hanswers Hrun.
  destruct (getAddress isAddress (addressOrName request) (node (provider request))).2
    as [thrown|address] eqn:Haddress.
  { unfold getTokenBalances in Hrun. by rewrite Haddress in Hrun. }
  exists address. split; [done|].
  assert (isAddress address = true ∨ contractAddresses request = []) as Hvalid.
  { destruct (isAddress address) eqn:Hvalid; [by left|]. right.
    destruct (contractAddresses request) as [|a rest] eqn:Hlist; [done|].
    rewrite (getTokenBalances_invalid_holder request address) in Hrun; [done..|].
    by rewrite Hlist. }
  rewrite (getTokenBalances_answers request answer address) in Hrun by done.
  cbn zeta in Hrun.
  set (held := heldTokens (balanceAnswer encodeFunctionData answer address)
                 (contractAddresses request)) in *.
  set (encode := λ methodName, encodeFunctionData methodName []) in *.
  destruct (decodeMetaResults StringToNumber
              (answer <$> calls (buildCallsContext encode held))
              (context (buildCallsContext encode held)))
    as [console [meta|]] eqn:Hmeta; [|done].
  cbn [snd mbind option_bind] in Hrun.
  destruct (built_meta_keys StringToNumber encode held
              (answer <$> calls (buildCallsContext encode held)) console meta)
    as [Hdom Hfields].
  { rewrite length_fmap. by destruct (buildCallsContext_lengths encode held). }
  { done. }
  pose proof (balancesByContract_dom _ _ _ _ Hrun) as Hres.
  apply balancesByContract_lookup in Hrun as [Hin _]. split.
  - intros a. rewrite Hres, Hdom, elem_of_list_to_set. apply elem_of_heldTokens.
  - intros a record Ha.
    assert (a ∈ dom meta) as Hk by (rewrite <- Hres; apply elem_of_dom; by eexists).
    destruct (Hin a Hk) as (ti & Hti & Hrec). rewrite Ha in Hrec. injection Hrec as <-.
    apply elem_of_dom in Hk as [info Hinfo].
    unfold tokenInfo in Hti. rewrite Hinfo in Hti. cbn [mbind option_bind] in Hti.
    destruct (resultDataByContract held !! a) as [data|]; [|done].
    cbn [mbind option_bind] in Hti.
    destruct (decodeNumber 256 data) as [v|]; [|done]. cbn [mbind option_bind] in Hti.
    destruct (if default true (formatBalance request)
              then formatUnits (pretty v) (info !! "decimals")
              else Some (pretty v)) as [balance|]; [|done].
    cbn [mbind option_bind] in Hti. injection Hti as <-.
    rewrite dom_insert_L, (Hfields a info Hinfo). unfold methodNames.
    cbn [list_to_set]. rewrite !(right_id_L ∅ (∪)).
    rewrite (comm_L (∪) {["balanceOf"]}). by rewrite <- !(assoc_L (∪)).
Qed.

(** X20.  No partial result: when the multicall request of one group is
    rejected, [getTokenBalances] is rejected, whatever the other groups
    are answered. *)
Theorem getTokenBalances_group_failure request address group calls :
  (getAddress isAddress (addressOrName request) (node (provider request))).2
    = inr address →
  group ∈ chunk (contractAddresses request) (default 500 (chunkSize request)) →
  balanceCalls isAddress encodeFunctionData address group = Some calls →
  tryBlockAndAggregate (provider request) (multicallOf request) false calls = None →
  getTokenBalances isAddress encodeFunctionData StringToNumber request = None.
Proof.
  intros Haddress Hgroup Hcalls Hrejected. unfold getTokenBalances. rewrite Haddress.
  fold (multicallOf request).
  assert (mapM (λ chunk, fetchRawBalances isAddress encodeFunctionData address chunk
                           (multicallOf request) (provider request))
            (chunk (contractAddresses request) (default 500 (chunkSize request)))
          = None) as ->; [|done].
  apply mapM_None. apply Exists_exists. exists group. split; [done|].
  unfold fetchRawBalances, aggregate. rewrite Hcalls. cbn [mbind option_bind].
  by rewrite Hrejected.
Qed.

(** X21.  An empty list of contracts, once the holder address has been
    obtained: the outcome is decided by what the multicall contract
    answers to a batch of no calls.  It is the empty object when the
    answer holds no result, and a rejection when the request is rejected
    or the answer holds any result. *)
Theorem getTokenBalances_no_contracts request address :
  (getAddress isAddress (addressOrName request) (node (provider request))).2
    = inr address →
  contractAddresses request = [] →
  getTokenBalances isAddress encodeFunctionData StringToNumber request
  = match tryBlockAndAggregate (provider request) (multicallOf request) false [] with
    | Some (_, _, []) => Some ∅
    | _ => None
    end.
Proof.
  intros Haddress Hnone. unfold getTokenBalances. rewrite Haddress, Hnone.
  fold (multicallOf request). cbn [chunk fold_left length Nat.eqb mapM mbind option_bind
    mret option_ret foldl resultDataByContract buildCallsContext calls context map
    flat_map].
  unfold aggregate.
  destruct (tryBlockAndAggregate (provider request) (multicallOf request) false [])
    as [[[blockNumber blockHash] results]|]; [|done].
  cbn [mbind option_bind snd]. destruct results as [|r rest]; [done|].
  change (r :: rest) with ([] ++ r :: rest).
  rewrite (decodeMetaResults_app StringToNumber [] r rest []).
  unfold decodeMetaStep at 2. cbn [decodeMetaResults imap foldl length].
  destruct r as [s data]. cbn [lookup list_lookup].
  by rewrite decodeMetaStep_thrown.
Qed.

End Pipeline.

(** ** The whole call on compliant tokens *)

Lemma buildCallsContext_snoc encode (rs : list AssociatedCallResult) r :
  buildCallsContext encode (rs ++ [r])
  = {| calls := calls (buildCallsContext encode rs)
         ++ [ {| target := addressOf r; callData := encode "symbol" |};
              {| target := addressOf r; callData := encode "decimals" |};
              {| target := addressOf r; callData := encode "name" |} ];
       context := context (buildCallsContext encode rs)
         ++ [ {| contractAddress := addressOf r; methodName := "symbol" |};
              {| contractAddress := addressOf r; methodName := "decimals" |};
              {| contractAddress := addressOf r; methodName := "name" |} ] |}.
Proof.
  unfold buildCallsContext. rewrite map_app, !flat_map_app. reflexivity.
Qed.

Lemma metaRecord_again (vs vd vn : JsValue) :
  <["name" := vn]> (<["decimals" := vd]> (<["symbol" := vs]>
     (<["name" := vn]> (<["decimals" := vd]> ({[ "symbol" := vs ]} : gmap string JsValue)))))
  = <["name" := vn]> (<["decimals" := vd]> {[ "symbol" := vs ]}).
Proof.
  apply map_eq. intros k.
  destruct (decide ("name" = k)) as [<-|Hname]; [by rewrite !lookup_insert_eq|].
  rewrite !(lookup_insert_ne _ "name") by done.
  destruct (decide ("decimals" = k)) as [<-|Hdec]; [by rewrite !lookup_insert_eq|].
  rewrite !(lookup_insert_ne _ "decimals") by done.
  destruct (decide ("symbol" = k)) as [<-|Hsym].
  - by rewrite lookup_insert_eq, lookup_singleton_eq.
  - rewrite (lookup_insert_ne _ "symbol") by done.
    rewrite (lookup_insert_ne _ "name") by done.
    by rewrite (lookup_insert_ne _ "decimals") by done.
Qed.

Section CompliantRun.
Variable StringToNumber : string → JsNumber.

Lemma decodeMetaResults_context_app (results : list CallResult)
    (context extra : list CallContext) :
  (length results ≤ length context)%nat →
  decodeMetaResults StringToNumber results (context ++ extra)
  = decodeMetaResults StringToNumber results context.
Proof.
  induction results as [|r rs IH] using rev_ind; intros Hlen; [done|].
  rewrite length_app in Hlen. cbn in Hlen.
  rewrite !decodeMetaResults_snoc, IH by lia.
  destruct (decodeMetaResults StringToNumber rs context) as [console [meta|]]; [|done].
  unfold decodeMetaStep. destruct r as [s data]. by rewrite lookup_app_l by lia.
Qed.

Lemma decodeMetaStep_value context console meta (i : nat) (r : CallResult) c v :
  context !! i = Some c →
  (decodeMethodValue (methodName c) (contractAddress c) r.2).2 = Some v →
  decodeMetaStep StringToNumber context (console, Some meta) (i, r)
  = (console ++ (decodeMethodValue (methodName c) (contractAddress c) r.2).1,
     Some (<[contractAddress c :=
              <[methodName c := if String.eqb (methodName c) "decimals"
                                then Number StringToNumber v else v]>
                (default ∅ (meta !! contractAddress c))]> meta)).
Proof.
  intros Hc Hv. unfold decodeMetaStep. destruct r as [s data]. rewrite Hc.
  cbn [snd] in *.
  destruct (decodeMethodValue (methodName c) (contractAddress c) data) as [notices [v'|]];
    cbn [fst snd] in *; [|done].
  by injection Hv as ->.
Qed.

(** When every metadata answer decodes (directly or by the fallback), the
    decoder run on the calls built for a list of results succeeds with
    one full record per address. *)
Lemma decodeMetaResults_built_values encode (answer : Call → CallResult)
    (value : string → string → JsValue) (rs : list AssociatedCallResult) :
  (∀ a m, a ∈ addressOf <$> rs → m ∈ methodNames →
     (decodeMethodValue m a (answer {| target := a; callData := encode m |}).2).2
       = Some (value a m)) →
  ∃ console meta,
    decodeMetaResults StringToNumber (answer <$> calls (buildCallsContext encode rs))
      (context (buildCallsContext encode rs)) = (console, Some meta)
    ∧ dom meta = list_to_set (addressOf <$> rs)
    ∧ ∀ a, a ∈ addressOf <$> rs →
        meta !! a = Some (<["name" := value a "name"]>
                            (<["decimals" := Number StringToNumber (value a "decimals")]>
                               {[ "symbol" := value a "symbol" ]})).
Proof.
  induction rs as [|r rs IH] using rev_ind; intros Hval.
  - exists [], ∅. split; [done|]. split; [by rewrite dom_empty_L|].
    intros a Ha. by apply elem_of_nil in Ha.
  - destruct IH as (console & meta & Hrun & Hdom & Hrec).
    { intros a m Ha Hm. apply Hval; [|done]. rewrite fmap_app, elem_of_app. by left. }
    set (a := addressOf r).
    assert (a ∈ addressOf <$> rs ++ [r]) as Ha.
    { rewrite fmap_app, elem_of_app. right. by apply list_elem_of_singleton. }
    assert (∀ m, m ∈ methodNames →
              (decodeMethodValue m a (answer {| target := a; callData := encode m |}).2).2
              = Some (value a m)) as Hvala by (intros m; by apply Hval).
    rewrite buildCallsContext_snoc. cbn [calls context]. fold a.
    rewrite fmap_app. cbn [fmap list_fmap].
    set (R := answer <$> calls (buildCallsContext encode rs)) in *.
    set (C := context (buildCallsContext encode rs)) in *.
    assert (length R = length C) as HRC.
    { unfold R, C. rewrite length_fmap.
      destruct (buildCallsContext_lengths encode rs) as [-> ->]. done. }
    set (x1 := answer {| target := a; callData := encode "symbol" |}) in *.
    set (x2 := answer {| target := a; callData := encode "decimals" |}) in *.
    set (x3 := answer {| target := a; callData := encode "name" |}) in *.
    replace (R ++ [x1; x2; x3]) with (((R ++ [x1]) ++ [x2]) ++ [x3])
      by (by rewrite <- !app_assoc).
    rewrite !decodeMetaResults_snoc.
    rewrite decodeMetaResults_context_app by lia. rewrite Hrun.
    rewrite !length_app. cbn [length].
    rewrite (decodeMetaStep_value _ _ _ _ _
               {| contractAddress := a; methodName := "symbol" |} (value a "symbol")).
    2:{ rewrite HRC. by rewrite list_lookup_middle. }
    2:{ apply Hvala. unfold methodNames. by left. }
    rewrite (decodeMetaStep_value _ _ _ _ _
               {| contractAddress := a; methodName := "decimals" |} (value a "decimals")).
    2:{ rewrite HRC. rewrite lookup_app_r by lia.
        by replace (length C + 1 - length C)%nat with 1%nat by lia. }
    2:{ apply Hvala. unfold methodNames. right. by left. }
    rewrite (decodeMetaStep_value _ _ _ _ _
               {| contractAddress := a; methodName := "name" |} (value a "name")).
    2:{ rewrite HRC. rewrite lookup_app_r by lia.
        by replace (length C + 1 + 1 - length C)%nat with 2%nat by lia. }
    2:{ apply Hvala. unfold methodNames. right. right. by left. }
    cbn [contractAddress methodName String.eqb Ascii.eqb Bool.eqb].
    eexists _, _. split; [reflexivity|].
    rewrite !lookup_insert_eq. unfold default at 1 2. cbn [from_option id].
    rewrite !insert_insert_eq.
    assert (<["name" := value a "name"]>
              (<["decimals" := Number StringToNumber (value a "decimals")]>
                 (<["symbol" := value a "symbol"]> (default ∅ (meta !! a))))
            = <["name" := value a "name"]>
                (<["decimals" := Number StringToNumber (value a "decimals")]>
                   {[ "symbol" := value a "symbol" ]})) as ->.
    { destruct (meta !! a) as [record|] eqn:Hmeta; cbn [default from_option].
      - assert (a ∈ addressOf <$> rs) as Hold.
        { apply (elem_of_list_to_set (C := gset string)). rewrite <- Hdom.
          apply elem_of_dom. by eexists. }
        rewrite (Hrec a Hold) in Hmeta. injection Hmeta as <-.
        apply metaRecord_again.
      - by rewrite insert_empty. }
    split.
    + rewrite dom_insert_L, Hdom, fmap_app, list_to_set_app_L.
      cbn [fmap list_fmap list_to_set]. fold a.
      rewrite (right_id_L ∅ (∪)). apply (comm_L (∪)).
    + intros a' Ha'. destruct (decide (a = a')) as [<-|Hne].
      * by rewrite lookup_insert_eq.
      * rewrite lookup_insert_ne by done. apply Hrec.
        rewrite fmap_app, elem_of_app in Ha'. destruct Ha' as [?|Ha']; [done|].
        apply list_elem_of_singleton in Ha'. by destruct Hne.
Qed.

End CompliantRun.

Lemma resultDataByContract_same (f : string → ReturnData)
    (rs : list AssociatedCallResult) a :
  (∀ r, r ∈ rs → r.2 = f (addressOf r)) →
  a ∈ addressOf <$> rs → resultDataByContract rs !! a = Some (f a).
Proof.
  induction rs as [|[[a' s] d] rs IH] using rev_ind; intros Hsame Ha.
  - by apply elem_of_nil in Ha.
  - rewrite resultDataByContract_snoc.
    destruct (decide (a' = a)) as [->|Hne].
    + rewrite lookup_insert_eq. f_equal.
      apply (Hsame (a, s, d)). rewrite elem_of_app. right. by apply list_elem_of_singleton.
    + rewrite lookup_insert_ne by done. apply IH.
      * intros r Hr. apply Hsame. rewrite elem_of_app. by left.
      * rewrite fmap_app, elem_of_app in Ha. destruct Ha as [?|Ha]; [done|].
        apply list_elem_of_singleton in Ha. by destruct Hne.
Qed.

Lemma decodeMethodValue_abiString m a text :
  m = "symbol" ∨ m = "name" →
  Forall (λ b, 0 < byteZ b < 128) text → (length text < 256)%nat →
  decodeMethodValue m a (hexlify (abiString text))
  = ([], Some (VString (string_of_list_byte text))).
Proof.
  intros Hm Hascii Hlen. unfold decodeMethodValue.
  assert (fragmentTypes m = Some string_) as -> by (by destruct Hm as [-> | ->]).
  cbn [decode mbind option_bind]. by rewrite decodeString_abiString.
Qed.

Lemma decodeMethodValue_smallWord a (n : nat) :
  (n < 256)%nat →
  decodeMethodValue "decimals" a (hexlify (smallWord n)) = ([], Some (VBigInt (Z.of_nat n))).
Proof.
  intros Hn. unfold decodeMethodValue. change (fragmentTypes "decimals") with (Some uint8).
  cbn [decode mbind option_bind]. by rewrite decodeNumber_smallWord by (done || lia).
Qed.

Section CompliantCall.
Variable isAddress : string → bool.
Variable encodeFunctionData : string → list string → string.
Variable StringToNumber : string → JsNumber.

(** X22.  The whole call succeeds on compliant tokens.  Let the holder be,
    or resolve to, a valid address, let the multicall contract answer one
    result per call and every balanceOf answer be one word, and let every
    contract with a non-zero balance answer symbol() and name() with the
    ABI encoding of a non-null ASCII text of fewer than 256 bytes and
    decimals() with a word of at most 80.  Then [getTokenBalances] returns
    an object that has, for each such contract, the record of its symbol,
    decimals and name with the balance as a string: the decimal integer,
    or with [formatBalance] (the default) the integer shifted by the
    decimals. *)
Theorem getTokenBalances_compliant request answer address
    (symbol name balance : string → list byte) (decimals : string → nat) :
  answersEachCall (provider request) (multicallOf request) answer →
  (getAddress isAddress (addressOrName request) (node (provider request))).2
    = inr address →
  isAddress address = true →
  (∀ a, a ∈ contractAddresses request →
     (balanceAnswer encodeFunctionData answer address a).2 = hexlify (balance a)
     ∧ length (balance a) = 32%nat) →
  (∀ a, a ∈ contractAddresses request → balance a ≠ replicate 32 x00 →
     compliantToken encodeFunctionData answer a (symbol a) (decimals a) (name a)
     ∧ (decimals a ≤ 80)%nat) →
  ∃ res,
    getTokenBalances isAddress encodeFunctionData StringToNumber request = Some res
    ∧ ∀ a, a ∈ contractAddresses request → balance a ≠ replicate 32 x00 →
        res !! a
        = Some (tokenRecord (symbol a) (decimals a) (name a)
                  (if default true (formatBalance request)
                   then fixedToString (toBigInt (balance a)) (Z.of_nat (decimals a))
                   else pretty (toBigInt (balance a)))).
Proof.
  intros Hanswers Haddress Hvalid Hbal Hcomp.
  rewrite (getTokenBalances_answers _ _ _ request answer address); [|done|done|by left].
  cbn zeta.
  set (h := balanceAnswer encodeFunctionData answer address).
  set (held := heldTokens h (contractAddresses request)).
  set (encode := λ methodName, encodeFunctionData methodName []).
  set (fmt := default true (formatBalance request)).
  assert (∀ a, a ∈ addressOf <$> held
               ↔ a ∈ contractAddresses request ∧ balance a ≠ replicate 32 x00) as Hheld.
  { intros a. unfold held. rewrite elem_of_heldTokens. split.
    - intros [Hin Hnz]. split; [done|]. destruct (Hbal a Hin) as [Hdata _].
      fold h in Hdata. rewrite Hdata in Hnz. by apply nonZeroData_hexlify in Hnz as [? _].
    - intros [Hin Hnz]. split; [done|]. destruct (Hbal a Hin) as [Hdata Hlen].
      fold h in Hdata. rewrite Hdata. by apply nonZeroData_hexlify. }
  set (value := λ a m : string,
         if String.eqb m "symbol" then VString (string_of_list_byte (symbol a))
         else if String.eqb m "decimals" then VBigInt (Z.of_nat (decimals a))
         else VString (string_of_list_byte (name a))).
  destruct (decodeMetaResults_built_values StringToNumber encode answer value held)
    as (console & meta & Hrun & Hdom & Hrec).
  { intros a m Ha Hm. apply Hheld in Ha as [Hin Hnz].
    destruct (Hcomp a Hin Hnz)
      as [(Hs & Hd & Hn & Hsa & Hsl & Hna & Hnl) Hle].
    unfold methodNames in Hm. rewrite !elem_of_cons, elem_of_nil in Hm.
    unfold encode. destruct Hm as [->|[->|[->|[]]]].
    - rewrite Hs, decodeMethodValue_abiString by (done || by left). done.
    - rewrite Hd, decodeMethodValue_smallWord by lia. done.
    - rewrite Hn, decodeMethodValue_abiString by (done || by right). done. }
  rewrite Hrun. cbn [snd mbind option_bind].
  assert (∀ a, a ∈ addressOf <$> held →
            tokenInfo meta (resultDataByContract held) fmt a
            = Some (tokenRecord (symbol a) (decimals a) (name a)
                      (if fmt
                       then fixedToString (toBigInt (balance a)) (Z.of_nat (decimals a))
                       else pretty (toBigInt (balance a))))) as Hti.
  { intros a Ha. unfold tokenInfo. rewrite (Hrec a Ha). cbn [mbind option_bind].
    rewrite (resultDataByContract_same (λ a, (h a).2) held a); [| |done].
    2:{ intros r Hr. unfold held, heldTokens in Hr.
        apply list_elem_of_fmap in Hr as (x & -> & _). done. }
    cbn [mbind option_bind].
    apply Hheld in Ha as [Hin Hnz]. destruct (Hbal a Hin) as [Hdata Hlen].
    fold h in Hdata. rewrite Hdata.
    rewrite (decodeNumber_256_word _ (balance a)) by (by rewrite ?getBytes_hexlify).
    cbn [mbind option_bind].
    rewrite lookup_insert_ne by done. rewrite lookup_insert_eq.
    destruct (Hcomp a Hin Hnz) as [_ Hle].
    pose proof (toBigInt_range (balance a)) as [Hv0 Hv1]. rewrite Hlen in Hv1.
    assert (toBigInt (balance a) < 2 ^ 511) as Hv2.
    { eapply Z.lt_le_trans; [exact Hv1|]. change (256 ^ Z.of_nat 32) with (2 ^ 256).
      apply Z.pow_le_mono_r; lia. }
    change (value a "decimals") with (VBigInt (Z.of_nat (decimals a))).
    change (value a "name") with (VString (string_of_list_byte (name a))).
    change (value a "symbol") with (VString (string_of_list_byte (symbol a))).
    cbn [Number].
    destruct fmt.
    - rewrite formatUnits_decimals_Some by lia. done.
    - done. }
  destruct (balances_fold_Some meta (resultDataByContract held) fmt
              (map_to_list meta).*1 ∅) as [res Hres].
  { intros k Hk. apply elem_of_keys in Hk. rewrite Hdom, elem_of_list_to_set in Hk.
    rewrite (Hti k Hk). by eexists. }
  exists res. split; [exact Hres|].
  intros a Hin Hnz.
  apply balancesByContract_lookup in Hres as [Hlook _].
  assert (a ∈ addressOf <$> held) as Ha by (by apply Hheld).
  destruct (Hlook a) as (ti & Hinfo & Hres).
  { by rewrite Hdom, elem_of_list_to_set. }
  rewrite (Hti a Ha) in Hinfo. by injection Hinfo as <-.
Qed.

End CompliantCall.

(** * The further statements at concrete inputs *)

Lemma dai_decoded :
  decodeMetaResults (λ _, NumNaN) daiResults daiContext = ([], Some daiMeta).
Proof. vm_compute. reflexivity. Qed.

Lemma sampleConnection_answers multicall :
  answersEachCall sampleConnection multicall sampleAnswer.
Proof. intros calls. by exists 0, ZeroHash. Qed.

(** One result and no context entry. *)
Lemma decodeMetaResults_short_context_example :
  (decodeMetaResults (λ _, NumNaN) [(true, "0x")] []).2 = None.
Proof.
  apply (decodeMetaResults_short_context (λ _, NumNaN) [(true, "0x")] []).
  simpl. lia.
Defined.

(** The keys decoded for the sample token. *)
Lemma decodeMetaResults_records_example :
  dom daiMeta = list_to_set ["0xD"; "0xD"; "0xD"]
  ∧ ∀ a fields, daiMeta !! a = Some fields →
      dom fields = list_to_set (methodsAsked daiContext 3 a).
Proof.
  exact (proj2 (decodeMetaResults_records (λ _, NumNaN) daiResults daiContext
                  [] daiMeta dai_decoded)).
Defined.

(** The decimals of the sample token come from its second answer. *)
Lemma decodeMetaResults_last_value_example :
  ∃ notices v,
    decodeMethodValue "decimals" "0xD" (hexlify (smallWord 18)) = (notices, Some v)
    ∧ daiMeta !! "0xD" ≫= (.!! "decimals") = Some (Number (λ _, NumNaN) v).
Proof.
  apply (decodeMetaResults_last_value (λ _, NumNaN) daiResults daiContext [] daiMeta
           1%nat true (hexlify (smallWord 18))
           {| contractAddress := "0xD"; methodName := "decimals" |}
           dai_decoded eq_refl eq_refl).
  intros j c' Hj Hc'. simpl in Hj.
  destruct j as [|[|[|j]]]; [lia|lia| |lia].
  injection Hc' as <-. discriminate.
Defined.

(** The kinds of the values decoded for the sample token. *)
Lemma decodeMetaResults_field_types_example :
  ∃ z, 0 ≤ z < 256 ∧ VNumber (NumInt 18) = VNumber (NumInt z).
Proof.
  exact (proj1 (decodeMetaResults_field_types (λ _, NumNaN) daiResults daiContext
                  [] daiMeta dai_decoded "0xD" (VNumber (NumInt 18))) eq_refl).
Defined.


(** The sample metadata without any raw balance. *)
Lemma balancesByContract_missing_balance_example :
  balancesByContract usdcMeta ∅ true = None.
Proof.
  apply (balancesByContract_missing_balance usdcMeta ∅ true "0xA").
  - apply elem_of_dom. by eexists.
  - by left.
Defined.

(** The record of the sample token keeps symbol, decimals and name. *)
Lemma balancesByContract_keeps_metadata_example :
  ∃ res record balance,
    balancesByContract usdcMeta oneMillionRaw true = Some res
    ∧ res !! "0xA" = Some record
    ∧ record !! "balanceOf" = Some (VString balance)
    ∧ record !! "symbol" = Some (VString "USDC").
Proof.
  destruct usdc_normalized as [res Hrun].
  destruct (balancesByContract_keeps_metadata usdcMeta oneMillionRaw true res
              "0xA" usdcInfo Hrun eq_refl) as (record & balance & Hres & Hbal & Hrest).
  exists res, record, balance. split; [exact Hrun|]. split; [exact Hres|].
  split; [exact Hbal|]. rewrite Hrest by discriminate. reflexivity.
Defined.

Lemma nameless_normalized :
  ∃ res, balancesByContract {[ "0xA" := {[ "symbol" := VString "USDC" ]} ]}
           oneMillionRaw true = Some res.
Proof. vm_compute. by eexists. Qed.

(** One million units of a token whose record has no decimals. *)
Lemma balancesByContract_default_decimals_example :
  ∃ balance m (digits : nat),
    balance = fixedToString 1000000 18
    ∧ readFixed balance = Some (m, digits)
    ∧ m * 10 ^ (18 - Z.of_nat digits) = 1000000.
Proof.
  destruct nameless_normalized as [res Hrun].
  destruct (balancesByContract_default_decimals
              {[ "0xA" := {[ "symbol" := VString "USDC" ]} ]} oneMillionRaw res
              "0xA" {[ "symbol" := VString "USDC" ]}
              "0x00000000000000000000000000000000000000000000000000000000000f4240"
              (replicate 29 x00 ++ [x0f; x42; x40])
              Hrun eq_refl eq_refl eq_refl eq_refl eq_refl)
    as (balance & m & digits & _ & Hbal & Hread & Hval).
  exists balance, m, digits. split; [exact Hbal|]. split; [exact Hread|exact Hval].
Defined.

(** A name, a provider whose network request fails, and a provider on
    chain 1 whose name resolution fails. *)
Lemma getAddress_requests_example :
  getAddress (λ _, false) "vitalik.eth"
    {| getNetwork := inl "timeout"; resolveName := λ _, inr None |}
  = ([GetNetwork], inl (ProviderFailure "timeout"))
  ∧ getAddress (λ _, false) "vitalik.eth"
      {| getNetwork := inr 1; resolveName := λ _, inl "no resolver" |}
    = ([GetNetwork; ResolveName "vitalik.eth"], inl (ProviderFailure "no resolver")).
Proof.
  split.
  - exact (proj1 (proj2 (proj2 (proj2 (getAddress_requests (λ _, false) "vitalik.eth"
             {| getNetwork := inl "timeout"; resolveName := λ _, inr None |}))))
             "timeout" eq_refl eq_refl).
  - exact (proj2 (proj2 (proj2 (proj2 (getAddress_requests (λ _, false) "vitalik.eth"
             {| getNetwork := inr 1; resolveName := λ _, inl "no resolver" |}))))
             "no resolver" eq_refl eq_refl eq_refl).
Defined.

(** The keys decoded for the calls built for the sample token. *)
Lemma decodeMetaResults_after_build_example :
  dom daiMeta = dom (resultDataByContract [("0xD", true, "0x01")])
  ∧ ∀ a fields, daiMeta !! a = Some fields →
      dom fields = list_to_set ["symbol"; "decimals"; "name"].
Proof.
  exact (proj2 (decodeMetaResults_after_build (λ _, NumNaN) erc20Selectors
                  [("0xD", true, "0x01")] daiResults [] daiMeta dai_decoded) eq_refl).
Defined.

(** One group of three contracts on the sample chain: only the second
    one is kept; and a holder that is no address. *)
Lemma fetchRawBalances_kept_example :
  fetchRawBalances sampleIsAddress sampleEncode holderAddress
    [usdcAddress; daiAddress; usdtAddress]
    "0xcA11bde05977b3631167028862bE2a173976CA11" sampleConnection
  = Some [(Some daiAddress, true, hexlify (smallWord 5))]
  ∧ fetchRawBalances sampleIsAddress sampleEncode "vitalik.eth"
      [usdcAddress; daiAddress; usdtAddress]
      "0xcA11bde05977b3631167028862bE2a173976CA11" sampleConnection
    = None.
Proof.
  split.
  - exact (proj1 (fetchRawBalances_kept sampleIsAddress sampleEncode sampleConnection
             "0xcA11bde05977b3631167028862bE2a173976CA11" sampleAnswer holderAddress
             [usdcAddress; daiAddress; usdtAddress])
             (sampleConnection_answers _) (or_introl eq_refl)).
  - apply (proj2 (fetchRawBalances_kept sampleIsAddress sampleEncode sampleConnection
             "0xcA11bde05977b3631167028862bE2a173976CA11" sampleAnswer "vitalik.eth"
             [usdcAddress; daiAddress; usdtAddress])); [reflexivity|discriminate].
Defined.

(** Three contracts on the sample chain, in groups of two and by default. *)
Lemma getTokenBalances_chunk_size_example :
  getTokenBalances sampleIsAddress sampleEncode (λ _, NumNaN)
    (sampleRequest [usdcAddress; daiAddress; usdtAddress] (Some 2))
  = getTokenBalances sampleIsAddress sampleEncode (λ _, NumNaN)
      (sampleRequest [usdcAddress; daiAddress; usdtAddress] None).
Proof.
  exact (getTokenBalances_chunk_size sampleIsAddress sampleEncode (λ _, NumNaN)
           (sampleRequest [usdcAddress; daiAddress; usdtAddress] None) sampleAnswer
           (Some 2) (sampleConnection_answers _)).
Defined.

Lemma sample_balances :
  ∃ res, getTokenBalances sampleIsAddress sampleEncode (λ _, NumNaN)
           (sampleRequest [usdcAddress; daiAddress; usdtAddress] (Some 2)) = Some res.
Proof. vm_compute. by eexists. Qed.

(** Three contracts on the sample chain: the result has the key of the
    second and not the key of the first. *)
Lemma getTokenBalances_keys_example :
  ∃ res,
    getTokenBalances sampleIsAddress sampleEncode (λ _, NumNaN)
      (sampleRequest [usdcAddress; daiAddress; usdtAddress] (Some 2)) = Some res
    ∧ daiAddress ∈ dom res ∧ usdcAddress ∉ dom res.
Proof.
  destruct sample_balances as [res Hrun]. exists res. split; [exact Hrun|].
  destruct (getTokenBalances_keys sampleIsAddress sampleEncode (λ _, NumNaN)
              (sampleRequest [usdcAddress; daiAddress; usdtAddress] (Some 2))
              sampleAnswer res (sampleConnection_answers _) Hrun)
    as (address & Haddress & Hkeys & _).
  injection Haddress as <-. split.
  - apply Hkeys. split; [|reflexivity]. apply list_elem_of_further, list_elem_of_here.
  - intros Hin. apply Hkeys in Hin as [_ Hnz]. discriminate Hnz.
Defined.

(** A multicall contract that rejects every batch of two calls, asked in
    groups of two. *)
Lemma getTokenBalances_group_failure_example :
  getTokenBalances sampleIsAddress sampleEncode (λ _, NumNaN)
    {| addressOrName := holderAddress;
       contractAddresses := [usdcAddress; daiAddress; usdtAddress];
       provider :=
         {| node := {| getNetwork := inr 1; resolveName := λ _, inr None |};
            tryBlockAndAggregate := λ _ _ calls,
              if (length calls =? 2)%nat then None
              else Some (0, ZeroHash, sampleAnswer <$> calls) |};
       chunkSize := Some 2;
       formatBalance := None;
       multicallCustomContractAddress := None |}
  = None.
Proof.
  apply (getTokenBalances_group_failure sampleIsAddress sampleEncode (λ _, NumNaN) _
           holderAddress [usdcAddress; daiAddress]
           [ {| target := usdcAddress; callData := "0x70a08231" |};
             {| target := daiAddress; callData := "0x70a08231" |} ]).
  - reflexivity.
  - apply list_elem_of_here.
  - reflexivity.
  - reflexivity.
Defined.

(** No contract, on the sample chain. *)
Lemma getTokenBalances_no_contracts_example :
  getTokenBalances sampleIsAddress sampleEncode (λ _, NumNaN) (sampleRequest [] None)
  = Some ∅.
Proof.
  exact (getTokenBalances_no_contracts sampleIsAddress sampleEncode (λ _, NumNaN)
           (sampleRequest [] None) holderAddress eq_refl eq_refl).
Defined.

(** Three contracts on the sample chain: the record of the second. *)
Lemma getTokenBalances_compliant_example :
  ∃ res,
    getTokenBalances sampleIsAddress sampleEncode (λ _, NumNaN)
      (sampleRequest [usdcAddress; daiAddress; usdtAddress] (Some 2)) = Some res
    ∧ res !! daiAddress
      = Some (tokenRecord [x44; x41; x49] 18 [x44; x61; x69]
                (fixedToString 5 18)).
Proof.
  destruct (getTokenBalances_compliant sampleIsAddress sampleEncode (λ _, NumNaN)
              (sampleRequest [usdcAddress; daiAddress; usdtAddress] (Some 2))
              sampleAnswer holderAddress
              (λ _, [x44; x41; x49]) (λ _, [x44; x61; x69])
              (λ a, if String.eqb a daiAddress then smallWord 5 else replicate 32 x00)
              (λ _, 18%nat))
    as (res & Hrun & Hrecords).
  - apply sampleConnection_answers.
  - reflexivity.
  - reflexivity.
  - intros a Ha. cbn [sampleRequest contractAddresses] in Ha.
    rewrite !elem_of_cons, elem_of_nil in Ha.
    destruct Ha as [->|[->|[->|[]]]]; split; reflexivity.
  - intros a Ha Hnz. cbn [sampleRequest contractAddresses] in Ha.
    rewrite !elem_of_cons, elem_of_nil in Ha.
    destruct Ha as [->|[->|[->|[]]]].
    + by destruct Hnz.
    + split; [|lia]. unfold compliantToken.
      split; [reflexivity|]. split; [reflexivity|]. split; [reflexivity|].
      split; [repeat constructor|]. split; [simpl; lia|].
      split; [repeat constructor|simpl; lia].
    + by destruct Hnz.
  - exists res. split; [exact Hrun|].
    apply (Hrecords daiAddress).
    + apply list_elem_of_further, list_elem_of_here.
    + discriminate.
Defined.
